(** * Scheduled VM snapshot controller: the reconciler of
      pkg/storage/snapshot/schedule.go

    A shallow embedding of [updateVMSnapshotSchedule] and of the functions it
    calls, over the API types of kubevirt.io/api/snapshot/v1beta1.

    - Instants ([time.Time]) are integers: nanoseconds since the Unix epoch,
      UTC.  Durations are [int64] nanoseconds, with the saturation of
      [Time.Sub] written out.
    - Go maps that may be [nil] are [option (gmap string string)].
    - Every interaction of the reconciler with its collaborators (clock,
      informer stores, API client, event recorder) is appended to a trace; the
      answers of the collaborators come from a [World]. *)

From Stdlib Require Import ZArith String Ascii List Lia Bool.
From Stdlib Require Import DecimalString.
From stdpp Require Import gmap strings list fin_maps sorting.

Open Scope string_scope.
Open Scope list_scope.
Open Scope Z_scope.

(** ** Time *)

Abbreviation Time := Z (only parsing).
Abbreviation Duration := Z (only parsing).

Definition Second : Z := 1000000000.
Definition Minute : Z := 60 * Second.

Definition minDuration : Z := - 2 ^ 63.
Definition maxDuration : Z := 2 ^ 63 - 1.

(** The zero [time.Time]: January 1, year 1, 00:00:00 UTC. *)
Definition zeroTime : Z := -62135596800 * Second.

(** [Time.Sub]: the difference, saturated to the range of [Duration]. *)
Definition time_Sub (t u : Time) : Duration :=
  let d := t - u in
  if d <? minDuration then minDuration
  else if maxDuration <? d then maxDuration
  else d.

Definition time_Add (t : Time) (d : Duration) : Time := t + d.
Definition time_After (t u : Time) : bool := u <? t.
Definition time_Before (t u : Time) : bool := t <? u.
Definition time_Equal (t u : Time) : bool := t =? u.

(** [metav1.Time.Equal] on two pointers. *)
Definition metaTime_Equal (t u : option Time) : bool :=
  match t, u with
  | None, None => true
  | Some a, Some b => time_Equal a b
  | _, _ => false
  end.

(** ** Errors *)

Inductive StatusReason :=
| ReasonNone            (* not an API status error, e.g. from fmt.Errorf *)
| ReasonAlreadyExists
| ReasonNotFound
| ReasonInternalError
| ReasonConflict.

Record error := { errReason : StatusReason; errMsg : string }.

Definition Errorf (msg : string) : error :=
  {| errReason := ReasonNone; errMsg := msg |}.

Definition IsAlreadyExists (e : error) : bool :=
  match errReason e with ReasonAlreadyExists => true | _ => false end.

Definition IsNotFound (e : error) : bool :=
  match errReason e with ReasonNotFound => true | _ => false end.

(** ** API types (kubevirt.io/api/snapshot/v1beta1) *)

Definition DefaultFailureDeadline : Duration := 5 * Minute.

Record OwnerReference := {
  orAPIVersion : string;
  orKind : string;
  orName : string;
  orUID : string;
  orController : option bool
}.

Record TypedLocalObjectReference := {
  refAPIGroup : option string;
  refKind : string;
  refName : string
}.

Record VirtualMachineSnapshotSpec := {
  specSource : TypedLocalObjectReference;
  specDeletionPolicy : option string;
  specFailureDeadline : option Duration
}.

Record VirtualMachineSnapshot := {
  snapName : string;
  snapNamespace : string;
  snapLabels : option (gmap string string);
  snapAnnotations : option (gmap string string);
  snapOwnerReferences : list OwnerReference;
  snapCreationTimestamp : Time;
  snapSpec : VirtualMachineSnapshotSpec
}.

Record VirtualMachine := {
  vmName : string;
  vmNamespace : string;
  vmLabels : option (gmap string string)
}.

(** [metav1.LabelSelector]: plain data here; what it selects is decided by
    apimachinery (see [LabelSelectorAsSelector] below). *)
Record LabelSelectorRequirement := {
  reqKey : string;
  reqOperator : string;
  reqValues : list string
}.

Record LabelSelector := {
  selMatchLabels : option (gmap string string);
  selMatchExpressions : list LabelSelectorRequirement
}.

Record VirtualMachineSnapshotScheduleRetention := {
  retExpires : option Duration;
  retMaxCount : option Z          (* *int32 *)
}.

Record VirtualMachineSnapshotTemplateSpec := {
  tmplLabels : option (gmap string string);
  tmplAnnotations : option (gmap string string);
  tmplDeletionPolicy : option string;
  tmplFailureDeadline : option Duration
}.

Definition ScheduleFailurePolicyContinue : string := "Continue".
Definition ScheduleFailurePolicyPause : string := "Pause".

Definition SchedulePhaseActive : string := "Active".
Definition SchedulePhasePaused : string := "Paused".
Definition SchedulePhaseFailed : string := "Failed".

Record Error := {
  errorTime : option Time;
  errorMessage : option string
}.

Record Condition := {
  condType : string;
  condStatus : string;
  condReason : string;
  condMessage : string
}.

Record VMSnapshotStatus := {
  vssVMName : string;
  vssLastSnapshotName : string;
  vssLastSnapshotTime : option Time;
  vssCurrentSnapshotCount : Z;
  vssError : option Error
}.

Record VirtualMachineSnapshotScheduleStatus := {
  stPhase : string;
  stLastSnapshotTime : option Time;
  stNextSnapshotTime : option Time;
  stLastSuccessfulSnapshotName : string;
  stCurrentSnapshotCount : Z;      (* int32 *)
  stError : option Error;
  stConditions : list Condition;
  stVMSnapshotStatuses : list VMSnapshotStatus
}.

(** The zero value [&VirtualMachineSnapshotScheduleStatus{}]. *)
Definition emptyStatus : VirtualMachineSnapshotScheduleStatus :=
  {| stPhase := EmptyString; stLastSnapshotTime := None; stNextSnapshotTime := None;
     stLastSuccessfulSnapshotName := EmptyString; stCurrentSnapshotCount := 0;
     stError := None; stConditions := []; stVMSnapshotStatuses := [] |}.

Record VirtualMachineSnapshotScheduleSpec := {
  spSource : option TypedLocalObjectReference;
  spVMSelector : option LabelSelector;
  spSchedule : string;
  spDisabled : bool;
  spRetention : option VirtualMachineSnapshotScheduleRetention;
  spSnapshotTemplate : option VirtualMachineSnapshotTemplateSpec;
  spFailurePolicy : option string
}.

Record VirtualMachineSnapshotSchedule := {
  schedName : string;
  schedNamespace : string;
  schedUID : string;
  schedSpec : VirtualMachineSnapshotScheduleSpec;
  schedStatus : option VirtualMachineSnapshotScheduleStatus
}.

(** Field updates of the status, as the assignments of the reconciler. *)
Definition setPhase (p : string) (st : VirtualMachineSnapshotScheduleStatus) :=
  {| stPhase := p;
     stLastSnapshotTime := stLastSnapshotTime st;
     stNextSnapshotTime := stNextSnapshotTime st;
     stLastSuccessfulSnapshotName := stLastSuccessfulSnapshotName st;
     stCurrentSnapshotCount := stCurrentSnapshotCount st;
     stError := stError st;
     stConditions := stConditions st;
     stVMSnapshotStatuses := stVMSnapshotStatuses st |}.

Definition setError (e : option Error) (st : VirtualMachineSnapshotScheduleStatus) :=
  {| stPhase := stPhase st;
     stLastSnapshotTime := stLastSnapshotTime st;
     stNextSnapshotTime := stNextSnapshotTime st;
     stLastSuccessfulSnapshotName := stLastSuccessfulSnapshotName st;
     stCurrentSnapshotCount := stCurrentSnapshotCount st;
     stError := e;
     stConditions := stConditions st;
     stVMSnapshotStatuses := stVMSnapshotStatuses st |}.

Definition setLastSnapshotTime (t : option Time) (st : VirtualMachineSnapshotScheduleStatus) :=
  {| stPhase := stPhase st;
     stLastSnapshotTime := t;
     stNextSnapshotTime := stNextSnapshotTime st;
     stLastSuccessfulSnapshotName := stLastSuccessfulSnapshotName st;
     stCurrentSnapshotCount := stCurrentSnapshotCount st;
     stError := stError st;
     stConditions := stConditions st;
     stVMSnapshotStatuses := stVMSnapshotStatuses st |}.

Definition setNextSnapshotTime (t : option Time) (st : VirtualMachineSnapshotScheduleStatus) :=
  {| stPhase := stPhase st;
     stLastSnapshotTime := stLastSnapshotTime st;
     stNextSnapshotTime := t;
     stLastSuccessfulSnapshotName := stLastSuccessfulSnapshotName st;
     stCurrentSnapshotCount := stCurrentSnapshotCount st;
     stError := stError st;
     stConditions := stConditions st;
     stVMSnapshotStatuses := stVMSnapshotStatuses st |}.

Definition setCurrentSnapshotCount (c : Z) (st : VirtualMachineSnapshotScheduleStatus) :=
  {| stPhase := stPhase st;
     stLastSnapshotTime := stLastSnapshotTime st;
     stNextSnapshotTime := stNextSnapshotTime st;
     stLastSuccessfulSnapshotName := stLastSuccessfulSnapshotName st;
     stCurrentSnapshotCount := c;
     stError := stError st;
     stConditions := stConditions st;
     stVMSnapshotStatuses := stVMSnapshotStatuses st |}.

Definition setStatus (st : VirtualMachineSnapshotScheduleStatus)
    (schedule : VirtualMachineSnapshotSchedule) :=
  {| schedName := schedName schedule;
     schedNamespace := schedNamespace schedule;
     schedUID := schedUID schedule;
     schedSpec := schedSpec schedule;
     schedStatus := Some st |}.

(** ** Constants of schedule.go *)

Definition scheduleNameLabel : string := "snapshot.kubevirt.io/schedule-name".
Definition scheduleNamespaceLabel : string := "snapshot.kubevirt.io/schedule-namespace".
Definition scheduledSnapshotLabel : string := "snapshot.kubevirt.io/scheduled".

Definition scheduleCreateSnapshotEvent : string := "ScheduledSnapshotCreated".
Definition scheduleDeleteSnapshotEvent : string := "ScheduledSnapshotDeleted".
Definition scheduleRetentionCleanupEvent : string := "RetentionCleanup".
Definition scheduleFailedEvent : string := "ScheduledSnapshotFailed".
Definition scheduleInvalidCronEvent : string := "InvalidCronExpression".
Definition scheduleNoVMsMatchedEvent : string := "NoVMsMatchedSelector".

Definition EventTypeNormal : string := "Normal".
Definition EventTypeWarning : string := "Warning".

(** ** The collaborators: informer stores, API client, recorder, clock *)

(** What an informer store holds: the reconciler type-asserts every object
    it reads. *)
Inductive Obj :=
| ObjVM (vm : VirtualMachine)
| ObjSnapshot (s : VirtualMachineSnapshot)
| ObjSchedule (s : VirtualMachineSnapshotSchedule)
| ObjOther (typeName : string).

Definition typeName (o : Obj) : string :=
  match o with
  | ObjVM _ => "*v1.VirtualMachine"
  | ObjSnapshot _ => "*v1beta1.VirtualMachineSnapshot"
  | ObjSchedule _ => "*v1beta1.VirtualMachineSnapshotSchedule"
  | ObjOther n => n
  end.

(** The three results of [Store.GetByKey]. *)
Inductive GetResult :=
| GetError (e : error)
| GetAbsent
| GetItem (o : Obj).

Record PatchOperation := {
  opOp : string;
  opPath : string;
  opValue : option VirtualMachineSnapshotScheduleStatus
}.

(** One entry per interaction, in program order. *)
Inductive Action :=
| ANow (t : Time)
| AVMGetByKey (key : string)
| AVMList
| ASnapshotList
| AScheduleGetByKey (key : string)
| ACreate (ns : string) (s : VirtualMachineSnapshot) (resp : option error)
| ADelete (ns name : string) (resp : option error)
| APatch (ns name patchType payload : string) (resp : option error)
| AEvent (type reason message : string).

(** The answers of the collaborators during one pass.  The informer caches
    are fixed for the pass; the clock and the API server answer by position in
    the trace, so that equal requests may get different answers. *)
Record World := {
  clock : nat -> Time;
  vmStoreGetByKey : string -> GetResult;
  vmStoreList : list Obj;
  snapshotStoreList : list Obj;
  scheduleStoreGetByKey : string -> GetResult;
  createResponse : nat -> string -> VirtualMachineSnapshot -> option error;
  deleteResponse : nat -> string -> string -> option error;
  patchResponse : nat -> string -> string -> string -> option error
}.

(** ** A trace monad with panics *)

Inductive Outcome (A : Type) :=
| Ret (a : A)
| Panic.
Arguments Ret {A} a.
Arguments Panic {A}.

Definition M (A : Type) : Type := list Action -> Outcome A * list Action.

Definition ret {A} (a : A) : M A := fun log => (Ret a, log).

Definition bind {A B} (m : M A) (k : A -> M B) : M B :=
  fun log =>
    match m log with
    | (Ret a, log') => k a log'
    | (Panic, log') => (Panic, log')
    end.

Definition panic {A} : M A := fun log => (Panic, log).

Notation "'do' x <- m 'in' k" := (bind m (fun x => k))
  (at level 10, x name, m at level 100, k at level 200).
Notation "'do_' m 'in' k" := (bind m (fun _ => k))
  (at level 10, m at level 100, k at level 200).

(** ** Integer conversions of Go *)

Definition int32_wrap (z : Z) : Z := (z + 2 ^ 31) mod 2 ^ 32 - 2 ^ 31.
Definition int64_wrap (z : Z) : Z := (z + 2 ^ 63) mod 2 ^ 64 - 2 ^ 63.

(** ** [Time.Format] with the layout 20060102-150405 *)

(** Civil date of a day count since 1970-01-01 (proleptic Gregorian). *)
Definition civil_from_days (days : Z) : Z * Z * Z :=
  let z := days + 719468 in
  let era := z / 146097 in
  let doe := z - era * 146097 in
  let yoe := (doe - doe / 1460 + doe / 36524 - doe / 146096) / 365 in
  let doy := doe - (365 * yoe + yoe / 4 - yoe / 100) in
  let mp := (5 * doy + 2) / 153 in
  let d := doy - (153 * mp + 2) / 5 + 1 in
  let m := if mp <? 10 then mp + 3 else mp - 9 in
  let y := yoe + era * 400 + (if m <=? 2 then 1 else 0) in
  (y, m, d).

Definition decimal (n : Z) : string :=
  NilZero.string_of_uint (N.to_uint (Z.to_N n)).

Fixpoint zeros (n : nat) : string :=
  match n with
  | O => EmptyString
  | S k => String "0" (zeros k)
  end.

(** [appendInt] of package time: decimal, zero-padded to [width], with a sign
    for negative values. *)
Definition appendInt (x : Z) (width : nat) : string :=
  let digits := decimal (Z.abs x) in
  let padded := zeros (width - String.length digits) +:+ digits in
  if x <? 0 then "-" +:+ padded else padded.

Definition formatTimestamp (t : Time) : string :=
  let sec := t / Second in
  let days := sec / 86400 in
  let rem := sec mod 86400 in
  let '(y, m, d) := civil_from_days days in
  appendInt y 4 +:+ appendInt m 2 +:+ appendInt d 2 +:+ "-" +:+
  appendInt (rem / 3600) 2 +:+ appendInt (rem mod 3600 / 60) 2 +:+
  appendInt (rem mod 60) 2.

(** Insertion sort as in package sort ([insertionSortLessFunc]): the path
    [sort.Slice] takes for slices of at most 12 elements. *)
Section InsertionSort.
Context {A : Type} (less : A -> A -> bool).

(** The inner loop, run on the already sorted prefix kept in reverse:
    [x] moves left while it is less than its left neighbour. *)
Fixpoint sinkLeft (x : A) (revPrefix : list A) : list A :=
  match revPrefix with
  | [] => [x]
  | y :: rest => if less x y then y :: sinkLeft x rest else x :: y :: rest
  end.

Definition insertionSort (l : list A) : list A :=
  rev (fold_left (fun revPrefix x => sinkLeft x revPrefix) l []).
End InsertionSort.

Section Reconciler.

(** ** Code outside this package *)

(** apimachinery: [metav1.LabelSelectorAsSelector] and [Selector.Matches]. *)
Variable Selector : Type.
Variable LabelSelectorAsSelector : LabelSelector -> Selector + error.
Variable Matches : Selector -> gmap string string -> bool.

(** robfig/cron: the parser configured in [updateVMSnapshotSchedule] and the
    [Next] method of the schedule it returns. *)
Variable CronSchedule : Type.
Variable cronParse : string -> CronSchedule + error.
Variable cronNext : CronSchedule -> Time -> Time.

(** [sort.Slice], given the comparison. *)
Variable sortSlice :
  (VirtualMachineSnapshot -> VirtualMachineSnapshot -> bool) ->
  list VirtualMachineSnapshot -> list VirtualMachineSnapshot.

(** [patch.GeneratePatchPayload] of pkg/apimachinery/patch. *)
Variable GeneratePatchPayload : list PatchOperation -> string + error.

(** Constants declared elsewhere: the source-name label key of the snapshot
    controller and the group and version strings of the API packages. *)
Variable snapshotSourceNameLabel : string.
Variable kubevirtGroup : string.
Variable snapshotGroupVersion : string.

Variable w : World.

(** ** Primitive interactions *)

Definition emit (a : Action) : M unit := fun log => (Ret tt, log ++ [a]).

Definition Now : M Time :=
  fun log => let t := clock w (length log) in (Ret t, log ++ [ANow t]).

Definition Event (type reason message : string) : M unit :=
  emit (AEvent type reason message).

Definition VMStore_GetByKey (key : string) : M GetResult :=
  do_ emit (AVMGetByKey key) in ret (vmStoreGetByKey w key).

Definition VMStore_List : M (list Obj) :=
  do_ emit AVMList in ret (vmStoreList w).

Definition SnapshotStore_List : M (list Obj) :=
  do_ emit ASnapshotList in ret (snapshotStoreList w).

Definition ScheduleStore_GetByKey (key : string) : M GetResult :=
  do_ emit (AScheduleGetByKey key) in ret (scheduleStoreGetByKey w key).

Definition Client_Create (ns : string) (s : VirtualMachineSnapshot) : M (option error) :=
  fun log =>
    let r := createResponse w (length log) ns s in
    (Ret r, log ++ [ACreate ns s r]).

Definition Client_Delete (ns name : string) : M (option error) :=
  fun log =>
    let r := deleteResponse w (length log) ns name in
    (Ret r, log ++ [ADelete ns name r]).

Definition Client_Patch (ns name patchType payload : string) : M (option error) :=
  fun log =>
    let r := patchResponse w (length log) ns name payload in
    (Ret r, log ++ [APatch ns name patchType payload r]).

(** ** statusEqual and updateScheduleStatus *)

Definition statusEqual (a b : option VirtualMachineSnapshotScheduleStatus) : bool :=
  match a, b with
  | None, None => true
  | None, Some _ | Some _, None => false
  | Some a, Some b =>
    if negb (String.eqb (stPhase a) (stPhase b)) then false
    else if negb (stCurrentSnapshotCount a =? stCurrentSnapshotCount b) then false
    else if negb (String.eqb (stLastSuccessfulSnapshotName a)
                             (stLastSuccessfulSnapshotName b)) then false
    else if negb (Bool.eqb (bool_decide (stLastSnapshotTime a = None))
                           (bool_decide (stLastSnapshotTime b = None))) then false
    else if bool_decide (stLastSnapshotTime a <> None)
            && negb (metaTime_Equal (stLastSnapshotTime a) (stLastSnapshotTime b)) then false
    else if negb (Bool.eqb (bool_decide (stNextSnapshotTime a = None))
                           (bool_decide (stNextSnapshotTime b = None))) then false
    else if bool_decide (stNextSnapshotTime a <> None)
            && negb (metaTime_Equal (stNextSnapshotTime a) (stNextSnapshotTime b)) then false
    else true
  end.

(** Modelled from the spec: [patch.PatchReplaceOp] of pkg/apimachinery/patch,
    the JSON-patch operation the spec calls replace. *)
Definition PatchReplaceOp : string := "replace".

Definition updateScheduleStatus (schedule : VirtualMachineSnapshotSchedule)
    : M (option error) :=
  let key := schedNamespace schedule +:+ "/" +:+ schedName schedule in
  do r <- ScheduleStore_GetByKey key in
  match r with
  | GetError e => ret (Some e)
  | GetAbsent => ret None
  | GetItem (ObjSchedule current) =>
    if statusEqual (schedStatus current) (schedStatus schedule) then ret None
    else
      match GeneratePatchPayload
              [ {| opOp := PatchReplaceOp; opPath := "/status";
                   opValue := schedStatus schedule |} ] with
      | inr e => ret (Some e)
      | inl patchBytes =>
        Client_Patch (schedNamespace schedule) (schedName schedule)
                     "application/json-patch+json" patchBytes
      end
  | GetItem _ => ret (Some (Errorf "unexpected object type"))
  end.

(** ** Status transitions *)

(** What [updateVMSnapshotSchedule] hands back: its two results, and the
    schedule object it was given, as mutated by the pass. *)
Record Result := {
  resSchedule : VirtualMachineSnapshotSchedule;
  resRequeueAfter : Duration;
  resErr : option error
}.

Definition updateScheduleStatusError (schedule : VirtualMachineSnapshotSchedule)
    (err : error) : M Result :=
  match schedStatus schedule with
  | None => panic
  | Some st =>
    let st := setPhase SchedulePhaseFailed st in
    do now <- Now in
    let errMsg := errMsg err in
    let st := setError (Some {| errorTime := Some now; errorMessage := Some errMsg |}) st in
    let schedule := setStatus st schedule in
    do updateErr <- updateScheduleStatus schedule in
    match updateErr with
    | Some updateErr =>
      ret {| resSchedule := schedule; resRequeueAfter := 0; resErr := Some updateErr |}
    | None =>
      do_ Event EventTypeWarning scheduleFailedEvent ("Schedule failed: " +:+ errMsg) in
      ret {| resSchedule := schedule; resRequeueAfter := 0; resErr := Some err |}
    end
  end.

Definition updateScheduleStatusPaused (schedule : VirtualMachineSnapshotSchedule)
    : M Result :=
  match schedStatus schedule with
  | None => panic
  | Some st =>
    let st := setPhase SchedulePhasePaused st in
    let st := setError None st in
    let schedule := setStatus st schedule in
    do err <- updateScheduleStatus schedule in
    match err with
    | Some err => ret {| resSchedule := schedule; resRequeueAfter := 0; resErr := Some err |}
    | None => ret {| resSchedule := schedule; resRequeueAfter := 0; resErr := None |}
    end
  end.

(** ** Selecting snapshots by label *)

(** A Go map read: the zero value for a missing key. *)
Definition mapIndex (m : gmap string string) (k : string) : string :=
  default EmptyString (m !! k).

Fixpoint countSnapshots (schedule : VirtualMachineSnapshotSchedule)
    (objs : list Obj) (count : Z) : Z :=
  match objs with
  | [] => count
  | ObjSnapshot snapshot :: rest =>
    if negb (String.eqb (snapNamespace snapshot) (schedNamespace schedule))
    then countSnapshots schedule rest count
    else match snapLabels snapshot with
    | None => countSnapshots schedule rest count
    | Some labels =>
      if String.eqb (mapIndex labels scheduleNameLabel) (schedName schedule)
      then countSnapshots schedule rest (int32_wrap (count + 1))
      else countSnapshots schedule rest count
    end
  | _ :: rest => countSnapshots schedule rest count
  end.

Definition countSnapshotsForSchedule (schedule : VirtualMachineSnapshotSchedule)
    : M (Z * option error) :=
  do objs <- SnapshotStore_List in
  ret (countSnapshots schedule objs 0, None).

Fixpoint scheduledSnapshotsForVM (schedule : VirtualMachineSnapshotSchedule)
    (vm : VirtualMachine) (objs : list Obj) : list VirtualMachineSnapshot :=
  match objs with
  | [] => []
  | ObjSnapshot snapshot :: rest =>
    if negb (String.eqb (snapNamespace snapshot) (schedNamespace schedule))
    then scheduledSnapshotsForVM schedule vm rest
    else match snapLabels snapshot with
    | None => scheduledSnapshotsForVM schedule vm rest
    | Some labels =>
      if negb (String.eqb (mapIndex labels scheduleNameLabel) (schedName schedule))
      then scheduledSnapshotsForVM schedule vm rest
      else if negb (String.eqb (mapIndex labels snapshotSourceNameLabel) (vmName vm))
      then scheduledSnapshotsForVM schedule vm rest
      else snapshot :: scheduledSnapshotsForVM schedule vm rest
    end
  | _ :: rest => scheduledSnapshotsForVM schedule vm rest
  end.

Definition getScheduledSnapshotsForVM (schedule : VirtualMachineSnapshotSchedule)
    (vm : VirtualMachine) : M (list VirtualMachineSnapshot * option error) :=
  do objs <- SnapshotStore_List in
  ret (scheduledSnapshotsForVM schedule vm objs, None).

Definition updateScheduleStatusActive (schedule : VirtualMachineSnapshotSchedule)
    (cronSchedule : CronSchedule) : M Result :=
  match schedStatus schedule with
  | None => panic
  | Some st =>
    let st := setPhase SchedulePhaseActive st in
    let st := setError None st in
    do fromTime <- match stLastSnapshotTime st with
                   | Some t => ret t
                   | None => Now
                   end in
    let nextRun := cronNext cronSchedule fromTime in
    let st := setNextSnapshotTime (Some nextRun) st in
    do cnt <- countSnapshotsForSchedule (setStatus st schedule) in
    let st := setCurrentSnapshotCount (fst cnt) st in
    let schedule := setStatus st schedule in
    do err <- updateScheduleStatus schedule in
    match err with
    | Some err => ret {| resSchedule := schedule; resRequeueAfter := 0; resErr := Some err |}
    | None =>
      do now <- Now in
      let requeueAfter := int64_wrap (time_Sub nextRun now + Second) in
      let requeueAfter := if requeueAfter <? Second then Second else requeueAfter in
      ret {| resSchedule := schedule; resRequeueAfter := requeueAfter; resErr := None |}
    end
  end.

(** ** Resolving the target VMs *)

(** [labels.Set(vm.Labels)]: a nil map is the empty set of labels. *)
Definition labelsSet (m : option (gmap string string)) : gmap string string :=
  default ∅ m.

Fixpoint matchingVMs (schedule : VirtualMachineSnapshotSchedule)
    (selector : Selector) (objs : list Obj) : list VirtualMachine :=
  match objs with
  | [] => []
  | ObjVM vm :: rest =>
    if negb (String.eqb (vmNamespace vm) (schedNamespace schedule))
    then matchingVMs schedule selector rest
    else if Matches selector (labelsSet (vmLabels vm))
    then vm :: matchingVMs schedule selector rest
    else matchingVMs schedule selector rest
  | _ :: rest => matchingVMs schedule selector rest
  end.

Definition getVMsToSnapshot (schedule : VirtualMachineSnapshotSchedule)
    : M (list VirtualMachine + error) :=
  match spSource (schedSpec schedule) with
  | Some source =>
    if negb (String.eqb (refKind source) "VirtualMachine")
    then ret (inr (Errorf ("source kind must be VirtualMachine, got " +:+ refKind source)))
    else
      let key := schedNamespace schedule +:+ "/" +:+ refName source in
      do r <- VMStore_GetByKey key in
      match r with
      | GetError err => ret (inr err)
      | GetAbsent => ret (inr (Errorf ("VirtualMachine " +:+ key +:+ " not found")))
      | GetItem (ObjVM vm) => ret (inl [vm])
      | GetItem obj => ret (inr (Errorf ("unexpected object type: " +:+ typeName obj)))
      end
  | None =>
    match spVMSelector (schedSpec schedule) with
    | Some vmSelector =>
      match LabelSelectorAsSelector vmSelector with
      | inr err => ret (inr (Errorf ("invalid vmSelector: " +:+ errMsg err)))
      | inl selector =>
        do objs <- VMStore_List in
        ret (inl (matchingVMs schedule selector objs))
      end
    | None => ret (inr (Errorf "either source or vmSelector must be specified"))
    end
  end.

(** ** Creating snapshots *)

(** [for k, v := range src { dst[k] = v }] *)
Definition copyInto (src dst : gmap string string) : gmap string string :=
  map_fold (fun k v acc => <[k := v]> acc) dst src.

(** The object [createSnapshotForVM] builds, given the instant its call of
    [time.Now] returned. *)
Definition buildSnapshot (schedule : VirtualMachineSnapshotSchedule)
    (vm : VirtualMachine) (now : Time) : VirtualMachineSnapshot :=
  let timestamp := formatTimestamp now in
  let snapshotName := schedName schedule +:+ "-" +:+ vmName vm +:+ "-" +:+ timestamp in
  let snapshotLabels : gmap string string :=
    <[snapshotSourceNameLabel := vmName vm]>
      (<[scheduledSnapshotLabel := "true"]>
        (<[scheduleNamespaceLabel := schedNamespace schedule]>
          (<[scheduleNameLabel := schedName schedule]> ∅))) in
  let snapshotLabels :=
    match spSnapshotTemplate (schedSpec schedule) with
    | Some template =>
      match tmplLabels template with
      | Some labels => copyInto labels snapshotLabels
      | None => snapshotLabels
      end
    | None => snapshotLabels
    end in
  let snapshotAnnotations :=
    match spSnapshotTemplate (schedSpec schedule) with
    | Some template =>
      match tmplAnnotations template with
      | Some annotations => Some (copyInto annotations ∅)
      | None => None
      end
    | None => None
    end in
  let deletionPolicy :=
    match spSnapshotTemplate (schedSpec schedule) with
    | Some template =>
      match tmplDeletionPolicy template with
      | Some p => Some p
      | None => None
      end
    | None => None
    end in
  let failureDeadline :=
    match spSnapshotTemplate (schedSpec schedule) with
    | Some template =>
      match tmplFailureDeadline template with
      | Some d => Some d
      | None => None
      end
    | None => None
    end in
  {| snapName := snapshotName;
     snapNamespace := schedNamespace schedule;
     snapLabels := Some snapshotLabels;
     snapAnnotations := snapshotAnnotations;
     snapOwnerReferences :=
       [ {| orAPIVersion := snapshotGroupVersion;
            orKind := "VirtualMachineSnapshotSchedule";
            orName := schedName schedule;
            orUID := schedUID schedule;
            orController := Some true |} ];
     snapCreationTimestamp := zeroTime;
     snapSpec :=
       {| specSource := {| refAPIGroup := Some kubevirtGroup;
                           refKind := "VirtualMachine";
                           refName := vmName vm |};
          specDeletionPolicy := deletionPolicy;
          specFailureDeadline := failureDeadline |} |}.

Definition createSnapshotForVM (schedule : VirtualMachineSnapshotSchedule)
    (vm : VirtualMachine) : M (option error) :=
  do now <- Now in
  let snapshot := buildSnapshot schedule vm now in
  do err <- Client_Create (schedNamespace schedule) snapshot in
  match err with
  | Some err =>
    if IsAlreadyExists err then ret None else ret (Some err)
  | None =>
    do_ Event EventTypeNormal scheduleCreateSnapshotEvent
          ("Created snapshot " +:+ snapName snapshot +:+ " for VM " +:+ vmName vm) in
    ret None
  end.

(** The loop of [createScheduledSnapshots], with its accumulator. *)
Fixpoint createSnapshotsLoop (schedule : VirtualMachineSnapshotSchedule)
    (vms : list VirtualMachine) (errs : list string) : M (list string) :=
  match vms with
  | [] => ret errs
  | vm :: rest =>
    do err <- createSnapshotForVM schedule vm in
    match err with
    | Some err =>
      createSnapshotsLoop schedule rest
        (errs ++ ["VM " +:+ vmName vm +:+ ": " +:+ errMsg err])
    | None => createSnapshotsLoop schedule rest errs
    end
  end.

Definition createScheduledSnapshots (schedule : VirtualMachineSnapshotSchedule)
    (vms : list VirtualMachine) : M (option error) :=
  do errs <- createSnapshotsLoop schedule vms [] in
  if (0 <? length errs)%nat
  then ret (Some (Errorf ("failed to create snapshots: " +:+ String.concat "; " errs)))
  else ret None.

(** ** Retention *)

(** The comparison handed to [sort.Slice]. *)
Definition creationBefore (a b : VirtualMachineSnapshot) : bool :=
  time_Before (snapCreationTimestamp a) (snapCreationTimestamp b).

(** The inner loops over [snapshotsToDelete]: is there an entry of that name? *)
Definition nameFound (s : VirtualMachineSnapshot)
    (snapshotsToDelete : list VirtualMachineSnapshot) : bool :=
  existsb (fun d => String.eqb (snapName s) (snapName d)) snapshotsToDelete.

Definition expired (now : Time) (expireDuration : Duration)
    (snapshot : VirtualMachineSnapshot) : bool :=
  let age := time_Sub now (snapCreationTimestamp snapshot) in
  expireDuration <? age.

Definition appendNotFound (toDelete snapshotsToDelete : list VirtualMachineSnapshot)
    : list VirtualMachineSnapshot :=
  fold_left (fun acc s => if nameFound s acc then acc else acc ++ [s])
            toDelete snapshotsToDelete.

(** The list [snapshotsToDelete] that [applyRetentionForVM] computes from the
    sorted snapshots.  [None] is a run-time panic: with a negative [maxCount]
    the slice expression reaches past [len(remaining)], and the program stops
    on the bounds check or on the nil entry it then reads, before any delete
    request. *)
Definition snapshotsToDelete (retention : VirtualMachineSnapshotScheduleRetention)
    (now : Time) (snapshots : list VirtualMachineSnapshot)
    : option (list VirtualMachineSnapshot) :=
  let snapshotsToDelete :=
    match retExpires retention with
    | Some expireDuration => List.filter (expired now expireDuration) snapshots
    | None => []
    end in
  match retMaxCount retention with
  | Some maxCount =>
    let remaining :=
      List.filter (fun s => negb (nameFound s snapshotsToDelete)) snapshots in
    if maxCount <? Z.of_nat (length remaining) then
      if maxCount <? 0 then None
      else
        let toDelete := firstn (length remaining - Z.to_nat maxCount) remaining in
        Some (appendNotFound toDelete snapshotsToDelete)
    else Some snapshotsToDelete
  | None => Some snapshotsToDelete
  end.

Fixpoint deleteSnapshots (snapshotsToDelete : list VirtualMachineSnapshot) : M unit :=
  match snapshotsToDelete with
  | [] => ret tt
  | snapshot :: rest =>
    do err <- Client_Delete (snapNamespace snapshot) (snapName snapshot) in
    do_ match err with
        | Some err =>
          if negb (IsNotFound err) then ret tt
          else Event EventTypeNormal scheduleDeleteSnapshotEvent
                 ("Deleted snapshot " +:+ snapName snapshot +:+ " due to retention policy")
        | None =>
          Event EventTypeNormal scheduleDeleteSnapshotEvent
            ("Deleted snapshot " +:+ snapName snapshot +:+ " due to retention policy")
        end in
    deleteSnapshots rest
  end.

Definition applyRetentionForVM (schedule : VirtualMachineSnapshotSchedule)
    (vm : VirtualMachine) : M (option error) :=
  do r <- getScheduledSnapshotsForVM schedule vm in
  match snd r with
  | Some err => ret (Some err)
  | None =>
    let snapshots := fst r in
    if (length snapshots =? 0)%nat then ret None
    else
      let snapshots := sortSlice creationBefore snapshots in
      do now <- Now in
      match spRetention (schedSpec schedule) with
      | None => panic
      | Some retention =>
        match snapshotsToDelete retention now snapshots with
        | None => panic
        | Some toDelete =>
          do_ deleteSnapshots toDelete in
          ret None
        end
      end
  end.

Fixpoint applyRetentionLoop (schedule : VirtualMachineSnapshotSchedule)
    (vms : list VirtualMachine) : M unit :=
  match vms with
  | [] => ret tt
  | vm :: rest =>
    do _err <- applyRetentionForVM schedule vm in
    applyRetentionLoop schedule rest
  end.

Definition applyRetentionPolicy (schedule : VirtualMachineSnapshotSchedule)
    (vms : list VirtualMachine) : M (option error) :=
  match spRetention (schedSpec schedule) with
  | None => ret None
  | Some _ =>
    do_ applyRetentionLoop schedule vms in
    ret None
  end.

(** ** The reconciler *)

Definition isPausePolicy (p : option string) : bool :=
  match p with
  | Some p => String.eqb p ScheduleFailurePolicyPause
  | None => false
  end.

Definition updateVMSnapshotSchedule (schedule : VirtualMachineSnapshotSchedule)
    : M Result :=
  let status := default emptyStatus (schedStatus schedule) in
  let schedule := setStatus status schedule in
  match cronParse (spSchedule (schedSpec schedule)) with
  | inr err =>
    updateScheduleStatusError schedule
      (Errorf ("invalid cron expression: " +:+ errMsg err))
  | inl cronSchedule =>
    if spDisabled (schedSpec schedule) then updateScheduleStatusPaused schedule
    else
      do r <- getVMsToSnapshot schedule in
      match r with
      | inr err => updateScheduleStatusError schedule err
      | inl vms =>
        if (length vms =? 0)%nat then
          do_ Event EventTypeWarning scheduleNoVMsMatchedEvent
                "No VirtualMachines matched the selector" in
          updateScheduleStatusActive schedule cronSchedule
        else
          do now <- Now in
          let nextRun :=
            match stLastSnapshotTime status with
            | Some last => cronNext cronSchedule last
            | None => cronNext cronSchedule (time_Add now (- Second))
            end in
          if time_After now nextRun || time_Equal now nextRun then
            do err <- createScheduledSnapshots schedule vms in
            match err with
            | Some err =>
              if isPausePolicy (spFailurePolicy (schedSpec schedule))
              then updateScheduleStatusError schedule err
              else
                do_ Event EventTypeWarning scheduleFailedEvent
                      ("Failed to create snapshot: " +:+ errMsg err) in
                let schedule :=
                  setStatus (setLastSnapshotTime (Some now) status) schedule in
                do_ applyRetentionPolicy schedule vms in
                updateScheduleStatusActive schedule cronSchedule
            | None =>
              let schedule :=
                setStatus (setLastSnapshotTime (Some now) status) schedule in
              do_ applyRetentionPolicy schedule vms in
              updateScheduleStatusActive schedule cronSchedule
            end
          else
            do_ applyRetentionPolicy schedule vms in
            updateScheduleStatusActive schedule cronSchedule
      end
  end.

End Reconciler.

(** * A concrete environment

    Small stand-ins for the libraries, to run the reconciler on examples. *)
Module Demo.

(** A cron parser that knows one expression, every minute. *)
Definition cronParse (expr : string) : unit + error :=
  if String.eqb expr "* * * * *" then inl tt
  else inr (Errorf ("expected exactly 5 fields, found: " +:+ expr)).

Definition cronNext (_ : unit) (t : Z) : Z := (t / Minute + 1) * Minute.

(** Selectors that only have [matchLabels]. *)
Definition LabelSelectorAsSelector (sel : LabelSelector)
    : gmap string string + error :=
  match selMatchExpressions sel with
  | [] => inl (default ∅ (selMatchLabels sel))
  | _ => inr (Errorf "unsupported operator")
  end.

Definition Matches (sel labels : gmap string string) : bool :=
  bool_decide (sel ⊆ labels).

Definition GeneratePatchPayload (ops : list PatchOperation) : string + error :=
  match ops with
  | [op] => inl ("[{op:" +:+ opOp op +:+ ",path:" +:+ opPath op +:+ "}]")
  | _ => inr (Errorf "unsupported")
  end.

Definition snapshotSourceNameLabel : string := "snapshot.kubevirt.io/source-name".
Definition kubevirtGroup : string := "kubevirt.io".
Definition snapshotGroupVersion : string := "snapshot.kubevirt.io/v1beta1".

Definition vmA : VirtualMachine :=
  {| vmName := "vmA"; vmNamespace := "default"; vmLabels := None |}.

Definition spec (expr : string) : VirtualMachineSnapshotScheduleSpec :=
  {| spSource := Some {| refAPIGroup := None; refKind := "VirtualMachine";
                         refName := "vmA" |};
     spVMSelector := None;
     spSchedule := expr;
     spDisabled := false;
     spRetention := None;
     spSnapshotTemplate := None;
     spFailurePolicy := None |}.

Definition s1 : VirtualMachineSnapshotSchedule :=
  {| schedName := "s1"; schedNamespace := "default"; schedUID := "uid-1";
     schedSpec := spec "* * * * *"; schedStatus := None |}.

(** 2024-01-01T00:00:30Z *)
Definition T0 : Z := 1704067230 * Second.

(** The store knows [vmA] and the schedule as given; every API call
    succeeds; the clock stands still at [T0]. *)
Definition world (stored : VirtualMachineSnapshotSchedule)
    (snapshots : list Obj) : World :=
  {| clock := fun _ => T0;
     vmStoreGetByKey := fun key =>
       if String.eqb key "default/vmA" then GetItem (ObjVM vmA) else GetAbsent;
     vmStoreList := [ObjVM vmA];
     snapshotStoreList := snapshots;
     scheduleStoreGetByKey := fun key =>
       if String.eqb key (schedNamespace stored +:+ "/" +:+ schedName stored)
       then GetItem (ObjSchedule stored) else GetAbsent;
     createResponse := fun _ _ _ => None;
     deleteResponse := fun _ _ _ => None;
     patchResponse := fun _ _ _ _ => None |}.

Definition reconcile (w : World) (schedule : VirtualMachineSnapshotSchedule) :=
  updateVMSnapshotSchedule _ LabelSelectorAsSelector Matches _ cronParse cronNext
    (@insertionSort _) GeneratePatchPayload snapshotSourceNameLabel
    kubevirtGroup snapshotGroupVersion w schedule [].

Definition updateScheduleStatus (w : World)
    (schedule : VirtualMachineSnapshotSchedule) :=
  updateScheduleStatus GeneratePatchPayload w schedule [].

Definition withStatus (st : VirtualMachineSnapshotScheduleStatus)
    (schedule : VirtualMachineSnapshotSchedule) := setStatus st schedule.

(** An active status, and the same with a per-VM entry added. *)
Definition activeStatus : VirtualMachineSnapshotScheduleStatus :=
  {| stPhase := SchedulePhaseActive;
     stLastSnapshotTime := Some T0;
     stNextSnapshotTime := Some (T0 + 30 * Second);
     stLastSuccessfulSnapshotName := EmptyString;
     stCurrentSnapshotCount := 1;
     stError := None;
     stConditions := [];
     stVMSnapshotStatuses := [] |}.

Definition activeStatusPerVM : VirtualMachineSnapshotScheduleStatus :=
  {| stPhase := SchedulePhaseActive;
     stLastSnapshotTime := Some T0;
     stNextSnapshotTime := Some (T0 + 30 * Second);
     stLastSuccessfulSnapshotName := EmptyString;
     stCurrentSnapshotCount := 1;
     stError := None;
     stConditions := [];
     stVMSnapshotStatuses :=
       [ {| vssVMName := "vmA"; vssLastSnapshotName := "s1-vmA-20240101-000030";
            vssLastSnapshotTime := Some T0; vssCurrentSnapshotCount := 1;
            vssError := None |} ] |}.

(** The same world, but the API server rejects every status patch. *)
Definition conflict : error :=
  {| errReason := ReasonConflict; errMsg := "the object has been modified" |}.

Definition worldPatchFails (stored : VirtualMachineSnapshotSchedule) : World :=
  {| clock := clock (world stored []);
     vmStoreGetByKey := vmStoreGetByKey (world stored []);
     vmStoreList := vmStoreList (world stored []);
     snapshotStoreList := [];
     scheduleStoreGetByKey := scheduleStoreGetByKey (world stored []);
     createResponse := fun _ _ _ => None;
     deleteResponse := fun _ _ _ => None;
     patchResponse := fun _ _ _ _ => Some conflict |}.

Definition withSpec (sp : VirtualMachineSnapshotScheduleSpec)
    (schedule : VirtualMachineSnapshotSchedule) :=
  {| schedName := schedName schedule;
     schedNamespace := schedNamespace schedule;
     schedUID := schedUID schedule;
     schedSpec := sp;
     schedStatus := schedStatus schedule |}.

Definition disabledSpec : VirtualMachineSnapshotScheduleSpec :=
  {| spSource := spSource (spec "* * * * *");
     spVMSelector := None;
     spSchedule := "* * * * *";
     spDisabled := true;
     spRetention := None;
     spSnapshotTemplate := None;
     spFailurePolicy := None |}.

(** Scenario 7 and scenario 8 of the specification. *)
Definition s6 : VirtualMachineSnapshotSchedule := withSpec disabledSpec s1.
Definition s7 : VirtualMachineSnapshotSchedule := withSpec (spec "not a cron") s1.

(** The API server answers every create with the given error. *)
Definition worldCreateFails (stored : VirtualMachineSnapshotSchedule)
    (err : error) : World :=
  {| clock := clock (world stored []);
     vmStoreGetByKey := vmStoreGetByKey (world stored []);
     vmStoreList := vmStoreList (world stored []);
     snapshotStoreList := [];
     scheduleStoreGetByKey := scheduleStoreGetByKey (world stored []);
     createResponse := fun _ _ _ => Some err;
     deleteResponse := fun _ _ _ => None;
     patchResponse := fun _ _ _ _ => None |}.

Definition alreadyExists : error :=
  {| errReason := ReasonAlreadyExists;
     errMsg := "virtualmachinesnapshots s1-vmA-20240101-000030 already exists" |}.

Definition internalError : error :=
  {| errReason := ReasonInternalError; errMsg := "Internal error occurred: 500" |}.

Definition buildSnapshot :=
  buildSnapshot snapshotSourceNameLabel kubevirtGroup snapshotGroupVersion.

Definition createSnapshotForVM (w : World) :=
  createSnapshotForVM snapshotSourceNameLabel kubevirtGroup snapshotGroupVersion w.

Definition createScheduledSnapshots (w : World) :=
  createScheduledSnapshots snapshotSourceNameLabel kubevirtGroup
    snapshotGroupVersion w.

(** A template whose labels reuse the key of the schedule-name label. *)
Definition overridingSpec : VirtualMachineSnapshotScheduleSpec :=
  {| spSource := spSource (spec "* * * * *");
     spVMSelector := None;
     spSchedule := "* * * * *";
     spDisabled := false;
     spRetention := None;
     spSnapshotTemplate :=
       Some {| tmplLabels := Some {[ scheduleNameLabel := "other" ]};
               tmplAnnotations := None;
               tmplDeletionPolicy := None;
               tmplFailureDeadline := Some (10 * Minute) |};
     spFailurePolicy := None |}.

Definition s8 : VirtualMachineSnapshotSchedule := withSpec overridingSpec s1.

(** A snapshot made by hand: it carries the two labels retention looks at,
    but neither the scheduled label nor an owner reference. *)
Definition handMade : VirtualMachineSnapshot :=
  {| snapName := "by-hand";
     snapNamespace := "default";
     snapLabels := Some {[ scheduleNameLabel := "s1";
                           snapshotSourceNameLabel := "vmA" ]};
     snapAnnotations := None;
     snapOwnerReferences := [];
     snapCreationTimestamp := T0;
     snapSpec := {| specSource := {| refAPIGroup := None; refKind := "VirtualMachine";
                                     refName := "vmA" |};
                    specDeletionPolicy := None;
                    specFailureDeadline := None |} |}.

(** Snapshots of vmA made by schedule s1, by name and creation time. *)
Definition snap (name : string) (created : Z) : VirtualMachineSnapshot :=
  {| snapName := name;
     snapNamespace := "default";
     snapLabels := Some {[ scheduleNameLabel := "s1";
                           scheduleNamespaceLabel := "default";
                           scheduledSnapshotLabel := "true";
                           snapshotSourceNameLabel := "vmA" ]};
     snapAnnotations := None;
     snapOwnerReferences := [];
     snapCreationTimestamp := created;
     snapSpec := {| specSource := {| refAPIGroup := None; refKind := "VirtualMachine";
                                     refName := "vmA" |};
                    specDeletionPolicy := None;
                    specFailureDeadline := None |} |}.

Definition retentionSpec (retention : VirtualMachineSnapshotScheduleRetention)
    : VirtualMachineSnapshotScheduleSpec :=
  {| spSource := spSource (spec "* * * * *");
     spVMSelector := None;
     spSchedule := "* * * * *";
     spDisabled := false;
     spRetention := Some retention;
     spSnapshotTemplate := None;
     spFailurePolicy := None |}.

Definition keepTwo : VirtualMachineSnapshotScheduleRetention :=
  {| retExpires := None; retMaxCount := Some 2 |}.

Definition keepOne : VirtualMachineSnapshotScheduleRetention :=
  {| retExpires := None; retMaxCount := Some 1 |}.

(** Scenario 4: five snapshots, one per hour before [T0], listed by the
    store in no particular order. *)
Definition s3 : VirtualMachineSnapshotSchedule := withSpec (retentionSpec keepTwo) s1.

Definition Hour : Z := 60 * Minute.

Definition fiveSnapshots : list Obj :=
  [ ObjSnapshot (snap "t3" (T0 - 3 * Hour));
    ObjSnapshot (snap "t5" (T0 - 1 * Hour));
    ObjVM vmA;
    ObjSnapshot (snap "t1" (T0 - 5 * Hour));
    ObjSnapshot (snap "t4" (T0 - 2 * Hour));
    ObjSnapshot (snap "t2" (T0 - 4 * Hour)) ].

Definition applyRetentionForVM (w : World) :=
  applyRetentionForVM (@insertionSort _) snapshotSourceNameLabel w.

(** Scenario 5: snapshots aged 30, 90 and 120 minutes, kept for one hour. *)
Definition keepOneHour : VirtualMachineSnapshotScheduleRetention :=
  {| retExpires := Some Hour; retMaxCount := None |}.

Definition s4 : VirtualMachineSnapshotSchedule :=
  withSpec (retentionSpec keepOneHour) s1.

Definition threeSnapshots : list Obj :=
  [ ObjSnapshot (snap "aged-90m" (T0 - 90 * Minute));
    ObjSnapshot (snap "aged-30m" (T0 - 30 * Minute));
    ObjSnapshot (snap "aged-120m" (T0 - 120 * Minute)) ].

(** Two snapshots created at the same instant. *)
Definition tieA : VirtualMachineSnapshot := snap "a" (T0 - Hour).
Definition tieB : VirtualMachineSnapshot := snap "b" (T0 - Hour).

(** A schedule that last fired an hour before [T0], with failure policy
    Pause. *)
Definition pauseOnFailureSpec : VirtualMachineSnapshotScheduleSpec :=
  {| spSource := spSource (spec "* * * * *");
     spVMSelector := None;
     spSchedule := "* * * * *";
     spDisabled := false;
     spRetention := None;
     spSnapshotTemplate := None;
     spFailurePolicy := Some ScheduleFailurePolicyPause |}.

Definition firedAnHourAgo : VirtualMachineSnapshotScheduleStatus :=
  setLastSnapshotTime (Some (T0 - Hour)) activeStatus.

Definition s5 : VirtualMachineSnapshotSchedule :=
  withStatus firedAnHourAgo (withSpec pauseOnFailureSpec s1).

(** The same schedule with the default failure policy. *)
Definition s2 : VirtualMachineSnapshotSchedule := withStatus firedAnHourAgo s1.

Definition getVMsToSnapshot (w : World) :=
  getVMsToSnapshot _ LabelSelectorAsSelector Matches w.

End Demo.

(** * The controller around the reconciler: schedule_base.go *)

(** What an event handler is handed: an object of the stream, or the
    tombstone [cache.DeletedFinalStateUnknown], whose [Obj] may be nil. *)
Inductive HandlerArg :=
| Direct (o : Obj)
| DeletedFinalStateUnknown (key : string) (obj : option Obj).

Section Controller.

(** client-go: [cache.MetaNamespaceKeyFunc], on a schedule. *)
Variable MetaNamespaceKeyFunc : VirtualMachineSnapshotSchedule -> string + error.

(** The first statement of both handlers: a tombstone that carries an object
    is replaced by that object. *)
Definition unwrapTombstone (arg : HandlerArg) : HandlerArg :=
  match arg with
  | DeletedFinalStateUnknown _ (Some o) => Direct o
  | _ => arg
  end.

(** [handleVMSnapshotSchedule]: the keys it adds to the schedule queue. *)
Definition handleVMSnapshotSchedule (obj : HandlerArg) : list string :=
  match unwrapTombstone obj with
  | Direct (ObjSchedule schedule) =>
    match MetaNamespaceKeyFunc schedule with
    | inr _ => []
    | inl key => [key]
    end
  | _ => []
  end.

(** [handleVMSnapshotForSchedule]: the keys it adds to the schedule queue. *)
Definition handleVMSnapshotForSchedule (obj : HandlerArg) : list string :=
  match unwrapTombstone obj with
  | Direct (ObjSnapshot snapshot) =>
    match snapLabels snapshot with
    | None => []
    | Some labels =>
      match labels !! scheduleNameLabel with
      | None => []
      | Some scheduleName => [snapNamespace snapshot +:+ "/" +:+ scheduleName]
      end
    end
  | _ => []
  end.

(** [EnqueueAll], given what the schedule store lists: the keys it adds to
    the schedule queue, in order. *)
Fixpoint EnqueueAll (objs : list Obj) : list string :=
  match objs with
  | [] => []
  | ObjSchedule schedule :: rest =>
    match MetaNamespaceKeyFunc schedule with
    | inr _ => EnqueueAll rest
    | inl key => key :: EnqueueAll rest
    end
  | _ :: rest => EnqueueAll rest
  end.

End Controller.

Section WorkItem.

Variable Selector : Type.
Variable LabelSelectorAsSelector : LabelSelector -> Selector + error.
Variable Matches : Selector -> gmap string string -> bool.
Variable CronSchedule : Type.
Variable cronParse : string -> CronSchedule + error.
Variable cronNext : CronSchedule -> Time -> Time.
Variable sortSlice :
  (VirtualMachineSnapshot -> VirtualMachineSnapshot -> bool) ->
  list VirtualMachineSnapshot -> list VirtualMachineSnapshot.
Variable GeneratePatchPayload : list PatchOperation -> string + error.
Variable snapshotSourceNameLabel kubevirtGroup snapshotGroupVersion : string.

(** [fmt]'s rendering of a stored object with the verb [%+v]. *)
Variable formatObj : Obj -> string.

Variable w : World.

(** The function [processScheduleWorkItem] hands to
    [watchutil.ProcessWorkItem]: what is done for one key of the queue. *)
Definition processScheduleKey (key : string) : M (Duration * option error) :=
  do r <- ScheduleStore_GetByKey w key in
  match r with
  | GetError err => ret (0, Some err)
  | GetAbsent => ret (0, None)
  | GetItem (ObjSchedule schedule) =>
    do res <- updateVMSnapshotSchedule Selector LabelSelectorAsSelector Matches
                CronSchedule cronParse cronNext sortSlice GeneratePatchPayload
                snapshotSourceNameLabel kubevirtGroup snapshotGroupVersion w
                schedule in
    ret (resRequeueAfter res, resErr res)
  | GetItem storeObj =>
    ret (0, Some (Errorf ("unexpected resource " +:+ formatObj storeObj)))
  end.

End WorkItem.

(** * The launcher configuration: package env_config *)

Record VirtLauncherConfig := {
  LogVerbosity : string;
  LibvirtDebugLogs : bool;
  VirtiofsdDebugLogs : bool;
  SharedFilesystemPaths : string;
  StandaloneVMI : string;
  TargetPodExitSignal : string;
  PodName : string
}.

(** [os.LookupEnv] on an environment given as a map: the value and whether
    the variable is present. *)
Definition LookupEnv (env : gmap string string) (name : string) : option string :=
  env !! name.

(** A string field that is assigned only when the variable is present. *)
Definition envString (env : gmap string string) (name : string) : string :=
  match LookupEnv env name with
  | Some v => v
  | None => EmptyString
  end.

(** A flag that is set only when the variable is present and equal to 1. *)
Definition envFlag (env : gmap string string) (name : string) : bool :=
  match LookupEnv env name with
  | Some v => String.eqb v "1"
  | None => false
  end.

Definition ReadVirtLauncherConfig (env : gmap string string) : VirtLauncherConfig :=
  {| LogVerbosity := envString env "VIRT_LAUNCHER_LOG_VERBOSITY";
     LibvirtDebugLogs := envFlag env "LIBVIRT_DEBUG_LOGS";
     VirtiofsdDebugLogs := envFlag env "VIRTIOFSD_DEBUG_LOGS";
     SharedFilesystemPaths := envString env "SHARED_FILESYSTEM_PATHS";
     StandaloneVMI := envString env "STANDALONE_VMI";
     TargetPodExitSignal := envString env "VIRT_LAUNCHER_TARGET_POD_EXIT_SIGNAL";
     PodName := envString env "POD_NAME" |}.

(** The variables [ReadVirtLauncherConfig] looks up. *)
Definition launcherVariables : list string :=
  [ "VIRT_LAUNCHER_LOG_VERBOSITY"; "LIBVIRT_DEBUG_LOGS"; "VIRTIOFSD_DEBUG_LOGS";
    "SHARED_FILESYSTEM_PATHS"; "STANDALONE_VMI";
    "VIRT_LAUNCHER_TARGET_POD_EXIT_SIGNAL"; "POD_NAME" ].

(** What the specification says the status writer compares: the five scalar
    fields, and the per-VM sub-status list in depth. *)
Definition statusEqualAsSpecified
    (a b : option VirtualMachineSnapshotScheduleStatus) : Prop :=
  match a, b with
  | None, None => True
  | Some a, Some b =>
    stPhase a = stPhase b /\
    stCurrentSnapshotCount a = stCurrentSnapshotCount b /\
    stLastSuccessfulSnapshotName a = stLastSuccessfulSnapshotName b /\
    stLastSnapshotTime a = stLastSnapshotTime b /\
    stNextSnapshotTime a = stNextSnapshotTime b /\
    stVMSnapshotStatuses a = stVMSnapshotStatuses b
  | _, _ => False
  end.

(** What [statusEqual] compares. *)
Definition comparedFieldsAgree
    (a b : option VirtualMachineSnapshotScheduleStatus) : Prop :=
  match a, b with
  | None, None => True
  | Some a, Some b =>
    stPhase a = stPhase b /\
    stCurrentSnapshotCount a = stCurrentSnapshotCount b /\
    stLastSuccessfulSnapshotName a = stLastSuccessfulSnapshotName b /\
    stLastSnapshotTime a = stLastSnapshotTime b /\
    stNextSnapshotTime a = stNextSnapshotTime b
  | _, _ => False
  end.

(** The requests of each kind in a trace. *)
Definition isCreate (a : Action) : bool :=
  match a with ACreate _ _ _ => true | _ => false end.
Definition isDelete (a : Action) : bool :=
  match a with ADelete _ _ _ => true | _ => false end.
Definition isPatch (a : Action) : bool :=
  match a with APatch _ _ _ _ _ => true | _ => false end.
Definition isVMLookup (a : Action) : bool :=
  match a with AVMGetByKey _ | AVMList => true | _ => false end.
Definition isEventWithReason (reason : string) (a : Action) : bool :=
  match a with AEvent _ r _ => String.eqb r reason | _ => false end.

(** The interactions of the status writer. *)
Definition isStatusWrite (a : Action) : bool :=
  match a with APatch _ _ _ _ _ | AScheduleGetByKey _ => true | _ => false end.

Definition isEvent (a : Action) : bool :=
  match a with AEvent _ _ _ => true | _ => false end.

(** The schedule after the assignments of [updateScheduleStatusPaused]. *)
Definition pausedSchedule (schedule : VirtualMachineSnapshotSchedule) :=
  setStatus (setError None (setPhase SchedulePhasePaused
               (default emptyStatus (schedStatus schedule)))) schedule.

(** The schedule after the assignments of [updateScheduleStatusError]. *)
Definition failedSchedule (schedule : VirtualMachineSnapshotSchedule)
    (now : Z) (message : string) :=
  setStatus (setError (Some {| errorTime := Some now; errorMessage := Some message |})
               (setPhase SchedulePhaseFailed
                  (default emptyStatus (schedStatus schedule)))) schedule.

(** The messages [createScheduledSnapshots] accumulates, read off the create
    requests of a trace: one per request the server answered with an error
    other than AlreadyExists. *)
Definition createFailure (a : Action) : list string :=
  match a with
  | ACreate _ s (Some err) =>
    if IsAlreadyExists err then []
    else ["VM " +:+ refName (specSource (snapSpec s)) +:+ ": " +:+ errMsg err]
  | _ => []
  end.

Definition createFailures (tr : list Action) : list string :=
  flat_map createFailure tr.

(** The VM each create request of a trace is for. *)
Definition createdFor (a : Action) : list string :=
  match a with
  | ACreate _ s _ => [refName (specSource (snapSpec s))]
  | _ => []
  end.

(** The snapshots a trace asks the server to create. *)
Definition createdSnapshot (a : Action) : list VirtualMachineSnapshot :=
  match a with
  | ACreate _ s _ => [s]
  | _ => []
  end.

(** The failure deadline the template of a schedule carries, if any. *)
Definition templateFailureDeadline (schedule : VirtualMachineSnapshotSchedule)
    : option Z :=
  match spSnapshotTemplate (schedSpec schedule) with
  | Some template => tmplFailureDeadline template
  | None => None
  end.

Definition templateLabels (schedule : VirtualMachineSnapshotSchedule)
    : gmap string string :=
  match spSnapshotTemplate (schedSpec schedule) with
  | Some template => default ∅ (tmplLabels template)
  | None => ∅
  end.

(** Fixed-width decimal fields, the YYYY and the MM, DD, HH, MM, SS of the
    snapshot name. *)
Definition digit (x : Z) : ascii := ascii_of_nat (48 + Z.to_nat x).

Definition digits2 (x : Z) : string :=
  String (digit (x / 10)) (String (digit (x mod 10)) EmptyString).

Definition digits4 (x : Z) : string :=
  String (digit (x / 1000))
    (String (digit (x / 100 mod 10))
       (String (digit (x / 10 mod 10))
          (String (digit (x mod 10)) EmptyString))).

(** The first instant of year 10000. *)
Definition endOfYear9999 : Z := 253402300800 * Second.

(** Selection by labels, in the words of the specification: the namespace
    is the schedule's and the schedule-name label is the schedule's name;
    for retention, the source-name label is moreover the VM's name. *)
Definition labelIs (key value : string) (s : VirtualMachineSnapshot) : bool :=
  match snapLabels s with
  | Some labels => String.eqb (mapIndex labels key) value
  | None => false
  end.

Definition belongsToSchedule (schedule : VirtualMachineSnapshotSchedule)
    (s : VirtualMachineSnapshot) : bool :=
  String.eqb (snapNamespace s) (schedNamespace schedule) &&
  labelIs scheduleNameLabel (schedName schedule) s.

Definition belongsToVM (sourceNameLabel : string)
    (schedule : VirtualMachineSnapshotSchedule) (vm : VirtualMachine)
    (s : VirtualMachineSnapshot) : bool :=
  belongsToSchedule schedule s && labelIs sourceNameLabel (vmName vm) s.

(** The snapshots among the objects of a store. *)
Definition storedSnapshots (objs : list Obj) : list VirtualMachineSnapshot :=
  flat_map (fun o => match o with ObjSnapshot s => [s] | _ => [] end) objs.

(** What the reconciler relies on from [sort.Slice]: the result is a
    rearrangement of the input in which no element is less than an earlier
    one.  Stability is not part of it. *)
Definition sortContract
    (sortSlice : (VirtualMachineSnapshot -> VirtualMachineSnapshot -> bool) ->
                 list VirtualMachineSnapshot -> list VirtualMachineSnapshot)
    : Prop :=
  (forall l, Permutation (sortSlice creationBefore l) l) /\
  (forall l, StronglySorted (fun a b => creationBefore b a = false)
                            (sortSlice creationBefore l)).

(** The retention rules in the words of the specification, on the sorted
    snapshots: the age-expired ones; what remains without them; and the
    oldest of the remaining beyond [maxCount]. *)
Definition ageExpired (retention : VirtualMachineSnapshotScheduleRetention)
    (now : Z) (snapshots : list VirtualMachineSnapshot) :=
  match retExpires retention with
  | Some expires => List.filter (expired now expires) snapshots
  | None => []
  end.

Definition remainingAfterAge (retention : VirtualMachineSnapshotScheduleRetention)
    (now : Z) (snapshots : list VirtualMachineSnapshot) :=
  match retExpires retention with
  | Some expires => List.filter (fun s => negb (expired now expires s)) snapshots
  | None => snapshots
  end.

Definition overCount (retention : VirtualMachineSnapshotScheduleRetention)
    (remaining : list VirtualMachineSnapshot) :=
  match retMaxCount retention with
  | Some maxCount => firstn (length remaining - Z.to_nat maxCount) remaining
  | None => []
  end.

(** The delete requests of a trace: namespace and name. *)
Definition deleteRequests (tr : list Action) : list (string * string) :=
  flat_map (fun a => match a with
                     | ADelete ns name _ => [(ns, name)]
                     | _ => []
                     end) tr.

Definition requestFor (s : VirtualMachineSnapshot) : string * string :=
  (snapNamespace s, snapName s).

(** What the specification says retention looks at in a snapshot. *)
Definition retentionKey (s : VirtualMachineSnapshot) : Z * string :=
  (snapCreationTimestamp s, snapName s).

(** The range the specification gives [retention.maxCount]. *)
Definition maxCountNonNegative (schedule : VirtualMachineSnapshotSchedule) : Prop :=
  forall retention maxCount,
    spRetention (schedSpec schedule) = Some retention ->
    retMaxCount retention = Some maxCount -> 0 <= maxCount.

(** The last-snapshot time recorded on a schedule object. *)
Definition lastSnapshotTimeOf (schedule : VirtualMachineSnapshotSchedule)
    : option Z :=
  match schedStatus schedule with
  | Some st => stLastSnapshotTime st
  | None => None
  end.

Definition phaseOf (schedule : VirtualMachineSnapshotSchedule) : string :=
  match schedStatus schedule with
  | Some st => stPhase st
  | None => EmptyString
  end.

(** A run of [m] from [log]: every action it appends to the trace satisfies
    [P]; a value it returns satisfies [Q]; and it returns when [ok] holds. *)
Definition behaves {A} (m : M A) (log : list Action)
    (P : Action -> Prop) (ok : Prop) (Q : A -> Prop) : Prop :=
  exists tr, snd (m log) = log ++ tr /\ Forall P tr /\
    match fst (m log) with
    | Ret a => Q a
    | Panic => ~ ok
    end.

(** The steps of the status transitions of [schedule]: the clock, the
    snapshot store, events, and the status writer's read and patch. *)
Definition admitsStatusSteps (P : Action -> Prop)
    (schedule : VirtualMachineSnapshotSchedule) : Prop :=
  (forall t, P (ANow t)) /\
  (forall type reason message, P (AEvent type reason message)) /\
  P ASnapshotList /\
  P (AScheduleGetByKey (schedNamespace schedule +:+ "/" +:+ schedName schedule)) /\
  (forall payload resp,
     P (APatch (schedNamespace schedule) (schedName schedule)
          "application/json-patch+json" payload resp)).

(** The owner reference a snapshot of a schedule carries. *)
Definition ownedBy (schedule : VirtualMachineSnapshotSchedule)
    (s : VirtualMachineSnapshot) : Prop :=
  exists owner,
    snapOwnerReferences s = [owner] /\
    orKind owner = "VirtualMachineSnapshotSchedule" /\
    orName owner = schedName schedule /\
    orUID owner = schedUID schedule /\
    orController owner = Some true.

(** What a pass over [schedule] may add to the trace, as the code issues it:
    a delete is for an entry of the sorted snapshots selected for some VM. *)
Definition passStep
    (sortSlice : (VirtualMachineSnapshot -> VirtualMachineSnapshot -> bool) ->
                 list VirtualMachineSnapshot -> list VirtualMachineSnapshot)
    (sourceNameLabel : string) (w : World)
    (schedule : VirtualMachineSnapshotSchedule) (a : Action) : Prop :=
  let ns := schedNamespace schedule in
  match a with
  | ANow _ | ASnapshotList | AEvent _ _ _ => True
  | AVMGetByKey key =>
    exists source, spSource (schedSpec schedule) = Some source /\
                   key = ns +:+ "/" +:+ refName source
  | AVMList => spSource (schedSpec schedule) = None
  | AScheduleGetByKey key => key = ns +:+ "/" +:+ schedName schedule
  | ACreate ns' s _ => ns' = ns /\ snapNamespace s = ns /\ ownedBy schedule s
  | ADelete ns' name _ =>
    spRetention (schedSpec schedule) <> None /\
    exists vm s,
      In s (sortSlice creationBefore
              (List.filter (belongsToVM sourceNameLabel schedule vm)
                 (storedSnapshots (snapshotStoreList w)))) /\
      ns' = snapNamespace s /\ name = snapName s
  | APatch ns' name patchType _ _ =>
    ns' = ns /\ name = schedName schedule /\
    patchType = "application/json-patch+json"
  end.

(** What a pass over [schedule] may ask of its collaborators. *)
Definition passAction (w : World)
    (schedule : VirtualMachineSnapshotSchedule) (a : Action) : Prop :=
  let ns := schedNamespace schedule in
  match a with
  | ANow _ | ASnapshotList | AEvent _ _ _ => True
  | AVMGetByKey key =>
    exists source, spSource (schedSpec schedule) = Some source /\
                   key = ns +:+ "/" +:+ refName source
  | AVMList => spSource (schedSpec schedule) = None
  | AScheduleGetByKey key => key = ns +:+ "/" +:+ schedName schedule
  | ACreate ns' s _ => ns' = ns /\ snapNamespace s = ns /\ ownedBy schedule s
  | ADelete ns' name _ =>
    ns' = ns /\
    spRetention (schedSpec schedule) <> None /\
    exists s, In (ObjSnapshot s) (snapshotStoreList w) /\
              snapName s = name /\
              belongsToSchedule schedule s = true
  | APatch ns' name patchType _ _ =>
    ns' = ns /\ name = schedName schedule /\
    patchType = "application/json-patch+json"
  end.

(** Two schedule objects that differ in their status only. *)
Definition sameButStatus (a b : VirtualMachineSnapshotSchedule) : Prop :=
  schedName a = schedName b /\ schedNamespace a = schedNamespace b /\
  schedUID a = schedUID b /\ schedSpec a = schedSpec b.

(** The three ways a pass over [schedule] ends. *)
Definition endsFailed (res : Result) (st : VirtualMachineSnapshotScheduleStatus)
    : Prop :=
  stPhase st = SchedulePhaseFailed /\
  (exists t m, stError st = Some {| errorTime := Some t; errorMessage := Some m |}) /\
  resErr res <> None /\
  resRequeueAfter res = 0.

Definition endsPaused (schedule : VirtualMachineSnapshotSchedule) (res : Result)
    (st : VirtualMachineSnapshotScheduleStatus) : Prop :=
  stPhase st = SchedulePhasePaused /\
  stError st = None /\
  spDisabled (schedSpec schedule) = true /\
  resRequeueAfter res = 0.

Definition endsActive (schedule : VirtualMachineSnapshotSchedule) (res : Result)
    (st : VirtualMachineSnapshotScheduleStatus) : Prop :=
  stPhase st = SchedulePhaseActive /\
  stError st = None /\
  stNextSnapshotTime st <> None /\
  spDisabled (schedSpec schedule) = false /\
  match resErr res with
  | None => Second <= resRequeueAfter res <= maxDuration
  | Some _ => resRequeueAfter res = 0
  end.

Definition passOutcome (schedule : VirtualMachineSnapshotSchedule) (res : Result)
    : Prop :=
  sameButStatus (resSchedule res) schedule /\
  exists st,
    schedStatus (resSchedule res) = Some st /\
    (endsFailed res st \/ endsPaused schedule res st \/ endsActive schedule res st).

(** The VMs among the objects of a store. *)
Definition storedVMs (objs : list Obj) : list VirtualMachine :=
  flat_map (fun o => match o with ObjVM vm => [vm] | _ => [] end) objs.

(** The requeue delay after a status write that went through, for a next
    run at [nextRun] and the clock at [now]. *)
Definition requeueDelay (nextRun now : Z) : Z :=
  if (0 <=? nextRun - now) && (nextRun - now <=? maxDuration - Second)
  then nextRun - now + Second
  else Second.

(** The annotations and the deletion policy the template of a schedule
    carries, if any. *)
Definition templateAnnotations (schedule : VirtualMachineSnapshotSchedule)
    : option (gmap string string) :=
  match spSnapshotTemplate (schedSpec schedule) with
  | Some template => tmplAnnotations template
  | None => None
  end.

Definition templateDeletionPolicy (schedule : VirtualMachineSnapshotSchedule)
    : option string :=
  match spSnapshotTemplate (schedSpec schedule) with
  | Some template => tmplDeletionPolicy template
  | None => None
  end.

(** The string-valued variables of the launcher configuration. *)
Definition launcherStringVariables : list string :=
  [ "VIRT_LAUNCHER_LOG_VERBOSITY"; "SHARED_FILESYSTEM_PATHS"; "STANDALONE_VMI";
    "VIRT_LAUNCHER_TARGET_POD_EXIT_SIGNAL"; "POD_NAME" ].

(** Inputs for the statements below. *)
Module Cases.

(** A schedule whose source VM is not in the store. *)
Definition missingSourceSpec : VirtualMachineSnapshotScheduleSpec :=
  {| spSource := Some {| refAPIGroup := None; refKind := "VirtualMachine";
                         refName := "vmB" |};
     spVMSelector := None;
     spSchedule := "* * * * *";
     spDisabled := false;
     spRetention := None;
     spSnapshotTemplate := None;
     spFailurePolicy := None |}.

Definition missingSource : VirtualMachineSnapshotSchedule :=
  Demo.withSpec missingSourceSpec Demo.s1.

(** A schedule that selects the VMs labelled tier=gold. *)
Definition tierGold : LabelSelector :=
  {| selMatchLabels := Some {[ "tier" := "gold" ]}; selMatchExpressions := [] |}.

Definition selectorSpec : VirtualMachineSnapshotScheduleSpec :=
  {| spSource := None;
     spVMSelector := Some tierGold;
     spSchedule := "* * * * *";
     spDisabled := false;
     spRetention := None;
     spSnapshotTemplate := None;
     spFailurePolicy := None |}.

Definition bySelector : VirtualMachineSnapshotSchedule :=
  Demo.withSpec selectorSpec Demo.s1.

Definition gold (name ns : string) : VirtualMachine :=
  {| vmName := name; vmNamespace := ns;
     vmLabels := Some {[ "tier" := "gold" ]} |}.

(** The world of [Demo.world], with the given objects in the VM store. *)
Definition worldWithVMs (stored : VirtualMachineSnapshotSchedule)
    (vms : list Obj) : World :=
  {| clock := clock (Demo.world stored []);
     vmStoreGetByKey := vmStoreGetByKey (Demo.world stored []);
     vmStoreList := vms;
     snapshotStoreList := [];
     scheduleStoreGetByKey := scheduleStoreGetByKey (Demo.world stored []);
     createResponse := fun _ _ _ => None;
     deleteResponse := fun _ _ _ => None;
     patchResponse := fun _ _ _ _ => None |}.

(** A gold VM of the schedule's namespace, one of another namespace, a VM
    without labels and a snapshot. *)
Definition mixedObjects : list Obj :=
  [ ObjVM (gold "vm1" "default"); ObjVM (gold "vm2" "other");
    ObjVM Demo.vmA; ObjSnapshot Demo.handMade ].

(** A schedule the store holds as Failed, with an error recorded at [T0]. *)
Definition failedStatus : VirtualMachineSnapshotScheduleStatus :=
  {| stPhase := SchedulePhaseFailed;
     stLastSnapshotTime := None;
     stNextSnapshotTime := None;
     stLastSuccessfulSnapshotName := EmptyString;
     stCurrentSnapshotCount := 0;
     stError := Some {| errorTime := Some Demo.T0;
                        errorMessage := Some "VirtualMachine default/vmA not found" |};
     stConditions := [];
     stVMSnapshotStatuses := [] |}.

Definition storedFailed : VirtualMachineSnapshotSchedule :=
  Demo.withStatus failedStatus Demo.s7.

(** Retention by age and by count together. *)
Definition keepTwoOfThreeHours : VirtualMachineSnapshotScheduleRetention :=
  {| retExpires := Some (3 * Demo.Hour); retMaxCount := Some 2 |}.

(** Retention with a negative count. *)
Definition keepMinusOne : VirtualMachineSnapshotScheduleRetention :=
  {| retExpires := None; retMaxCount := Some (-1) |}.

Definition negativeCount : VirtualMachineSnapshotSchedule :=
  Demo.withSpec (Demo.retentionSpec keepMinusOne) Demo.s1.

(** An environment of a launcher. *)
Definition launcherEnv : gmap string string :=
  {[ "LIBVIRT_DEBUG_LOGS" := "1"; "VIRTIOFSD_DEBUG_LOGS" := "true";
     "POD_NAME" := "virt-launcher-vmA"; "HOME" := "/root" ]}.

(** [fmt]'s [%+v] stand-in: the dynamic type of the object. *)
Definition formatObj (o : Obj) : string := typeName o.

End Cases.

(** The event [applyRetentionForVM] records after a delete request, by the
    answer to the request: none after an error other than NotFound. *)
Definition deletedEvent (a : Action) : list Action :=
  match a with
  | ADelete _ name resp =>
    let event := AEvent EventTypeNormal scheduleDeleteSnapshotEvent
                   ("Deleted snapshot " +:+ name +:+ " due to retention policy") in
    match resp with
    | Some err => if IsNotFound err then [event] else []
    | None => [event]
    end
  | _ => []
  end.

(** The event [createSnapshotForVM] records after a create request, by the
    answer to the request: none after an error. *)
Definition createdEvent (a : Action) : list Action :=
  match a with
  | ACreate _ s None =>
    [AEvent EventTypeNormal scheduleCreateSnapshotEvent
       ("Created snapshot " +:+ snapName s +:+ " for VM " +:+
        refName (specSource (snapSpec s)))]
  | _ => []
  end.

(** The proleptic Gregorian calendar, to say which date a day count is:
    leap years, the lengths of the months, and the number of days from
    1970-01-01 to the date [y]-[m]-[d]. *)
Definition isLeapYear (y : Z) : bool :=
  (y mod 4 =? 0) && (negb (y mod 100 =? 0) || (y mod 400 =? 0)).

Definition daysInMonth (leap : bool) (m : Z) : Z :=
  if m =? 2 then (if leap then 29 else 28)
  else if (m =? 4) || (m =? 6) || (m =? 9) || (m =? 11) then 30
  else 31.

Fixpoint daysBeforeMonth (leap : bool) (months : nat) : Z :=
  match months with
  | O => 0
  | S k => daysBeforeMonth leap k + daysInMonth leap (Z.of_nat (S k))
  end.

(** Days from 0001-01-01 to the first of January of year [y]. *)
Definition daysBeforeYear (y : Z) : Z :=
  365 * (y - 1) + (y - 1) / 4 - (y - 1) / 100 + (y - 1) / 400.

(** 1970-01-01 is day 719162 counted from 0001-01-01. *)
Definition unixDay (y m d : Z) : Z :=
  daysBeforeYear y + daysBeforeMonth (isLeapYear y) (Z.to_nat (m - 1)) + (d - 1)
  - 719162.

(** Seconds from 1970-01-01T00:00:00Z to the given UTC date and time. *)
Definition unixSecond (y m d hh mm ss : Z) : Z :=
  unixDay y m d * 86400 + hh * 3600 + mm * 60 + ss.

(** Every clock reading and every answer of the API server in the trace
    [tr], which follows [log], is the one the world gives at that position. *)
Definition answeredBy (w : World) (log tr : list Action) : Prop :=
  forall (i : nat) (a : Action),
    tr !! i = Some a ->
    match a with
    | ANow t => t = clock w (length log + i)%nat
    | ACreate ns s resp => resp = createResponse w (length log + i)%nat ns s
    | ADelete ns name resp => resp = deleteResponse w (length log + i)%nat ns name
    | APatch ns name _ payload resp =>
      resp = patchResponse w (length log + i)%nat ns name payload
    | _ => True
    end.

(** * Properties *)

Lemma metaTime_Equal_eq (t u : option Z) :
  metaTime_Equal t u = true <-> t = u.
Proof.
  destruct t as [a|], u as [b|]; simpl; unfold time_Equal;
    rewrite ?Z.eqb_eq; split; intros H; try congruence; try discriminate.
Qed.

Lemma statusEqual_compared (a b : option VirtualMachineSnapshotScheduleStatus) :
  statusEqual a b = true <-> comparedFieldsAgree a b.
Proof.
  destruct a as [a|], b as [b|]; simpl; try (split; [discriminate | tauto]); [|tauto].
  destruct a as [p1 l1 n1 s1 c1 e1 k1 v1], b as [p2 l2 n2 s2 c2 e2 k2 v2]; simpl.
  destruct (String.eqb_spec p1 p2); simpl; [|split; [discriminate | intuition congruence]].
  destruct (Z.eqb_spec c1 c2); simpl; [|split; [discriminate | intuition congruence]].
  destruct (String.eqb_spec s1 s2); simpl; [|split; [discriminate | intuition congruence]].
  destruct l1 as [x1|], l2 as [x2|], n1 as [y1|], n2 as [y2|]; simpl;
    unfold time_Equal;
    repeat (match goal with
            | |- context [Z.eqb ?x ?y] => destruct (Z.eqb_spec x y); simpl
            end);
    first [ split; [discriminate | intuition congruence] | intuition congruence ].
Qed.

Section StatusWriter.

Variable GeneratePatchPayload : list PatchOperation -> string + error.
Variable w : World.

Local Abbreviation updateScheduleStatus' := (updateScheduleStatus GeneratePatchPayload w).

(** The status writer returns, and all it does is read the schedule store and
    send at most one patch. *)
Lemma updateScheduleStatus_run schedule log :
  exists r tr, updateScheduleStatus' schedule log = (Ret r, log ++ tr) /\
    Forall (fun a => isStatusWrite a = true) tr.
Proof.
  unfold updateScheduleStatus, ScheduleStore_GetByKey, bind, emit, ret,
    Client_Patch; simpl.
  destruct (scheduleStoreGetByKey w _) as [e| |[vm|s|current|n]]; simpl;
    [ | | | | destruct (statusEqual (schedStatus current) (schedStatus schedule));
              [|destruct (GeneratePatchPayload _) as [bytes|e]]; simpl | ];
    rewrite <- ?app_assoc; simpl;
    (do 2 eexists; split; [reflexivity|]);
    repeat (constructor; try reflexivity).
Qed.

(** C6, as the code has it: with the schedule in the store, the write is
    skipped exactly when stored and candidate status agree on phase,
    currentSnapshotCount, lastSuccessfulSnapshotName, lastSnapshotTime and
    nextSnapshotTime; nothing else is compared.  When they disagree, the
    writer sends one JSON-patch whose payload is generated from the single
    operation replace /status with the candidate status, or returns the
    error of the payload generation. *)
Theorem updateScheduleStatus_skips_iff_compared_fields_agree
    (schedule current : VirtualMachineSnapshotSchedule) (log : list Action) :
  let ns := schedNamespace schedule in
  let name := schedName schedule in
  let key := ns +:+ "/" +:+ name in
  let payload := GeneratePatchPayload
                   [ {| opOp := "replace"; opPath := "/status";
                        opValue := schedStatus schedule |} ] in
  scheduleStoreGetByKey w key = GetItem (ObjSchedule current) ->
  (comparedFieldsAgree (schedStatus current) (schedStatus schedule) ->
     updateScheduleStatus' schedule log = (Ret None, log ++ [AScheduleGetByKey key]))
  /\
  (~ comparedFieldsAgree (schedStatus current) (schedStatus schedule) ->
     match payload with
     | inl patchBytes =>
       let resp := patchResponse w (S (length log)) ns name patchBytes in
       updateScheduleStatus' schedule log =
         (Ret resp,
          log ++ [AScheduleGetByKey key;
                  APatch ns name "application/json-patch+json" patchBytes resp])
     | inr err =>
       updateScheduleStatus' schedule log =
         (Ret (Some err), log ++ [AScheduleGetByKey key])
     end).
Proof.
  intros ns name key payload Hget.
  unfold updateScheduleStatus, ScheduleStore_GetByKey, bind, emit, ret; simpl.
  fold ns name key. rewrite Hget.
  split; intros Hcmp.
  - apply statusEqual_compared in Hcmp. now rewrite Hcmp.
  - destruct (statusEqual (schedStatus current) (schedStatus schedule)) eqn:E.
    + apply statusEqual_compared in E. contradiction.
    + subst payload. unfold PatchReplaceOp.
      destruct (GeneratePatchPayload _) as [bytes|e]; [|reflexivity].
      unfold Client_Patch. rewrite length_app, Nat.add_comm; simpl.
      now rewrite <- app_assoc.
Qed.

End StatusWriter.

(** The theorem above at a concrete input: the candidate differs from the
    stored status in its phase, and one patch goes out. *)
Lemma updateScheduleStatus_skips_iff_compared_fields_agree_witness :
  Demo.updateScheduleStatus
    (Demo.world (Demo.withStatus Demo.activeStatus Demo.s1) [])
    (Demo.withStatus (setPhase SchedulePhasePaused Demo.activeStatus) Demo.s1) =
  (Ret None,
   [AScheduleGetByKey "default/s1";
    APatch "default" "s1" "application/json-patch+json"
      "[{op:replace,path:/status}]" None]).
Proof.
  apply (proj2 (updateScheduleStatus_skips_iff_compared_fields_agree
           Demo.GeneratePatchPayload
           (Demo.world (Demo.withStatus Demo.activeStatus Demo.s1) [])
           (Demo.withStatus (setPhase SchedulePhasePaused Demo.activeStatus) Demo.s1)
           (Demo.withStatus Demo.activeStatus Demo.s1) [] eq_refl)).
  simpl. intros (H & _). discriminate H.
Defined.

(** C6 as stated fails: stored and candidate status differ in the per-VM
    sub-status list, so they are not equal under the comparison the claim
    describes, and yet the write is skipped. *)
Lemma updateScheduleStatus_ignores_per_vm_statuses :
  let stored := Demo.withStatus Demo.activeStatus Demo.s1 in
  let candidate := Demo.withStatus Demo.activeStatusPerVM Demo.s1 in
  ~ statusEqualAsSpecified (schedStatus stored) (schedStatus candidate) /\
  Demo.updateScheduleStatus (Demo.world stored []) candidate =
    (Ret None, [AScheduleGetByKey "default/s1"]).
Proof.
  split.
  - simpl. intros (_ & _ & _ & _ & _ & H). discriminate H.
  - reflexivity.
Qed.

Lemma setStatus_setStatus st st0 schedule :
  setStatus st (setStatus st0 schedule) = setStatus st schedule.
Proof. reflexivity. Qed.

Lemma Forall_isStatusWrite_weaken (P : Action -> Prop) (tr : list Action) :
  (forall a, isStatusWrite a = true -> P a) ->
  Forall (fun a => isStatusWrite a = true) tr -> Forall P tr.
Proof. intros HP H. eapply Forall_impl; eauto. Qed.

Section PauseAndFailure.

Variable Selector : Type.
Variable LabelSelectorAsSelector : LabelSelector -> Selector + error.
Variable Matches : Selector -> gmap string string -> bool.
Variable CronSchedule : Type.
Variable cronParse : string -> CronSchedule + error.
Variable cronNext : CronSchedule -> Z -> Z.
Variable sortSlice :
  (VirtualMachineSnapshot -> VirtualMachineSnapshot -> bool) ->
  list VirtualMachineSnapshot -> list VirtualMachineSnapshot.
Variable GeneratePatchPayload : list PatchOperation -> string + error.
Variable snapshotSourceNameLabel kubevirtGroup snapshotGroupVersion : string.
Variable w : World.

Local Abbreviation updateScheduleStatus' :=
  (updateScheduleStatus GeneratePatchPayload w).
Local Abbreviation updateVMSnapshotSchedule' :=
  (updateVMSnapshotSchedule Selector LabelSelectorAsSelector Matches CronSchedule
     cronParse cronNext sortSlice GeneratePatchPayload snapshotSourceNameLabel
     kubevirtGroup snapshotGroupVersion w).

Lemma updateScheduleStatusError_run schedule st err log :
  schedStatus schedule = Some st ->
  let now := clock w (length log) in
  let failed := failedSchedule schedule now (errMsg err) in
  exists werr tr,
    updateScheduleStatus' failed (log ++ [ANow now]) = (Ret werr, (log ++ [ANow now]) ++ tr) /\
    Forall (fun a => isStatusWrite a = true) tr /\
    updateScheduleStatusError GeneratePatchPayload w schedule err log =
      (Ret {| resSchedule := failed; resRequeueAfter := 0;
              resErr := Some (default err werr) |},
       log ++ [ANow now] ++ tr ++
       match werr with
       | Some _ => []
       | None => [AEvent EventTypeWarning scheduleFailedEvent
                    ("Schedule failed: " +:+ errMsg err)]
       end).
Proof.
  intros Hst now failed.
  destruct (updateScheduleStatus_run GeneratePatchPayload w failed (log ++ [ANow now]))
    as (werr & tr & Hrun & Htr).
  exists werr, tr. split; [exact Hrun|]. split; [exact Htr|].
  unfold updateScheduleStatusError. rewrite Hst.
  unfold bind at 1. unfold Now at 1. fold now.
  unfold bind at 1. subst failed. unfold failedSchedule in *.
  rewrite Hst in *. simpl in *. rewrite Hrun.
  destruct werr as [ue|]; simpl.
  - unfold ret. now rewrite app_nil_r, <- app_assoc.
  - unfold bind, Event, emit, ret. now rewrite <- !app_assoc.
Qed.

(** C7, as the code has it: with a parseable cron expression and
    [disabled=true] the pass sets phase Paused, clears the error, runs the
    status writer and nothing else (so no create and no delete request),
    and returns a zero requeue delay together with whatever the status
    writer returned: nil when the write succeeds or is skipped, the write
    error otherwise. *)
Theorem disabled_schedule_pauses
    (schedule : VirtualMachineSnapshotSchedule) (cronSchedule : CronSchedule)
    (log : list Action) :
  cronParse (spSchedule (schedSpec schedule)) = inl cronSchedule ->
  spDisabled (schedSpec schedule) = true ->
  exists st werr tr,
    updateVMSnapshotSchedule' schedule log =
      (Ret {| resSchedule := pausedSchedule schedule;
              resRequeueAfter := 0; resErr := werr |}, log ++ tr) /\
    schedStatus (pausedSchedule schedule) = Some st /\
    stPhase st = SchedulePhasePaused /\
    stError st = None /\
    updateScheduleStatus' (pausedSchedule schedule) log = (Ret werr, log ++ tr) /\
    Forall (fun a => isStatusWrite a = true /\ isCreate a = false /\
                     isDelete a = false) tr.
Proof.
  intros Hparse Hdis.
  destruct (updateScheduleStatus_run GeneratePatchPayload w (pausedSchedule schedule) log)
    as (werr & tr & Hrun & Htr).
  eexists _, werr, tr.
  unfold updateVMSnapshotSchedule. simpl. rewrite Hparse, Hdis.
  unfold updateScheduleStatusPaused; simpl.
  unfold bind. unfold pausedSchedule in Hrun.
  rewrite setStatus_setStatus, Hrun.
  split; [destruct werr; reflexivity|].
  split; [reflexivity|]. split; [reflexivity|]. split; [reflexivity|].
  split; [exact Hrun|].
  revert Htr. apply Forall_isStatusWrite_weaken. now intros [].
Qed.

(** The pass on a cron expression that does not parse, in full: the clock
    read, the status writer, and after a successful status write one event,
    recorded with the reason [scheduleFailedEvent]. *)
Lemma updateVMSnapshotSchedule_invalid_cron
    (schedule : VirtualMachineSnapshotSchedule) (parseErr : error)
    (log : list Action) :
  cronParse (spSchedule (schedSpec schedule)) = inr parseErr ->
  let now := clock w (length log) in
  let message := "invalid cron expression: " +:+ errMsg parseErr in
  let failed := failedSchedule schedule now message in
  exists st werr tr,
    updateScheduleStatus' failed (log ++ [ANow now]) =
      (Ret werr, (log ++ [ANow now]) ++ tr) /\
    updateVMSnapshotSchedule' schedule log =
      (Ret {| resSchedule := failed; resRequeueAfter := 0;
              resErr := Some (default (Errorf message) werr) |},
       log ++ [ANow now] ++ tr ++
       match werr with
       | Some _ => []
       | None => [AEvent EventTypeWarning "ScheduledSnapshotFailed"
                    ("Schedule failed: " +:+ message)]
       end) /\
    schedStatus failed = Some st /\
    stPhase st = SchedulePhaseFailed /\
    stError st = Some {| errorTime := Some now; errorMessage := Some message |} /\
    Forall (fun a => isVMLookup a = false /\
                     isEventWithReason scheduleInvalidCronEvent a = false)
           ([ANow now] ++ tr ++
            match werr with
            | Some _ => []
            | None => [AEvent EventTypeWarning "ScheduledSnapshotFailed"
                         ("Schedule failed: " +:+ message)]
            end).
Proof.
  intros Hparse now message failed.
  destruct (updateScheduleStatusError_run
              (setStatus (default emptyStatus (schedStatus schedule)) schedule)
              (default emptyStatus (schedStatus schedule))
              (Errorf message) log eq_refl) as (werr & tr & Hrun & Htr & Herr).
  eexists _, werr, tr.
  split; [exact Hrun|].
  split.
  { unfold updateVMSnapshotSchedule. simpl. rewrite Hparse. exact Herr. }
  split; [reflexivity|]. split; [reflexivity|]. split; [reflexivity|].
  constructor; [now split|].
  apply Forall_app. split.
  - revert Htr. apply Forall_isStatusWrite_weaken. now intros [].
  - destruct werr; repeat constructor.
Qed.


End PauseAndFailure.

(** The pause theorem at scenario 7: the status patch is the only request. *)
Lemma disabled_schedule_pauses_witness :
  exists st tr,
    Demo.reconcile (Demo.world Demo.s6 []) Demo.s6 =
      (Ret {| resSchedule := pausedSchedule Demo.s6;
              resRequeueAfter := 0; resErr := None |}, tr) /\
    schedStatus (pausedSchedule Demo.s6) = Some st /\
    stPhase st = "Paused" /\
    filter isPatch tr = [APatch "default" "s1" "application/json-patch+json"
                           "[{op:replace,path:/status}]" None].
Proof.
  destruct (disabled_schedule_pauses _ Demo.LabelSelectorAsSelector Demo.Matches
              _ Demo.cronParse Demo.cronNext (@insertionSort _)
              Demo.GeneratePatchPayload Demo.snapshotSourceNameLabel
              Demo.kubevirtGroup Demo.snapshotGroupVersion
              (Demo.world Demo.s6 []) Demo.s6 tt [] eq_refl eq_refl)
    as (st & werr & tr & Hrun & Hst & Hphase & _ & Hwrite & _).
  vm_compute in Hwrite. injection Hwrite as Hwerr Htr. subst werr tr.
  exists st. eexists. split; [exact Hrun|].
  split; [exact Hst|]. split; [exact Hphase|]. reflexivity.
Defined.

(** C7 as stated fails: when the API server rejects the status patch, the
    pass on a disabled schedule returns that error, not nil. *)
Lemma disabled_schedule_returns_status_write_error :
  spDisabled (schedSpec Demo.s6) = true /\
  Demo.cronParse (spSchedule (schedSpec Demo.s6)) = inl tt /\
  Demo.reconcile (Demo.worldPatchFails Demo.s6) Demo.s6 =
    (Ret {| resSchedule := pausedSchedule Demo.s6; resRequeueAfter := 0;
            resErr := Some Demo.conflict |},
     [AScheduleGetByKey "default/s1";
      APatch "default" "s1" "application/json-patch+json"
        "[{op:replace,path:/status}]" (Some Demo.conflict)]).
Proof. repeat split. Qed.



(** ** The timestamp in the snapshot name *)

Lemma forallb_below (P : Z -> bool) (n : Z) :
  forallb (fun k => P (Z.of_nat k)) (seq 0 (Z.to_nat n)) = true ->
  forall x, 0 <= x < n -> P x = true.
Proof.
  intros H x Hx. rewrite forallb_forall in H.
  specialize (H (Z.to_nat x)). rewrite Z2Nat.id in H by lia.
  apply H, in_seq. lia.
Qed.

Lemma appendInt_digits2 (x : Z) : 0 <= x <= 99 -> appendInt x 2 = digits2 x.
Proof.
  intros Hx. apply String.eqb_eq.
  apply (forallb_below (fun x => String.eqb (appendInt x 2) (digits2 x)) 100);
    [vm_compute; reflexivity|lia].
Qed.

Lemma appendInt_digits4 (x : Z) : 0 <= x <= 9999 -> appendInt x 4 = digits4 x.
Proof.
  intros Hx. apply String.eqb_eq.
  apply (forallb_below (fun x => String.eqb (appendInt x 4) (digits4 x)) 10000);
    [vm_compute; reflexivity|lia].
Qed.

(** Years 1 to 9999: the civil date is a date. *)
Lemma civil_from_days_range (days : Z) :
  -719162 <= days <= 2932896 ->
  let '(y, m, d) := civil_from_days days in
  1 <= y <= 9999 /\ 1 <= m <= 12 /\ 1 <= d <= 31.
Proof.
  intros H. unfold civil_from_days.
  set (z := days + 719468).
  set (era := z / 146097).
  set (doe := z - era * 146097).
  assert (Hdoe : 0 <= doe <= 146096) by (subst doe era; Z.div_mod_to_equations; lia).
  set (yoe := (doe - doe / 1460 + doe / 36524 - doe / 146096) / 365).
  set (doy := doe - (365 * yoe + yoe / 4 - yoe / 100)).
  assert (Hy : 0 <= yoe <= 399 /\ 0 <= doy <= 365)
    by (subst doy yoe; Z.div_mod_to_equations; lia).
  set (mp := (5 * doy + 2) / 153).
  assert (Hmp : 0 <= mp <= 11) by (subst mp; Z.div_mod_to_equations; lia).
  assert (Hd : 1 <= doy - (153 * mp + 2) / 5 + 1 <= 31)
    by (subst mp; Z.div_mod_to_equations; lia).
  split; [|split; [destruct (Z.ltb_spec mp 10); lia|exact Hd]].
  destruct (Z.ltb_spec mp 10).
  - destruct (Z.leb_spec (mp + 3) 2); [lia|].
    subst mp doy yoe doe era z; Z.div_mod_to_equations; lia.
  - destruct (Z.leb_spec (mp - 9) 2); [|lia].
    subst mp doy yoe doe era z; Z.div_mod_to_equations; lia.
Qed.

(** For an instant of the years 1 to 9999 the formatted timestamp is
    YYYYMMDD-HHMMSS: four digits of year, two of month and of day, a dash,
    two digits each of hour, minute and second. *)
Lemma formatTimestamp_layout (t : Z) :
  zeroTime <= t < endOfYear9999 ->
  exists y m d hh mm ss,
    1 <= y <= 9999 /\ 1 <= m <= 12 /\ 1 <= d <= 31 /\
    0 <= hh <= 23 /\ 0 <= mm <= 59 /\ 0 <= ss <= 59 /\
    formatTimestamp t =
      digits4 y +:+ digits2 m +:+ digits2 d +:+ "-" +:+
      digits2 hh +:+ digits2 mm +:+ digits2 ss.
Proof.
  unfold zeroTime, endOfYear9999, Second. intros Ht. unfold formatTimestamp, Second.
  set (sec := t / 1000000000).
  assert (Hsec : -62135596800 <= sec <= 253402300799)
    by (subst sec; Z.div_mod_to_equations; lia).
  set (rem := sec mod 86400).
  assert (Hrem : 0 <= rem <= 86399) by (subst rem; Z.div_mod_to_equations; lia).
  assert (Hdays : -719162 <= sec / 86400 <= 2932896)
    by (Z.div_mod_to_equations; lia).
  pose proof (civil_from_days_range (sec / 86400) Hdays) as Hciv.
  destruct (civil_from_days (sec / 86400)) as [[y m] d].
  destruct Hciv as (Hy & Hm & Hd).
  exists y, m, d, (rem / 3600), (rem mod 3600 / 60), (rem mod 60).
  assert (Hhh : 0 <= rem / 3600 <= 23) by (Z.div_mod_to_equations; lia).
  assert (Hmm : 0 <= rem mod 3600 / 60 <= 59) by (Z.div_mod_to_equations; lia).
  assert (Hss : 0 <= rem mod 60 <= 59) by (Z.div_mod_to_equations; lia).
  repeat (split; [assumption|]).
  rewrite appendInt_digits4 by lia.
  rewrite !appendInt_digits2 by lia.
  reflexivity.
Qed.

(** Scenario 1 of the specification: the name of the snapshot of vmA made by
    schedule s1 at 2024-01-01T00:00:30Z. *)
Example snapshot_name_scenario_1 :
  snapName (Demo.buildSnapshot Demo.s1 Demo.vmA Demo.T0) =
  "s1-vmA-20240101-000030".
Proof. vm_compute. reflexivity. Qed.

(** ** Creating snapshots *)

Lemma lookup_copyInto (src dst : gmap string string) (k : string) :
  copyInto src dst !! k =
  match src !! k with Some v => Some v | None => dst !! k end.
Proof.
  unfold copyInto. revert k.
  apply (map_fold_weak_ind
           (fun r (m : gmap string string) => forall k,
              r !! k = match m !! k with Some v => Some v | None => dst !! k end)).
  - intros k. now rewrite lookup_empty.
  - intros i x m r Hi IH k. destruct (decide (i = k)) as [->|Hne].
    + now rewrite !lookup_insert_eq.
    + rewrite !lookup_insert_ne by assumption. apply IH.
Qed.

Section Creation.

Variable snapshotSourceNameLabel kubevirtGroup snapshotGroupVersion : string.
Variable w : World.

Local Abbreviation buildSnapshot' :=
  (buildSnapshot snapshotSourceNameLabel kubevirtGroup snapshotGroupVersion).
Local Abbreviation createSnapshotForVM' :=
  (createSnapshotForVM snapshotSourceNameLabel kubevirtGroup snapshotGroupVersion w).
Local Abbreviation createSnapshotsLoop' :=
  (createSnapshotsLoop snapshotSourceNameLabel kubevirtGroup snapshotGroupVersion w).
Local Abbreviation createScheduledSnapshots' :=
  (createScheduledSnapshots snapshotSourceNameLabel kubevirtGroup
     snapshotGroupVersion w).

(** One call of [createSnapshotForVM]: a clock read, one create request, and
    an event only when the server accepted the snapshot. *)
Lemma createSnapshotForVM_run schedule vm log :
  let now := clock w (length log) in
  let snapshot := buildSnapshot' schedule vm now in
  let ns := schedNamespace schedule in
  let resp := createResponse w (S (length log)) ns snapshot in
  createSnapshotForVM' schedule vm log =
    (Ret match resp with
         | Some err => if IsAlreadyExists err then None else Some err
         | None => None
         end,
     log ++ [ANow now; ACreate ns snapshot resp] ++
     match resp with
     | Some _ => []
     | None => [AEvent EventTypeNormal scheduleCreateSnapshotEvent
                  ("Created snapshot " +:+ snapName snapshot +:+ " for VM " +:+
                   vmName vm)]
     end).
Proof.
  intros now snapshot ns resp.
  unfold createSnapshotForVM, bind, Now, Client_Create, Event, emit, ret.
  rewrite length_app, Nat.add_comm. simpl. fold now snapshot ns resp.
  destruct resp as [err|].
  - destruct (IsAlreadyExists err); now rewrite <- app_assoc.
  - now rewrite <- !app_assoc.
Qed.

Lemma createSnapshotsLoop_run schedule vms :
  forall errs log,
  exists tr,
    createSnapshotsLoop' schedule vms errs log =
      (Ret (errs ++ createFailures tr), log ++ tr) /\
    flat_map createdFor tr = map vmName vms /\
    Forall (fun s => exists vm now, In vm vms /\ s = buildSnapshot' schedule vm now)
           (flat_map createdSnapshot tr) /\
    Forall (fun a => isStatusWrite a = false /\ isDelete a = false /\
                     isVMLookup a = false) tr.
Proof.
  induction vms as [|vm rest IH]; intros errs log.
  - exists []. simpl. unfold ret. rewrite !app_nil_r. repeat split; constructor.
  - simpl. unfold bind. rewrite createSnapshotForVM_run.
    remember (clock w (length log)) as now eqn:Hnow.
    remember (buildSnapshot' schedule vm now) as snapshot eqn:Hsnapshot.
    remember (createResponse w (S (length log)) (schedNamespace schedule) snapshot)
      as resp eqn:Hresp.
    remember ([ANow now; ACreate (schedNamespace schedule) snapshot resp] ++
              match resp with
              | Some _ => []
              | None => [AEvent EventTypeNormal scheduleCreateSnapshotEvent
                           ("Created snapshot " +:+ snapName snapshot +:+
                            " for VM " +:+ vmName vm)]
              end) as tr1 eqn:Htr1.
    assert (Hfail : createFailures tr1 =
                    match resp with
                    | Some err => if IsAlreadyExists err then []
                                  else ["VM " +:+ vmName vm +:+ ": " +:+ errMsg err]
                    | None => []
                    end).
    { subst tr1 snapshot. unfold createFailures. simpl.
      destruct resp as [err|]; simpl; [|reflexivity].
      destruct (IsAlreadyExists err); reflexivity. }
    assert (Hfor : flat_map createdFor tr1 = [vmName vm]).
    { subst tr1 snapshot. simpl. destruct resp; reflexivity. }
    assert (Hsnap : flat_map createdSnapshot tr1 = [snapshot]).
    { subst tr1. simpl. destruct resp; reflexivity. }
    assert (Hkind : Forall (fun a => isStatusWrite a = false /\ isDelete a = false /\
                                     isVMLookup a = false) tr1).
    { subst tr1. destruct resp; repeat constructor. }
    clear Htr1 Hresp.
    set (errs' := errs ++ createFailures tr1).
    assert (Hnext : exists tr,
              createSnapshotsLoop' schedule rest errs' (log ++ tr1) =
                (Ret (errs' ++ createFailures tr), (log ++ tr1) ++ tr) /\
              flat_map createdFor tr = map vmName rest /\
              Forall (fun s => exists vm now, In vm rest /\
                                 s = buildSnapshot' schedule vm now)
                     (flat_map createdSnapshot tr) /\
              Forall (fun a => isStatusWrite a = false /\ isDelete a = false /\
                               isVMLookup a = false) tr) by apply IH.
    destruct Hnext as (tr & Hrun & Hnames & Hsnaps & Hkinds).
    exists (tr1 ++ tr).
    assert (Hgoal : match
                      match resp with
                      | Some err => if IsAlreadyExists err then None else Some err
                      | None => None
                      end
                    with
                    | Some err =>
                      createSnapshotsLoop' schedule rest
                        (errs ++ ["VM " +:+ vmName vm +:+ ": " +:+ errMsg err])
                    | None => createSnapshotsLoop' schedule rest errs
                    end = createSnapshotsLoop' schedule rest errs').
    { subst errs'. rewrite Hfail. destruct resp as [err|];
        [destruct (IsAlreadyExists err)|]; now rewrite ?app_nil_r. }
    rewrite Hgoal, Hrun. subst errs'.
    unfold createFailures in *. rewrite !flat_map_app, Hfor, Hsnap, Hnames.
    rewrite <- !app_assoc.
    repeat split; try reflexivity.
    + constructor; [exists vm, now; split; [now left|assumption]|].
      eapply Forall_impl; [exact Hsnaps|].
      intros s (vm' & now' & Hin & ->). exists vm', now'.
      split; [now right|reflexivity].
    + apply Forall_app; split; assumption.
Qed.

Lemma createScheduledSnapshots_run schedule vms log :
  exists tr,
    createScheduledSnapshots' schedule vms log =
      (Ret match createFailures tr with
           | [] => None
           | errs => Some (Errorf ("failed to create snapshots: " +:+
                                   String.concat "; " errs))
           end, log ++ tr) /\
    flat_map createdFor tr = map vmName vms /\
    Forall (fun s => exists vm now, In vm vms /\ s = buildSnapshot' schedule vm now)
           (flat_map createdSnapshot tr) /\
    Forall (fun a => isStatusWrite a = false /\ isDelete a = false /\
                     isVMLookup a = false) tr.
Proof.
  destruct (createSnapshotsLoop_run schedule vms [] log)
    as (tr & Hrun & Hnames & Hsnaps & Hkinds).
  exists tr. split; [|auto].
  unfold createScheduledSnapshots, bind. rewrite Hrun. simpl.
  destruct (createFailures tr); reflexivity.
Qed.

(** C8: a create answered with AlreadyExists makes [createSnapshotForVM]
    return nil, and the trace of the call ends with the create request: no
    event follows.  [createScheduledSnapshots] sends one create per target
    VM, in order, and returns nil when no request failed with another
    error; otherwise it returns one error whose message joins, with a
    semicolon and a space, one entry per failed request. *)
Theorem create_errors_joined_AlreadyExists_ignored
    (schedule : VirtualMachineSnapshotSchedule) (vm : VirtualMachine)
    (vms : list VirtualMachine) (log : list Action) :
  let now := clock w (length log) in
  let ns := schedNamespace schedule in
  let snapshot := buildSnapshot' schedule vm now in
  (forall err,
     createResponse w (S (length log)) ns snapshot = Some err ->
     IsAlreadyExists err = true ->
     createSnapshotForVM' schedule vm log =
       (Ret None, log ++ [ANow now; ACreate ns snapshot (Some err)])) /\
  (forall err,
     createResponse w (S (length log)) ns snapshot = Some err ->
     IsAlreadyExists err = false ->
     createSnapshotForVM' schedule vm log =
       (Ret (Some err), log ++ [ANow now; ACreate ns snapshot (Some err)])) /\
  exists tr,
    createScheduledSnapshots' schedule vms log =
      (Ret match createFailures tr with
           | [] => None
           | errs => Some (Errorf ("failed to create snapshots: " +:+
                                   String.concat "; " errs))
           end, log ++ tr) /\
    flat_map createdFor tr = map vmName vms.
Proof.
  intros now ns snapshot. split; [|split].
  - intros err Hresp Hexists. rewrite createSnapshotForVM_run.
    fold now ns snapshot. now rewrite Hresp, Hexists.
  - intros err Hresp Hexists. rewrite createSnapshotForVM_run.
    fold now ns snapshot. now rewrite Hresp, Hexists.
  - destruct (createScheduledSnapshots_run schedule vms log) as (tr & Hrun & Hfor & _).
    eauto.
Qed.

(** The name, namespace and owner reference of a built snapshot. *)
Lemma buildSnapshot_identity schedule vm now :
  let snapshot := buildSnapshot' schedule vm now in
  snapName snapshot =
    schedName schedule +:+ "-" +:+ vmName vm +:+ "-" +:+ formatTimestamp now /\
  snapNamespace snapshot = schedNamespace schedule /\
  snapOwnerReferences snapshot =
    [ {| orAPIVersion := snapshotGroupVersion;
         orKind := "VirtualMachineSnapshotSchedule";
         orName := schedName schedule;
         orUID := schedUID schedule;
         orController := Some true |} ].
Proof. repeat split. Qed.

(** The labels of a built snapshot: a template label wins over the label the
    controller put under the same key. *)
Lemma buildSnapshot_labels schedule vm now :
  exists labels,
    snapLabels (buildSnapshot' schedule vm now) = Some labels /\
    forall k,
      labels !! k =
      match templateLabels schedule !! k with
      | Some v => Some v
      | None =>
        (<[snapshotSourceNameLabel := vmName vm]>
          (<[scheduledSnapshotLabel := "true"]>
            (<[scheduleNamespaceLabel := schedNamespace schedule]>
              (<[scheduleNameLabel := schedName schedule]>
                (∅ : gmap string string))))) !! k
      end.
Proof.
  unfold buildSnapshot, templateLabels; simpl.
  destruct (spSnapshotTemplate (schedSpec schedule)) as [template|]; simpl.
  - destruct (tmplLabels template) as [labels|]; simpl.
    + eexists; split; [reflexivity|]. intros k. apply lookup_copyInto.
    + eexists; split; [reflexivity|]. intros k. now rewrite lookup_empty.
  - eexists; split; [reflexivity|]. intros k. now rewrite lookup_empty.
Qed.

(** Without a template entry under the four keys, the four labels of the
    controller are on the snapshot. *)
Lemma buildSnapshot_labels_kept schedule vm now :
  snapshotSourceNameLabel <> scheduleNameLabel ->
  snapshotSourceNameLabel <> scheduleNamespaceLabel ->
  snapshotSourceNameLabel <> scheduledSnapshotLabel ->
  templateLabels schedule !! scheduleNameLabel = None ->
  templateLabels schedule !! scheduleNamespaceLabel = None ->
  templateLabels schedule !! scheduledSnapshotLabel = None ->
  templateLabels schedule !! snapshotSourceNameLabel = None ->
  exists labels,
    snapLabels (buildSnapshot' schedule vm now) = Some labels /\
    labels !! scheduleNameLabel = Some (schedName schedule) /\
    labels !! scheduleNamespaceLabel = Some (schedNamespace schedule) /\
    labels !! scheduledSnapshotLabel = Some "true" /\
    labels !! snapshotSourceNameLabel = Some (vmName vm).
Proof.
  intros H1 H2 H3 T1 T2 T3 T4.
  destruct (buildSnapshot_labels schedule vm now) as (labels & Hl & Hk).
  exists labels. split; [exact Hl|].
  rewrite !Hk, T1, T2, T3, T4.
  repeat split.
  - rewrite lookup_insert_ne by assumption.
    rewrite !lookup_insert_ne by discriminate. apply lookup_insert_eq.
  - rewrite lookup_insert_ne by assumption.
    rewrite lookup_insert_ne by discriminate. apply lookup_insert_eq.
  - rewrite lookup_insert_ne by assumption. apply lookup_insert_eq.
  - apply lookup_insert_eq.
Qed.

(** C5 on the code: the template labels are copied over the labels of the
    controller, so a template entry under the key of the schedule-name label
    replaces the name of the schedule on every created snapshot. *)
Theorem template_label_overrides_schedule_name
    (schedule : VirtualMachineSnapshotSchedule) (vms : list VirtualMachine)
    (log : list Action) (v : string) :
  templateLabels schedule !! scheduleNameLabel = Some v ->
  exists tr,
    snd (createScheduledSnapshots' schedule vms log) = log ++ tr /\
    flat_map createdFor tr = map vmName vms /\
    Forall (fun s => exists labels, snapLabels s = Some labels /\
                       labels !! scheduleNameLabel = Some v)
           (flat_map createdSnapshot tr).
Proof.
  intros Hv.
  destruct (createScheduledSnapshots_run schedule vms log)
    as (tr & Hrun & Hfor & Hsnaps & _).
  exists tr. rewrite Hrun. split; [reflexivity|]. split; [exact Hfor|].
  eapply Forall_impl; [exact Hsnaps|].
  intros s (vm & now & _ & ->).
  destruct (buildSnapshot_labels schedule vm now) as (labels & Hl & Hk).
  exists labels. split; [exact Hl|]. now rewrite Hk, Hv.
Qed.

(** C9, as the code has it: every snapshot the reconciler asks the server to
    create carries the failure deadline of the template, and none when the
    template is missing or omits it; the five-minute default is not written
    into the snapshot. *)
Theorem created_snapshot_failureDeadline_from_template
    (schedule : VirtualMachineSnapshotSchedule) (vms : list VirtualMachine)
    (log : list Action) :
  exists tr,
    snd (createScheduledSnapshots' schedule vms log) = log ++ tr /\
    flat_map createdFor tr = map vmName vms /\
    Forall (fun s => specFailureDeadline (snapSpec s) =
                     templateFailureDeadline schedule)
           (flat_map createdSnapshot tr).
Proof.
  destruct (createScheduledSnapshots_run schedule vms log)
    as (tr & Hrun & Hfor & Hsnaps & _).
  exists tr. rewrite Hrun. split; [reflexivity|]. split; [exact Hfor|].
  eapply Forall_impl; [exact Hsnaps|].
  intros s (vm & now & _ & ->).
  unfold buildSnapshot, templateFailureDeadline; simpl.
  destruct (spSnapshotTemplate (schedSpec schedule)) as [template|]; [|reflexivity].
  now destruct (tmplFailureDeadline template).
Qed.

End Creation.

(** The create theorem where the server answers AlreadyExists. *)
Lemma create_errors_joined_AlreadyExists_ignored_witness :
  Demo.createSnapshotForVM (Demo.worldCreateFails Demo.s1 Demo.alreadyExists)
    Demo.s1 Demo.vmA [] =
  (Ret None,
   [ANow Demo.T0;
    ACreate "default" (Demo.buildSnapshot Demo.s1 Demo.vmA Demo.T0)
      (Some Demo.alreadyExists)]).
Proof.
  apply (proj1 (create_errors_joined_AlreadyExists_ignored
                  Demo.snapshotSourceNameLabel Demo.kubevirtGroup
                  Demo.snapshotGroupVersion
                  (Demo.worldCreateFails Demo.s1 Demo.alreadyExists)
                  Demo.s1 Demo.vmA [Demo.vmA] [])); reflexivity.
Defined.

(** Two target VMs and a server that answers every create with a 500. *)
Example createScheduledSnapshots_joins_two_failures :
  fst (Demo.createScheduledSnapshots
         (Demo.worldCreateFails Demo.s1 Demo.internalError)
         Demo.s1 [Demo.vmA; Demo.vmA] []) =
  Ret (Some (Errorf "failed to create snapshots: VM vmA: Internal error occurred: 500; VM vmA: Internal error occurred: 500")).
Proof. vm_compute. reflexivity. Qed.

(** The label theorem at a template that sets the schedule-name label to
    other: the snapshot created for schedule s1 carries other. *)
Lemma template_label_overrides_schedule_name_witness :
  schedName Demo.s8 = "s1" /\
  exists tr,
    snd (Demo.createScheduledSnapshots (Demo.world Demo.s8 []) Demo.s8
           [Demo.vmA] []) = tr /\
    Forall (fun s => exists labels, snapLabels s = Some labels /\
                       labels !! scheduleNameLabel = Some "other")
           (flat_map createdSnapshot tr).
Proof.
  split; [reflexivity|].
  destruct (template_label_overrides_schedule_name
              Demo.snapshotSourceNameLabel Demo.kubevirtGroup
              Demo.snapshotGroupVersion (Demo.world Demo.s8 []) Demo.s8
              [Demo.vmA] [] "other") as (tr & Hrun & _ & Hlabels).
  - apply lookup_singleton_eq.
  - exists tr. split; [exact Hrun|exact Hlabels].
Defined.

(** C9 as stated fails: schedule s1 has no template, and the snapshot created
    for it has no failure deadline, where the claim expects five minutes. *)
Lemma snapshot_without_template_has_no_failureDeadline :
  spSnapshotTemplate (schedSpec Demo.s1) = None /\
  map (fun s => specFailureDeadline (snapSpec s))
      (flat_map createdSnapshot
         (snd (Demo.createScheduledSnapshots (Demo.world Demo.s1 []) Demo.s1
                 [Demo.vmA] []))) = [None] /\
  None <> Some DefaultFailureDeadline.
Proof. repeat split. discriminate. Qed.

(** ** Selecting snapshots *)

Lemma int32_wrap_succ (x : Z) : int32_wrap (int32_wrap x + 1) = int32_wrap (x + 1).
Proof.
  unfold int32_wrap.
  replace ((x + 2 ^ 31) mod 2 ^ 32 - 2 ^ 31 + 1 + 2 ^ 31)
    with ((x + 2 ^ 31) mod 2 ^ 32 + 1) by lia.
  rewrite Zplus_mod_idemp_l. f_equal. f_equal. lia.
Qed.

Lemma int32_wrap_small (x : Z) : - 2 ^ 31 <= x < 2 ^ 31 -> int32_wrap x = x.
Proof.
  intros H. unfold int32_wrap. rewrite Z.mod_small; lia.
Qed.

Section Selection.

Variable snapshotSourceNameLabel : string.

Lemma scheduledSnapshotsForVM_filter schedule vm objs :
  scheduledSnapshotsForVM snapshotSourceNameLabel schedule vm objs =
  List.filter (belongsToVM snapshotSourceNameLabel schedule vm) (storedSnapshots objs).
Proof.
  induction objs as [|o rest IH]; [reflexivity|].
  destruct o as [vm'|s|sched'|n]; simpl; try exact IH.
  unfold belongsToVM, belongsToSchedule, labelIs.
  destruct (String.eqb (snapNamespace s) (schedNamespace schedule)); simpl; [|exact IH].
  destruct (snapLabels s) as [labels|]; simpl; [|exact IH].
  destruct (String.eqb (mapIndex labels scheduleNameLabel) (schedName schedule));
    simpl; [|exact IH].
  destruct (String.eqb (mapIndex labels snapshotSourceNameLabel) (vmName vm));
    simpl; [|exact IH].
  now rewrite IH.
Qed.

Lemma countSnapshots_filter schedule objs :
  forall c,
  countSnapshots schedule objs (int32_wrap c) =
  int32_wrap (c + Z.of_nat (length (List.filter (belongsToSchedule schedule)
                                                (storedSnapshots objs)))).
Proof.
  induction objs as [|o rest IH]; intros c.
  - simpl. now rewrite Z.add_0_r.
  - destruct o as [vm'|s|sched'|n]; try (simpl; apply IH).
    change (storedSnapshots (ObjSnapshot s :: rest)) with (s :: storedSnapshots rest).
    cbn [List.filter countSnapshots].
    unfold belongsToSchedule at 1, labelIs.
    destruct (String.eqb (snapNamespace s) (schedNamespace schedule));
      cbn [negb andb]; [|apply IH].
    destruct (snapLabels s) as [labels|]; [|apply IH].
    destruct (String.eqb (mapIndex labels scheduleNameLabel) (schedName schedule));
      [|apply IH].
    rewrite int32_wrap_succ, IH. f_equal. cbn [length]. lia.
Qed.

(** Below 2^31 selected snapshots the count is their number. *)
Lemma countSnapshots_exact schedule objs :
  (length (List.filter (belongsToSchedule schedule) (storedSnapshots objs))
   < 2 ^ 31)%nat ->
  countSnapshots schedule objs 0 =
  Z.of_nat (length (List.filter (belongsToSchedule schedule) (storedSnapshots objs))).
Proof.
  intros Hlt. change 0 with (int32_wrap 0) at 1.
  rewrite countSnapshots_filter. apply int32_wrap_small.
  apply Nat2Z.inj_lt in Hlt. rewrite Nat2Z.inj_pow in Hlt. simpl Z.of_nat in Hlt. lia.
Qed.

Variable w : World.

(** C10: both [getScheduledSnapshotsForVM] and [countSnapshotsForSchedule]
    list the snapshot store once and return without error.  Retention gets,
    in store order, exactly the stored snapshots in the namespace of the
    schedule whose schedule-name label is the name of the schedule and whose
    source-name label is the name of the VM; the count is the number (as an
    int32) of the stored snapshots that pass the same test without the
    source-name label.  Nothing else of a snapshot is read: one that
    carries the labels is selected and counted whatever its owner
    references, its other labels and the rest of it. *)
Theorem snapshots_selected_by_labels_only
    (schedule : VirtualMachineSnapshotSchedule) (vm : VirtualMachine)
    (log : list Action) :
  let selected := List.filter (belongsToVM snapshotSourceNameLabel schedule vm)
                              (storedSnapshots (snapshotStoreList w)) in
  let counted := List.filter (belongsToSchedule schedule)
                             (storedSnapshots (snapshotStoreList w)) in
  getScheduledSnapshotsForVM snapshotSourceNameLabel w schedule vm log =
    (Ret (selected, None), log ++ [ASnapshotList]) /\
  countSnapshotsForSchedule w schedule log =
    (Ret (int32_wrap (Z.of_nat (length counted)), None), log ++ [ASnapshotList]) /\
  (forall s,
     In s selected <->
     In (ObjSnapshot s) (snapshotStoreList w) /\
     snapNamespace s = schedNamespace schedule /\
     exists labels,
       snapLabels s = Some labels /\
       mapIndex labels scheduleNameLabel = schedName schedule /\
       mapIndex labels snapshotSourceNameLabel = vmName vm) /\
  (forall s,
     In s counted <->
     In (ObjSnapshot s) (snapshotStoreList w) /\
     snapNamespace s = schedNamespace schedule /\
     exists labels,
       snapLabels s = Some labels /\
       mapIndex labels scheduleNameLabel = schedName schedule) /\
  (forall s s',
     snapNamespace s = snapNamespace s' ->
     snapLabels s = snapLabels s' ->
     belongsToSchedule schedule s = belongsToSchedule schedule s' /\
     belongsToVM snapshotSourceNameLabel schedule vm s =
       belongsToVM snapshotSourceNameLabel schedule vm s').
Proof.
  intros selected counted.
  assert (Hstored : forall s objs,
            In s (storedSnapshots objs) <-> In (ObjSnapshot s) objs).
  { intros s objs. unfold storedSnapshots. rewrite in_flat_map. split.
    - intros ([vm'|s'|sch|n] & Hin & Hs); simpl in Hs; try contradiction.
      destruct Hs as [->|[]]. exact Hin.
    - intros Hin. exists (ObjSnapshot s). simpl. auto. }
  split; [|split; [|split; [|split]]].
  - unfold getScheduledSnapshotsForVM, SnapshotStore_List, bind, emit, ret.
    simpl. now rewrite scheduledSnapshotsForVM_filter.
  - unfold countSnapshotsForSchedule, SnapshotStore_List, bind, emit, ret.
    simpl. change 0 with (int32_wrap 0) at 1.
    now rewrite countSnapshots_filter.
  - intros s. subst selected. rewrite filter_In, Hstored.
    unfold belongsToVM, belongsToSchedule, labelIs.
    rewrite !andb_true_iff, String.eqb_eq.
    split.
    + intros (Ho & (Hns & Hl1) & Hl2).
      split; [exact Ho|]. split; [exact Hns|].
      destruct (snapLabels s) as [labels|]; [|discriminate].
      exists labels. rewrite String.eqb_eq in Hl1, Hl2. auto.
    + intros (Ho & Hns & labels & Hl & H1 & H2).
      split; [exact Ho|]. rewrite Hl, !String.eqb_eq. auto.
  - intros s. subst counted. rewrite filter_In, Hstored.
    unfold belongsToSchedule, labelIs.
    rewrite !andb_true_iff, String.eqb_eq.
    split.
    + intros (Ho & Hns & Hl1).
      split; [exact Ho|]. split; [exact Hns|].
      destruct (snapLabels s) as [labels|]; [|discriminate].
      exists labels. rewrite String.eqb_eq in Hl1. auto.
    + intros (Ho & Hns & labels & Hl & H1).
      split; [exact Ho|]. rewrite Hl, String.eqb_eq. auto.
  - intros s s' Hns Hl.
    unfold belongsToVM, belongsToSchedule, labelIs. now rewrite Hns, Hl.
Qed.

End Selection.

(** A hand-made snapshot with the two labels, without owner reference and
    without the scheduled label, is selected for retention and counted. *)
Example hand_made_snapshot_is_selected :
  snapOwnerReferences Demo.handMade = [] /\
  scheduledSnapshotsForVM Demo.snapshotSourceNameLabel Demo.s1 Demo.vmA
    [ObjSnapshot Demo.handMade] = [Demo.handMade] /\
  countSnapshots Demo.s1 [ObjSnapshot Demo.handMade] 0 = 1.
Proof. repeat split. Qed.

(** ** Retention: the list of snapshots to delete *)

Lemma NoDup_map_eq {A B} (f : A -> B) (l : list A) (a b : A) :
  NoDup (map f l) -> In a l -> In b l -> f a = f b -> a = b.
Proof.
  induction l as [|x l IH]; simpl; [tauto|].
  intros Hnd Ha Hb Hf. apply NoDup_cons in Hnd as [Hx Hnd].
  rewrite list_elem_of_In in Hx.
  destruct Ha as [->|Ha], Hb as [->|Hb]; auto.
  - exfalso. apply Hx. rewrite Hf. now apply in_map.
  - exfalso. apply Hx. rewrite <- Hf. now apply in_map.
Qed.

Lemma filter_complement_Permutation {A} (f : A -> bool) (l : list A) :
  Permutation (List.filter f l ++ List.filter (fun x => negb (f x)) l) l.
Proof.
  induction l as [|x l IH]; simpl; [constructor|].
  destruct (f x); simpl.
  - now constructor.
  - rewrite <- Permutation_middle. now constructor.
Qed.

Lemma StronglySorted_List_filter {A} (R : A -> A -> Prop) (f : A -> bool) l :
  StronglySorted R l -> StronglySorted R (List.filter f l).
Proof.
  induction 1 as [|x l Hs IH Hx]; simpl; [constructor|].
  destruct (f x); [|exact IH].
  constructor; [exact IH|].
  rewrite Forall_forall in *. intros y Hy.
  apply Hx. rewrite list_elem_of_In in *. apply filter_In in Hy. tauto.
Qed.

Lemma nameFound_true s l :
  nameFound s l = true <-> exists d, In d l /\ snapName s = snapName d.
Proof.
  unfold nameFound. rewrite existsb_exists.
  split; intros (d & Hd & Hn); exists d; split; auto; now apply String.eqb_eq.
Qed.

Lemma nameFound_In (snapshots deleted : list VirtualMachineSnapshot) s :
  NoDup (map snapName snapshots) ->
  In s snapshots -> incl deleted snapshots ->
  nameFound s deleted = true <-> In s deleted.
Proof.
  intros Hnd Hs Hincl. rewrite nameFound_true. split.
  - intros (d & Hd & Hn).
    now rewrite (NoDup_map_eq snapName snapshots s d Hnd Hs (Hincl d Hd) Hn).
  - intros Hin. now exists s.
Qed.

Lemma appendNotFound_app (toDelete acc : list VirtualMachineSnapshot) :
  NoDup (map snapName (acc ++ toDelete)) ->
  appendNotFound toDelete acc = acc ++ toDelete.
Proof.
  unfold appendNotFound. revert acc.
  induction toDelete as [|s rest IH]; intros acc Hnd; simpl.
  - now rewrite app_nil_r.
  - assert (Hnf : nameFound s acc = false).
    { apply not_true_is_false. rewrite nameFound_true. intros (d & Hd & Hn).
      rewrite map_app in Hnd. simpl in Hnd.
      apply NoDup_app in Hnd as (_ & Hdisj & _).
      apply (Hdisj (snapName d)).
      - apply list_elem_of_In. now apply in_map.
      - rewrite <- Hn. now left. }
    rewrite Hnf. rewrite IH.
    + now rewrite <- app_assoc.
    + now rewrite <- app_assoc.
Qed.

Section RetentionRules.

Variable retention : VirtualMachineSnapshotScheduleRetention.
Variable now : Z.
Variable snapshots : list VirtualMachineSnapshot.
Hypothesis names_unique : NoDup (map snapName snapshots).

Lemma ageExpired_incl : incl (ageExpired retention now snapshots) snapshots.
Proof.
  unfold ageExpired. destruct (retExpires retention); intros s Hs.
  - apply filter_In in Hs. tauto.
  - destruct Hs.
Qed.

Lemma remaining_is_remainingAfterAge :
  List.filter (fun s => negb (nameFound s (ageExpired retention now snapshots)))
              snapshots =
  remainingAfterAge retention now snapshots.
Proof.
  unfold remainingAfterAge.
  destruct (retExpires retention) as [expires|] eqn:Hexp.
  - apply filter_ext_in. intros s Hs. f_equal.
    apply eq_true_iff_eq. rewrite (nameFound_In snapshots); auto using ageExpired_incl.
    unfold ageExpired. rewrite Hexp, filter_In. tauto.
  - unfold ageExpired. rewrite Hexp. simpl.
    induction snapshots as [|s l IH]; simpl; [reflexivity|].
    f_equal. apply IH. simpl in names_unique.
    now apply NoDup_cons in names_unique as [_ ?].
Qed.

Lemma ageExpired_remaining_Permutation :
  Permutation (ageExpired retention now snapshots ++
               remainingAfterAge retention now snapshots) snapshots.
Proof.
  unfold ageExpired, remainingAfterAge.
  destruct (retExpires retention); [apply filter_complement_Permutation|reflexivity].
Qed.

Lemma names_unique_ageExpired_firstn n :
  NoDup (map snapName (ageExpired retention now snapshots ++
                       firstn n (remainingAfterAge retention now snapshots))).
Proof.
  assert (H : NoDup (map snapName
                       (ageExpired retention now snapshots ++
                        remainingAfterAge retention now snapshots))).
  { pose proof (Permutation_map snapName ageExpired_remaining_Permutation) as HP.
    rewrite HP. exact names_unique. }
  rewrite <- (firstn_skipn n (remainingAfterAge retention now snapshots)) in H.
  rewrite app_assoc, map_app in H.
  apply NoDup_app in H. tauto.
Qed.

(** The list the code computes is the age-expired snapshots followed by the
    oldest remaining ones beyond [maxCount]. *)
Lemma snapshotsToDelete_rules :
  (forall maxCount, retMaxCount retention = Some maxCount -> 0 <= maxCount) ->
  snapshotsToDelete retention now snapshots =
  Some (ageExpired retention now snapshots ++
        overCount retention (remainingAfterAge retention now snapshots)).
Proof.
  intros Hmax. unfold snapshotsToDelete, overCount.
  fold (ageExpired retention now snapshots).
  destruct (retMaxCount retention) as [maxCount|]; [|now rewrite app_nil_r].
  specialize (Hmax maxCount eq_refl).
  rewrite remaining_is_remainingAfterAge.
  destruct (Z.ltb_spec maxCount
              (Z.of_nat (length (remainingAfterAge retention now snapshots))))
    as [Hlt|Hge].
  - destruct (Z.ltb_spec maxCount 0) as [Hneg|_]; [lia|].
    f_equal. apply appendNotFound_app, names_unique_ageExpired_firstn.
  - replace (length (remainingAfterAge retention now snapshots) - Z.to_nat maxCount)%nat
      with 0%nat by lia.
    now rewrite app_nil_r.
Qed.

(** With a negative [maxCount] the pass panics. *)
Lemma snapshotsToDelete_negative_maxCount maxCount :
  retMaxCount retention = Some maxCount -> maxCount < 0 ->
  snapshotsToDelete retention now snapshots = None.
Proof.
  intros Hmax Hneg. unfold snapshotsToDelete. rewrite Hmax.
  destruct (Z.ltb_spec maxCount
    (Z.of_nat (length (List.filter
       (fun s => negb (nameFound s
          match retExpires retention with
          | Some expireDuration => List.filter (expired now expireDuration) snapshots
          | None => []
          end)) snapshots)))) as [_|Hge]; [|lia].
  destruct (Z.ltb_spec maxCount 0); [reflexivity|lia].
Qed.

(** In a sorted list, the snapshots deleted by the count rule are no younger
    than the remaining ones that are kept. *)
Lemma overCount_oldest :
  StronglySorted (fun a b => creationBefore b a = false) snapshots ->
  forall d k,
    In d (overCount retention (remainingAfterAge retention now snapshots)) ->
    In k (remainingAfterAge retention now snapshots) ->
    ~ In k (overCount retention (remainingAfterAge retention now snapshots)) ->
    snapCreationTimestamp d <= snapCreationTimestamp k.
Proof.
  intros Hsorted d k Hd Hk Hnk.
  assert (Hrem : StronglySorted (fun a b => creationBefore b a = false)
                   (remainingAfterAge retention now snapshots)).
  { unfold remainingAfterAge. destruct (retExpires retention); [|exact Hsorted].
    now apply StronglySorted_List_filter. }
  unfold overCount in *. destruct (retMaxCount retention) as [maxCount|]; [|destruct Hd].
  set (rem := remainingAfterAge retention now snapshots) in *.
  set (n := (length rem - Z.to_nat maxCount)%nat) in *.
  rewrite <- (firstn_skipn n rem) in Hrem, Hk.
  apply in_app_or in Hk as [Hk|Hk]; [contradiction|].
  assert (H : creationBefore k d = false).
  { eapply (StronglySorted_app_1_elem_of _ _ _ _ _ Hrem); now apply list_elem_of_In. }
  unfold creationBefore, time_Before in H. lia.
Qed.

End RetentionRules.

(** ** Insertion sort meets the contract of [sort.Slice] *)

Section InsertionSortContract.

Context {A : Type} (less : A -> A -> bool).
Hypothesis less_asym : forall a b, less a b = true -> less b a = false.
Hypothesis not_less_trans :
  forall a b c, less a b = false -> less b c = false -> less a c = false.

Lemma sinkLeft_Permutation x l : Permutation (sinkLeft less x l) (x :: l).
Proof.
  induction l as [|y rest IH]; simpl; [reflexivity|].
  destruct (less x y); [|reflexivity].
  rewrite IH. apply perm_swap.
Qed.

Lemma sinkLeft_descending x l :
  StronglySorted (fun a b => less a b = false) l ->
  StronglySorted (fun a b => less a b = false) (sinkLeft less x l).
Proof.
  induction 1 as [|y rest Hs IH Hy]; simpl; [repeat constructor|].
  destruct (less x y) eqn:Hxy.
  - constructor; [exact IH|].
    rewrite (sinkLeft_Permutation x rest). constructor; [|exact Hy].
    now apply less_asym.
  - constructor; [now constructor|].
    constructor; [exact Hxy|].
    eapply Forall_impl; [exact Hy|]. intros r Hr. now apply (not_less_trans x y r).
Qed.

Lemma insertion_loop_Permutation l :
  forall acc,
    Permutation (fold_left (fun revPrefix x => sinkLeft less x revPrefix) l acc)
                (l ++ acc).
Proof.
  induction l as [|x rest IH]; intros acc; simpl; [reflexivity|].
  rewrite IH, sinkLeft_Permutation. symmetry. apply Permutation_middle.
Qed.

Lemma insertion_loop_descending l :
  forall acc,
    StronglySorted (fun a b => less a b = false) acc ->
    StronglySorted (fun a b => less a b = false)
      (fold_left (fun revPrefix x => sinkLeft less x revPrefix) l acc).
Proof.
  induction l as [|x rest IH]; intros acc Hacc; simpl; [exact Hacc|].
  apply IH, sinkLeft_descending, Hacc.
Qed.

Lemma StronglySorted_rev_flip (R : A -> A -> Prop) l :
  StronglySorted R l -> StronglySorted (fun a b => R b a) (rev l).
Proof.
  induction 1 as [|x l Hs IH Hx]; simpl; [constructor|].
  apply StronglySorted_app_2; [|exact IH|repeat constructor].
  intros x1 x2 H1 H2. apply list_elem_of_singleton in H2 as ->.
  rewrite Forall_forall in Hx. apply Hx.
  rewrite list_elem_of_In in *. now apply in_rev.
Qed.

Lemma insertionSort_Permutation l : Permutation (insertionSort less l) l.
Proof.
  unfold insertionSort. rewrite <- Permutation_rev, insertion_loop_Permutation.
  now rewrite app_nil_r.
Qed.

Lemma insertionSort_sorted l :
  StronglySorted (fun a b => less b a = false) (insertionSort less l).
Proof.
  unfold insertionSort.
  apply (StronglySorted_rev_flip (fun a b => less a b = false)).
  apply insertion_loop_descending. constructor.
Qed.

End InsertionSortContract.

Lemma insertionSort_sortContract : sortContract (@insertionSort _).
Proof.
  split; intros l.
  - apply insertionSort_Permutation.
  - apply insertionSort_sorted; unfold creationBefore, time_Before; intros; lia.
Qed.

(** ** Retention: the requests *)

Section RetentionPass.

Variable sortSlice :
  (VirtualMachineSnapshot -> VirtualMachineSnapshot -> bool) ->
  list VirtualMachineSnapshot -> list VirtualMachineSnapshot.
Variable snapshotSourceNameLabel : string.
Variable w : World.

Local Abbreviation applyRetentionForVM' :=
  (applyRetentionForVM sortSlice snapshotSourceNameLabel w).
Local Abbreviation applyRetentionPolicy' :=
  (applyRetentionPolicy sortSlice snapshotSourceNameLabel w).

(** One delete request per snapshot of the list, in order. *)
Lemma deleteSnapshots_run l :
  forall log,
  exists tr,
    deleteSnapshots w l log = (Ret tt, log ++ tr) /\
    deleteRequests tr = map requestFor l /\
    Forall (fun a => isCreate a = false /\ isStatusWrite a = false /\
                     isVMLookup a = false) tr.
Proof.
  induction l as [|s rest IH]; intros log.
  - exists []. simpl. unfold ret. rewrite app_nil_r. repeat split. constructor.
  - simpl. unfold bind at 1. unfold Client_Delete at 1.
    set (resp := deleteResponse w (length log) (snapNamespace s) (snapName s)).
    set (ev := AEvent EventTypeNormal scheduleDeleteSnapshotEvent
                 ("Deleted snapshot " +:+ snapName s +:+ " due to retention policy")).
    set (d := ADelete (snapNamespace s) (snapName s) resp).
    assert (Hstep : exists tr1,
              (forall log1,
                 (match resp with
                  | Some err => if negb (IsNotFound err) then ret tt
                                else Event EventTypeNormal scheduleDeleteSnapshotEvent
                                       ("Deleted snapshot " +:+ snapName s +:+
                                        " due to retention policy")
                  | None => Event EventTypeNormal scheduleDeleteSnapshotEvent
                              ("Deleted snapshot " +:+ snapName s +:+
                               " due to retention policy")
                  end) log1 = (Ret tt, log1 ++ tr1)) /\
              (tr1 = [] \/ tr1 = [ev])).
    { destruct resp as [err|]; [destruct (IsNotFound err)|]; simpl.
      - exists [ev]. split; [reflexivity|now right].
      - exists []. split; [intros; unfold ret; now rewrite app_nil_r|now left].
      - exists [ev]. split; [reflexivity|now right]. }
    destruct Hstep as (tr1 & Hstep & Htr1).
    unfold bind. rewrite Hstep.
    destruct (IH ((log ++ [d]) ++ tr1)) as (tr & Hrun & Hreq & Hkind).
    exists ([d] ++ tr1 ++ tr). rewrite Hrun.
    split; [now rewrite <- !app_assoc|].
    split.
    + unfold deleteRequests in *. rewrite !flat_map_app, Hreq.
      destruct Htr1 as [->| ->]; reflexivity.
    + apply Forall_app; split; [repeat constructor|].
      apply Forall_app; split; [|exact Hkind].
      destruct Htr1 as [->| ->]; repeat constructor.
Qed.

(** Whatever the store and the retention settings, a retention pass for one
    VM sends no create request, writes no status and looks up no VM; with a
    non-negative [maxCount] it returns nil. *)
Lemma applyRetentionForVM_trace schedule vm log :
  exists tr,
    snd (applyRetentionForVM' schedule vm log) = log ++ tr /\
    Forall (fun a => isCreate a = false /\ isStatusWrite a = false /\
                     isVMLookup a = false) tr /\
    (spRetention (schedSpec schedule) <> None ->
     maxCountNonNegative schedule ->
     fst (applyRetentionForVM' schedule vm log) = Ret None).
Proof.
  unfold applyRetentionForVM, getScheduledSnapshotsForVM, SnapshotStore_List,
    bind, emit, ret, Now, panic; simpl.
  destruct (length (scheduledSnapshotsForVM _ _ _ _) =? 0)%nat; simpl.
  { exists [ASnapshotList]. split; [reflexivity|]. split; [repeat constructor|auto]. }
  destruct (spRetention (schedSpec schedule)) as [retention|] eqn:Hret; simpl.
  2:{ eexists. rewrite <- app_assoc. split; [reflexivity|].
      split; [repeat constructor|]. intros Hsome. congruence. }
  destruct (snapshotsToDelete _ _ _) as [toDelete|] eqn:Hdel; simpl.
  2:{ eexists. rewrite <- app_assoc. split; [reflexivity|].
      split; [repeat constructor|]. intros _ Hok. exfalso.
      unfold snapshotsToDelete in Hdel.
      destruct (retMaxCount retention) as [maxCount|] eqn:Hmax; [|discriminate].
      specialize (Hok retention maxCount Hret Hmax).
      destruct (_ <? Z.of_nat _); [|discriminate].
      destruct (Z.ltb_spec maxCount 0); [lia|discriminate]. }
  match goal with
  | |- context [deleteSnapshots w toDelete ?l] =>
    destruct (deleteSnapshots_run toDelete l) as (tr & Hrun & _ & Hkind)
  end.
  rewrite Hrun. simpl. eexists. rewrite <- !app_assoc.
  split; [reflexivity|]. simpl.
  split; [|reflexivity]. repeat (constructor; [repeat split|]). exact Hkind.
Qed.

Lemma applyRetentionLoop_trace schedule vms :
  forall log,
  exists tr,
    snd (applyRetentionLoop sortSlice snapshotSourceNameLabel w schedule vms log) =
      log ++ tr /\
    Forall (fun a => isCreate a = false /\ isStatusWrite a = false /\
                     isVMLookup a = false) tr /\
    (spRetention (schedSpec schedule) <> None ->
     maxCountNonNegative schedule ->
     fst (applyRetentionLoop sortSlice snapshotSourceNameLabel w schedule vms log) =
       Ret tt).
Proof.
  induction vms as [|vm rest IH]; intros log; simpl.
  - exists []. unfold ret. simpl. rewrite app_nil_r.
    split; [reflexivity|]. split; [constructor|reflexivity].
  - destruct (applyRetentionForVM_trace schedule vm log) as (tr1 & Hrun1 & Hkind1 & Hok1).
    unfold bind.
    destruct (applyRetentionForVM' schedule vm log) as [[r|] log1]; simpl in *; subst log1.
    + destruct (IH (log ++ tr1)) as (tr & Hrun & Hkind & Hok).
      exists (tr1 ++ tr). rewrite Hrun, <- app_assoc.
      split; [reflexivity|]. split; [apply Forall_app; split; assumption|exact Hok].
    + exists tr1. split; [reflexivity|]. split; [assumption|].
      intros H H'. specialize (Hok1 H H'). discriminate Hok1.
Qed.

Lemma applyRetentionPolicy_trace schedule vms log :
  exists tr,
    snd (applyRetentionPolicy' schedule vms log) = log ++ tr /\
    Forall (fun a => isCreate a = false /\ isStatusWrite a = false /\
                     isVMLookup a = false) tr /\
    (maxCountNonNegative schedule ->
     fst (applyRetentionPolicy' schedule vms log) = Ret None).
Proof.
  unfold applyRetentionPolicy.
  destruct (spRetention (schedSpec schedule)) eqn:Hret.
  - destruct (applyRetentionLoop_trace schedule vms log) as (tr & Hrun & Hkind & Hok).
    exists tr. unfold bind.
    destruct (applyRetentionLoop _ _ _ _ _ _) as [[r|] log1]; simpl in *.
    + auto.
    + split; [assumption|]. split; [assumption|].
      intros H. rewrite Hret in Hok. specialize (Hok ltac:(discriminate) H).
      discriminate Hok.
  - exists []. unfold ret. simpl. rewrite app_nil_r.
    split; [reflexivity|]. split; [constructor|reflexivity].
Qed.

(** C2: for a VM whose selected snapshots have distinct names, with a
    non-negative [maxCount], the retention pass returns nil and its delete
    requests are, in order, the age-expired snapshots followed by the oldest
    [|remaining| - maxCount] of the remaining ones.  No snapshot deleted by
    the count rule is younger than a remaining one that is kept.  With
    [maxCount = N] and no [expires], the requests are for the first
    [|snapshots| - N] of the sorted snapshots, and at most [N] are left
    without a request. *)
Theorem retention_deletes_expired_and_oldest_over_count
    (schedule : VirtualMachineSnapshotSchedule) (vm : VirtualMachine)
    (retention : VirtualMachineSnapshotScheduleRetention) (log : list Action) :
  sortContract sortSlice ->
  spRetention (schedSpec schedule) = Some retention ->
  (forall maxCount, retMaxCount retention = Some maxCount -> 0 <= maxCount) ->
  let selected :=
    scheduledSnapshotsForVM snapshotSourceNameLabel schedule vm
                            (snapshotStoreList w) in
  NoDup (map snapName selected) ->
  let snapshots := sortSlice creationBefore selected in
  let now := clock w (S (length log)) in
  let expiredOnes := ageExpired retention now snapshots in
  let remaining := remainingAfterAge retention now snapshots in
  let oldest := overCount retention remaining in
  exists tr,
    applyRetentionForVM' schedule vm log = (Ret None, log ++ tr) /\
    deleteRequests tr = map requestFor (expiredOnes ++ oldest) /\
    (forall d k, In d oldest -> In k remaining -> ~ In k oldest ->
       snapCreationTimestamp d <= snapCreationTimestamp k) /\
    (forall N, retExpires retention = None -> retMaxCount retention = Some N ->
       expiredOnes ++ oldest = firstn (length snapshots - Z.to_nat N) snapshots /\
       Z.of_nat (length snapshots) - Z.of_nat (length (deleteRequests tr)) <= N).
Proof.
  intros [Hperm Hsorted] Hret Hmax selected Hnames snapshots now
    expiredOnes remaining oldest.
  assert (Hnames' : NoDup (map snapName snapshots)).
  { subst snapshots. now rewrite (Permutation_map snapName (Hperm selected)). }
  assert (Hrules := snapshotsToDelete_rules retention now snapshots Hnames' Hmax).
  fold expiredOnes remaining oldest in Hrules.
  assert (Hlen : length snapshots = length selected).
  { subst snapshots. apply Permutation_length, Hperm. }
  assert (Hrun : exists tr,
             applyRetentionForVM' schedule vm log = (Ret None, log ++ tr) /\
             deleteRequests tr = map requestFor (expiredOnes ++ oldest)).
  { unfold applyRetentionForVM, getScheduledSnapshotsForVM, SnapshotStore_List,
      bind, emit, ret, Now; simpl. fold selected.
    destruct (Nat.eqb_spec (length selected) 0) as [Hzero|Hpos].
    - exists [ASnapshotList]. split; [reflexivity|].
      assert (Hnil : snapshots = []) by (apply length_zero_iff_nil; lia).
      subst expiredOnes oldest remaining. rewrite Hnil.
      unfold ageExpired, remainingAfterAge, overCount.
      destruct (retExpires retention), (retMaxCount retention); simpl;
        rewrite ?firstn_nil; reflexivity.
    - rewrite Hret. rewrite length_app, Nat.add_comm. simpl. fold snapshots now.
      rewrite Hrules.
      match goal with
      | |- context [deleteSnapshots w ?l ?lg] =>
        destruct (deleteSnapshots_run l lg) as (tr & Hdel & Hreq & _)
      end.
      rewrite Hdel. exists ([ASnapshotList; ANow now] ++ tr).
      rewrite <- !app_assoc. split; [reflexivity|exact Hreq]. }
  destruct Hrun as (tr & Hrun & Hreq).
  exists tr. split; [exact Hrun|]. split; [exact Hreq|]. split.
  - apply overCount_oldest, Hsorted.
  - intros N Hexp HN.
    assert (Heq : expiredOnes ++ oldest =
                  firstn (length snapshots - Z.to_nat N) snapshots).
    { subst expiredOnes oldest remaining.
      unfold ageExpired, remainingAfterAge, overCount. now rewrite Hexp, HN. }
    split; [exact Heq|].
    rewrite Hreq, length_map, Heq, length_firstn.
    specialize (Hmax N HN). lia.
Qed.

End RetentionPass.

(** The list of snapshots to delete reads nothing of a snapshot but its
    creation timestamp and its name. *)
Section RetentionKeys.

Let sameKey (a b : VirtualMachineSnapshot) : Prop :=
  retentionKey a = retentionKey b.

Lemma sameKey_of_map l1 l2 :
  map retentionKey l1 = map retentionKey l2 -> Forall2 sameKey l1 l2.
Proof.
  revert l2. induction l1 as [|a l1 IH]; intros [|b l2] H; try discriminate.
  - constructor.
  - injection H as Hts Hname Hl.
    constructor; [unfold sameKey, retentionKey; now rewrite Hts, Hname|now apply IH].
Qed.

Lemma map_of_sameKey l1 l2 :
  Forall2 sameKey l1 l2 -> map retentionKey l1 = map retentionKey l2.
Proof. induction 1 as [|a b l1 l2 Hk _ IH]; simpl; [reflexivity|now rewrite Hk, IH]. Qed.

Lemma sameKey_filter (f : VirtualMachineSnapshot -> bool) g l1 l2 :
  (forall a b, sameKey a b -> f a = g b) ->
  Forall2 sameKey l1 l2 ->
  Forall2 sameKey (List.filter f l1) (List.filter g l2).
Proof.
  intros Hfg. induction 1 as [|a b l1 l2 Hk _ IH]; simpl; [constructor|].
  rewrite (Hfg a b Hk). destruct (g b); [now constructor|exact IH].
Qed.

Lemma sameKey_nameFound a b d1 d2 :
  sameKey a b -> Forall2 sameKey d1 d2 -> nameFound a d1 = nameFound b d2.
Proof.
  intros Hab. induction 1 as [|x y d1 d2 Hxy _ IH]; [reflexivity|].
  unfold nameFound in *. cbn [existsb]. rewrite IH.
  injection Hab as _ ->. injection Hxy as _ ->. reflexivity.
Qed.

Lemma sameKey_appendNotFound t1 t2 :
  Forall2 sameKey t1 t2 ->
  forall acc1 acc2, Forall2 sameKey acc1 acc2 ->
  Forall2 sameKey (appendNotFound t1 acc1) (appendNotFound t2 acc2).
Proof.
  unfold appendNotFound.
  induction 1 as [|a b t1 t2 Hab _ IH]; intros acc1 acc2 Hacc; simpl; [exact Hacc|].
  rewrite (sameKey_nameFound a b acc1 acc2 Hab Hacc).
  destruct (nameFound b acc2); apply IH; [exact Hacc|].
  apply Forall2_app; [exact Hacc|]. now repeat constructor.
Qed.

Lemma sameKey_snapshotsToDelete retention now l1 l2 :
  Forall2 sameKey l1 l2 ->
  option_map (map retentionKey) (snapshotsToDelete retention now l1) =
  option_map (map retentionKey) (snapshotsToDelete retention now l2).
Proof.
  intros Hl. unfold snapshotsToDelete.
  set (d1 := match retExpires retention with
             | Some e => List.filter (expired now e) l1
             | None => []
             end).
  set (d2 := match retExpires retention with
             | Some e => List.filter (expired now e) l2
             | None => []
             end).
  assert (Hd : Forall2 sameKey d1 d2).
  { subst d1 d2. destruct (retExpires retention) as [e|]; [|constructor].
    apply sameKey_filter; [|exact Hl].
    intros a b Hab. unfold expired. now injection Hab as -> _. }
  destruct (retMaxCount retention) as [maxCount|];
    [|simpl; f_equal; now apply map_of_sameKey].
  set (r1 := List.filter (fun s => negb (nameFound s d1)) l1).
  set (r2 := List.filter (fun s => negb (nameFound s d2)) l2).
  assert (Hr : Forall2 sameKey r1 r2).
  { subst r1 r2. apply sameKey_filter; [|exact Hl].
    intros a b Hab. f_equal. now apply sameKey_nameFound. }
  rewrite <- (Forall2_length _ _ _ Hr).
  destruct (maxCount <? Z.of_nat (length r1));
    [|simpl; f_equal; now apply map_of_sameKey].
  destruct (maxCount <? 0); [reflexivity|].
  simpl. f_equal. apply map_of_sameKey, sameKey_appendNotFound; [|exact Hd].
  now apply Forall2_take.
Qed.

End RetentionKeys.

(** C4, as the code has it: when the creation timestamps are pairwise
    distinct, two listings of the same snapshots in different orders are
    sorted to the same list, and the same snapshots are deleted, in the same
    order; and two listings with the same pairs of creation timestamp and
    name, in different orders, lead to deletions with the same pairs.  The
    comparison of the sort looks at the creation timestamp only. *)
Theorem retention_deterministic_for_distinct_timestamps
    (sortSlice : (VirtualMachineSnapshot -> VirtualMachineSnapshot -> bool) ->
                 list VirtualMachineSnapshot -> list VirtualMachineSnapshot)
    (retention : VirtualMachineSnapshotScheduleRetention) (now : Z)
    (l1 l2 : list VirtualMachineSnapshot) :
  sortContract sortSlice ->
  NoDup (map snapCreationTimestamp l1) ->
  (Permutation l1 l2 ->
   sortSlice creationBefore l1 = sortSlice creationBefore l2 /\
   snapshotsToDelete retention now (sortSlice creationBefore l1) =
   snapshotsToDelete retention now (sortSlice creationBefore l2)) /\
  (Permutation (map retentionKey l1) (map retentionKey l2) ->
   option_map (map retentionKey)
     (snapshotsToDelete retention now (sortSlice creationBefore l1)) =
   option_map (map retentionKey)
     (snapshotsToDelete retention now (sortSlice creationBefore l2))).
Proof.
  intros [Hperm Hsorted] Hnd.
  assert (Hkeys : Permutation (map retentionKey l1) (map retentionKey l2) ->
                  map retentionKey (sortSlice creationBefore l1) =
                  map retentionKey (sortSlice creationBefore l2)).
  { intros Hl.
    apply (StronglySorted_unique_strong (fun a b : Z * string => fst a <= fst b)).
    - intros k1 k2 H1 H2 R1 R2.
      apply (NoDup_map_eq fst (map retentionKey l1)).
      + now rewrite map_map.
      + apply list_elem_of_In in H1.
        now apply (Permutation_in _ (Permutation_map retentionKey (Hperm l1))).
      + apply list_elem_of_In in H2.
        apply (Permutation_in _ (Permutation_map retentionKey (Hperm l2))) in H2.
        now apply (Permutation_in _ (Permutation_sym Hl)).
      + lia.
    - apply (StronglySorted_fmap retentionKey
               (fun a b => creationBefore b a = false)); [|apply Hsorted].
      intros a b. unfold creationBefore, time_Before. simpl. lia.
    - apply (StronglySorted_fmap retentionKey
               (fun a b => creationBefore b a = false)); [|apply Hsorted].
      intros a b. unfold creationBefore, time_Before. simpl. lia.
    - now rewrite (Permutation_map retentionKey (Hperm l1)),
                  (Permutation_map retentionKey (Hperm l2)). }
  split.
  - intros Hl.
    assert (Heq : sortSlice creationBefore l1 = sortSlice creationBefore l2).
    { apply (StronglySorted_unique_strong
               (fun a b => creationBefore b a = false)); try apply Hsorted.
      - intros x1 x2 H1 H2 R1 R2.
        apply (NoDup_map_eq snapCreationTimestamp l1); auto.
        + apply list_elem_of_In in H1.
          now apply (Permutation_in _ (Hperm l1)).
        + apply list_elem_of_In in H2.
          apply (Permutation_in _ (Hperm l2)) in H2.
          now apply (Permutation_in _ (Permutation_sym Hl)).
        + unfold creationBefore, time_Before in *. lia.
      - now rewrite !Hperm. }
    split; [exact Heq|now rewrite Heq].
  - intros Hl. apply sameKey_snapshotsToDelete, sameKey_of_map, Hkeys, Hl.
Qed.

(** The retention theorem at scenario 4 of the specification: of five
    snapshots and [maxCount = 2], the three oldest are deleted. *)
Lemma retention_deletes_expired_and_oldest_over_count_witness :
  exists tr,
    Demo.applyRetentionForVM (Demo.world Demo.s3 Demo.fiveSnapshots)
      Demo.s3 Demo.vmA [] = (Ret None, tr) /\
    deleteRequests tr = [("default", "t1"); ("default", "t2"); ("default", "t3")].
Proof.
  destruct (retention_deletes_expired_and_oldest_over_count
              (@insertionSort _) Demo.snapshotSourceNameLabel
              (Demo.world Demo.s3 Demo.fiveSnapshots)
              Demo.s3 Demo.vmA Demo.keepTwo [])
    as (tr & Hrun & Hreq & _).
  - exact insertionSort_sortContract.
  - reflexivity.
  - intros maxCount [= <-]. lia.
  - apply (bool_decide_unpack _). vm_compute. exact I.
  - exists tr. split; [exact Hrun|]. rewrite Hreq. vm_compute. reflexivity.
Defined.

(** Scenario 5 of the specification: with [expires] of one hour, the
    snapshots aged 90 and 120 minutes are deleted, oldest first, and the one
    aged 30 minutes stays. *)
Example retention_scenario_5 :
  deleteRequests
    (snd (Demo.applyRetentionForVM (Demo.world Demo.s4 Demo.threeSnapshots)
            Demo.s4 Demo.vmA [])) =
  [("default", "aged-120m"); ("default", "aged-90m")].
Proof. vm_compute. reflexivity. Qed.

(** The determinism theorem on two listings of two snapshots created an
    hour apart. *)
Lemma retention_deterministic_for_distinct_timestamps_witness :
  let t1 := Demo.snap "t1" (Demo.T0 - 2 * Demo.Hour) in
  let t2 := Demo.snap "t2" (Demo.T0 - 1 * Demo.Hour) in
  snapshotsToDelete Demo.keepOne Demo.T0 (insertionSort creationBefore [t1; t2]) =
  snapshotsToDelete Demo.keepOne Demo.T0 (insertionSort creationBefore [t2; t1]).
Proof.
  intros t1 t2.
  apply (proj1 (retention_deterministic_for_distinct_timestamps
                  (@insertionSort _) Demo.keepOne Demo.T0 [t1; t2] [t2; t1]
                  insertionSort_sortContract
                  ltac:(apply (bool_decide_unpack _); vm_compute; exact I))).
  apply perm_swap.
Defined.

(** C4 as stated fails: two snapshots created at the same instant, one to
    keep.  Listed as a, b the pass deletes a; listed as b, a it deletes b.
    The order of names plays no part. *)
Lemma retention_ties_follow_listing_order :
  snapCreationTimestamp Demo.tieA = snapCreationTimestamp Demo.tieB /\
  Permutation [Demo.tieA; Demo.tieB] [Demo.tieB; Demo.tieA] /\
  snapshotsToDelete Demo.keepOne Demo.T0
    (insertionSort creationBefore [Demo.tieA; Demo.tieB]) = Some [Demo.tieA] /\
  snapshotsToDelete Demo.keepOne Demo.T0
    (insertionSort creationBefore [Demo.tieB; Demo.tieA]) = Some [Demo.tieB] /\
  Demo.tieA <> Demo.tieB.
Proof.
  split; [reflexivity|]. split; [apply perm_swap|].
  split; [vm_compute; reflexivity|]. split; [vm_compute; reflexivity|].
  intros H. apply (f_equal snapName) in H. discriminate H.
Qed.

(** The selection theorem on a store that holds a hand-made snapshot: it
    has no owner reference and no scheduled label, and it is selected for
    retention and counted. *)
Lemma snapshots_selected_by_labels_only_witness :
  let w := Demo.world Demo.s1 [ObjSnapshot Demo.handMade] in
  snapOwnerReferences Demo.handMade = [] /\
  getScheduledSnapshotsForVM Demo.snapshotSourceNameLabel w Demo.s1 Demo.vmA [] =
    (Ret ([Demo.handMade], None), [ASnapshotList]) /\
  countSnapshotsForSchedule w Demo.s1 [] = (Ret (1, None), [ASnapshotList]).
Proof.
  intros w. split; [reflexivity|].
  destruct (snapshots_selected_by_labels_only Demo.snapshotSourceNameLabel
              w Demo.s1 Demo.vmA []) as (Hsel & Hcount & _).
  split.
  - rewrite Hsel. vm_compute. reflexivity.
  - rewrite Hcount. vm_compute. reflexivity.
Defined.

(** ** The decision to fire *)

Lemma no_create_no_failures (tr : list Action) :
  Forall (fun a => isCreate a = false) tr ->
  createFailures tr = [] /\ flat_map createdFor tr = [].
Proof.
  induction 1 as [|a tr Ha _ [IH1 IH2]]; [split; reflexivity|].
  unfold createFailures in *. simpl. rewrite IH1, IH2.
  destruct a; try discriminate; split; reflexivity.
Qed.

Lemma createdFor_exists_create (tr : list Action) :
  flat_map createdFor tr <> [] <-> exists a, In a tr /\ isCreate a = true.
Proof.
  induction tr as [|a tr IH]; simpl.
  - split; [congruence|intros (a & [] & _)].
  - destruct a; simpl; rewrite ?IH;
      try (split; [intros (a & Ha & Hc); exists a; auto
                  |intros (a & [<-|Ha] & Hc); [discriminate|eauto]]).
    split; [eauto|discriminate].
Qed.

Section Firing.

Variable Selector : Type.
Variable LabelSelectorAsSelector : LabelSelector -> Selector + error.
Variable Matches : Selector -> gmap string string -> bool.
Variable CronSchedule : Type.
Variable cronParse : string -> CronSchedule + error.
Variable cronNext : CronSchedule -> Z -> Z.
Variable sortSlice :
  (VirtualMachineSnapshot -> VirtualMachineSnapshot -> bool) ->
  list VirtualMachineSnapshot -> list VirtualMachineSnapshot.
Variable GeneratePatchPayload : list PatchOperation -> string + error.
Variable snapshotSourceNameLabel kubevirtGroup snapshotGroupVersion : string.
Variable w : World.

Local Abbreviation updateVMSnapshotSchedule' :=
  (updateVMSnapshotSchedule Selector LabelSelectorAsSelector Matches CronSchedule
     cronParse cronNext sortSlice GeneratePatchPayload snapshotSourceNameLabel
     kubevirtGroup snapshotGroupVersion w).
Local Abbreviation getVMsToSnapshot' :=
  (getVMsToSnapshot Selector LabelSelectorAsSelector Matches w).
Local Abbreviation updateScheduleStatusActive' :=
  (updateScheduleStatusActive CronSchedule cronNext GeneratePatchPayload w).

(** The Active transition returns, keeps the last-snapshot time it is given,
    and neither creates nor deletes nor looks up VMs. *)
Lemma updateScheduleStatusActive_run schedule st cronSchedule log :
  schedStatus schedule = Some st ->
  exists res tr,
    updateScheduleStatusActive' schedule cronSchedule log = (Ret res, log ++ tr) /\
    Forall (fun a => isCreate a = false /\ isDelete a = false /\
                     isVMLookup a = false) tr /\
    lastSnapshotTimeOf (resSchedule res) = stLastSnapshotTime st /\
    phaseOf (resSchedule res) = SchedulePhaseActive.
Proof.
  intros Hst. unfold updateScheduleStatusActive. rewrite Hst. simpl.
  unfold countSnapshotsForSchedule, SnapshotStore_List.
  destruct (stLastSnapshotTime st) as [last|] eqn:Hlast;
    unfold bind, emit, ret, Now; simpl;
    match goal with
    | |- context [updateScheduleStatus GeneratePatchPayload w ?s ?l] =>
      destruct (updateScheduleStatus_run GeneratePatchPayload w s l)
        as (werr & trw & Hrun & Hkind);
      rewrite Hrun
    end;
    (assert (Hkind' : Forall (fun a => isCreate a = false /\ isDelete a = false /\
                                        isVMLookup a = false) trw)
       by (revert Hkind; apply Forall_isStatusWrite_weaken; now intros []));
    destruct werr as [err|]; simpl;
    do 2 eexists; rewrite <- ?app_assoc; simpl;
    (split; [reflexivity|]);
    (split; [|split; [unfold lastSnapshotTimeOf; simpl; exact Hlast|reflexivity]]);
    repeat first [ apply Forall_app; split
                 | exact Hkind'
                 | constructor; [repeat split|] ]; try constructor.
Qed.

(** Resolving the target VMs does not read the status. *)
Lemma getVMsToSnapshot_setStatus st schedule log :
  getVMsToSnapshot' (setStatus st schedule) log = getVMsToSnapshot' schedule log.
Proof.
  unfold getVMsToSnapshot. simpl.
  destruct (spSource (schedSpec schedule)); [reflexivity|].
  destruct (spVMSelector (schedSpec schedule)) as [sel|]; [|reflexivity].
  destruct (LabelSelectorAsSelector sel) as [selector|]; [|reflexivity].
  unfold bind. destruct (VMStore_List w log) as [[objs|] log']; [|reflexivity].
  unfold ret. do 3 f_equal.
  induction objs as [|o rest IH]; [reflexivity|].
  destruct o; simpl; rewrite ?IH; reflexivity.
Qed.

(** Retention followed by the Active transition: the end of every pass that
    does not leave through the Failed path. *)
Lemma retention_then_active_run schedule st cronSchedule vms log :
  schedStatus schedule = Some st ->
  maxCountNonNegative schedule ->
  exists res tr,
    bind (applyRetentionPolicy sortSlice snapshotSourceNameLabel w schedule vms)
         (fun _ => updateScheduleStatusActive' schedule cronSchedule) log =
      (Ret res, log ++ tr) /\
    Forall (fun a => isCreate a = false) tr /\
    lastSnapshotTimeOf (resSchedule res) = stLastSnapshotTime st /\
    phaseOf (resSchedule res) = SchedulePhaseActive.
Proof.
  intros Hst Hok.
  destruct (applyRetentionPolicy_trace sortSlice snapshotSourceNameLabel w
              schedule vms log) as (tr1 & Hrun1 & Hkind1 & Hret1).
  specialize (Hret1 Hok).
  destruct (updateScheduleStatusActive_run schedule st cronSchedule (log ++ tr1) Hst)
    as (res & tr2 & Hrun2 & Hkind2 & Hlast & Hphase).
  exists res, (tr1 ++ tr2). unfold bind.
  destruct (applyRetentionPolicy _ _ _ _ _ _) as [o log1]. simpl in *.
  subst o log1. rewrite Hrun2, <- app_assoc.
  split; [reflexivity|]. split; [|auto].
  apply Forall_app; split.
  - eapply Forall_impl; [exact Hkind1|]. now intros a (? & _).
  - eapply Forall_impl; [exact Hkind2|]. now intros a (? & _).
Qed.

(** C1, as the code has it.  For a parseable cron expression, a schedule that
    is not disabled and a non-empty list of target VMs, let [now] be the
    clock read that follows the VM lookup and [nextRun] be
    [cron.Next(lastSnapshotTime)], or [cron.Next(now - 1s)] when no
    last-snapshot time is set.  The pass returns; it sends create requests,
    one per target VM, exactly when [nextRun <= now].  When it does not
    fire, the last-snapshot time is left as it was.  When it fires, the
    last-snapshot time becomes [now], unless a create failed and the failure
    policy is Pause: then the pass ends in phase Failed and leaves the
    last-snapshot time as it was. *)
Theorem fires_iff_next_run_reached
    (schedule : VirtualMachineSnapshotSchedule) (cronSchedule : CronSchedule)
    (vms : list VirtualMachine) (log log1 : list Action) :
  cronParse (spSchedule (schedSpec schedule)) = inl cronSchedule ->
  spDisabled (schedSpec schedule) = false ->
  getVMsToSnapshot' schedule log = (Ret (inl vms), log1) ->
  vms <> [] ->
  maxCountNonNegative schedule ->
  let status := default emptyStatus (schedStatus schedule) in
  let now := clock w (length log1) in
  let nextRun :=
    match stLastSnapshotTime status with
    | Some last => cronNext cronSchedule last
    | None => cronNext cronSchedule (now - Second)
    end in
  let pausePolicy := isPausePolicy (spFailurePolicy (schedSpec schedule)) in
  exists res tr,
    updateVMSnapshotSchedule' schedule log = (Ret res, log1 ++ ANow now :: tr) /\
    ((exists a, In a tr /\ isCreate a = true) <-> nextRun <= now) /\
    (nextRun <= now -> flat_map createdFor tr = map vmName vms) /\
    (now < nextRun ->
       lastSnapshotTimeOf (resSchedule res) = stLastSnapshotTime status) /\
    (nextRun <= now -> createFailures tr = [] \/ pausePolicy = false ->
       lastSnapshotTimeOf (resSchedule res) = Some now) /\
    (nextRun <= now -> createFailures tr <> [] -> pausePolicy = true ->
       phaseOf (resSchedule res) = SchedulePhaseFailed /\
       lastSnapshotTimeOf (resSchedule res) = stLastSnapshotTime status).
Proof.
  intros Hparse Hdis Hvms Hne Hok status now nextRun pausePolicy.
  unfold updateVMSnapshotSchedule. simpl. rewrite Hparse, Hdis.
  fold status.
  unfold bind at 1. rewrite getVMsToSnapshot_setStatus, Hvms.
  destruct vms as [|vm0 vms0]; [congruence|].
  cbn [length Nat.eqb].
  unfold bind at 1. unfold Now at 1. fold now.
  change (time_Add now (- Second)) with (now - Second). fold nextRun.
  assert (Hcond : time_After now nextRun || time_Equal now nextRun = true <->
                  nextRun <= now).
  { unfold time_After, time_Equal. rewrite orb_true_iff, Z.ltb_lt, Z.eqb_eq. lia. }
  assert (Hnocreate : forall tr, Forall (fun a => isCreate a = false) tr ->
                        ~ exists a, In a tr /\ isCreate a = true).
  { intros tr H (a & Ha & Hc). rewrite Forall_forall in H.
    apply list_elem_of_In in Ha. rewrite (H a Ha) in Hc. discriminate. }
  destruct (time_After now nextRun || time_Equal now nextRun) eqn:Hfire.
  - (* the pass fires *)
    assert (Hle : nextRun <= now) by now apply Hcond.
    destruct (createScheduledSnapshots_run snapshotSourceNameLabel kubevirtGroup
                snapshotGroupVersion w (setStatus status schedule) (vm0 :: vms0)
                (log1 ++ [ANow now])) as (trc & Hrunc & Hfor & _ & _).
    unfold bind at 1. rewrite Hrunc.
    assert (Hsome : exists a, In a trc /\ isCreate a = true).
    { apply createdFor_exists_create. rewrite Hfor. discriminate. }
    destruct (createFailures trc) as [|e errs] eqn:Hfail.
    + (* no create error *)
      destruct (retention_then_active_run
                  (setStatus (setLastSnapshotTime (Some now) status)
                             (setStatus status schedule))
                  (setLastSnapshotTime (Some now) status) cronSchedule (vm0 :: vms0)
                  ((log1 ++ [ANow now]) ++ trc) eq_refl Hok)
        as (res & tr & Hrun & Hkind & Hlast & Hphase).
      exists res, (trc ++ tr). rewrite Hrun.
      destruct (no_create_no_failures tr Hkind) as [Hf1 Hf2].
      split; [now rewrite <- !app_assoc|].
      split; [split; [auto|intros _; destruct Hsome as (a & Ha & Hc);
                            exists a; split; [apply in_or_app; now left|exact Hc]]|].
      split; [intros _; now rewrite flat_map_app, Hfor, Hf2, app_nil_r|].
      split; [lia|]. split; [auto|].
      intros _ Hfails. exfalso. apply Hfails.
      unfold createFailures in *. now rewrite flat_map_app, Hfail, Hf1.
    + (* some create failed *)
      fold pausePolicy. destruct pausePolicy eqn:Hpause.
      * destruct (updateScheduleStatusError_run GeneratePatchPayload w
                    (setStatus status schedule) status
                    (Errorf ("failed to create snapshots: " +:+
                             String.concat "; " (e :: errs)))
                    ((log1 ++ [ANow now]) ++ trc) eq_refl)
          as (werr & trw & _ & Hkindw & Hrune).
        rewrite Hrune.
        set (tre := [ANow (clock w (length ((log1 ++ [ANow now]) ++ trc)))] ++ trw ++
                    match werr with
                    | Some _ => []
                    | None => [AEvent EventTypeWarning scheduleFailedEvent
                                 ("Schedule failed: " +:+
                                  errMsg (Errorf ("failed to create snapshots: " +:+
                                                  String.concat "; " (e :: errs))))]
                    end).
        assert (Hkinde : Forall (fun a => isCreate a = false) tre).
        { subst tre. constructor; [reflexivity|]. apply Forall_app; split.
          - eapply Forall_impl; [exact Hkindw|]. now intros [].
          - destruct werr; repeat constructor. }
        destruct (no_create_no_failures tre Hkinde) as [Hf1 Hf2].
        eexists _, (trc ++ tre).
        split; [now rewrite <- !app_assoc|].
        split; [split; [auto|intros _; destruct Hsome as (a & Ha & Hc);
                              exists a; split; [apply in_or_app; now left|exact Hc]]|].
        split; [intros _; now rewrite flat_map_app, Hfor, Hf2, app_nil_r|].
        split; [lia|]. split.
        { intros _ [Hnil|Hfalse]; [|discriminate].
          exfalso. unfold createFailures in *.
          rewrite flat_map_app, Hfail in Hnil. discriminate. }
        intros _ _ _. split; reflexivity.
      * unfold bind at 1. unfold Event at 1, emit at 1.
        destruct (retention_then_active_run
                    (setStatus (setLastSnapshotTime (Some now) status)
                               (setStatus status schedule))
                    (setLastSnapshotTime (Some now) status) cronSchedule (vm0 :: vms0)
                    (((log1 ++ [ANow now]) ++ trc) ++
                     [AEvent EventTypeWarning scheduleFailedEvent
                        ("Failed to create snapshot: " +:+
                         errMsg (Errorf ("failed to create snapshots: " +:+
                                         String.concat "; " (e :: errs))))])
                    eq_refl Hok)
          as (res & tr & Hrun & Hkind & Hlast & Hphase).
        rewrite Hrun.
        set (ev := AEvent EventTypeWarning scheduleFailedEvent
                     ("Failed to create snapshot: " +:+
                      errMsg (Errorf ("failed to create snapshots: " +:+
                                      String.concat "; " (e :: errs))))) in *.
        assert (Hkind' : Forall (fun a => isCreate a = false) ([ev] ++ tr))
          by (constructor; [reflexivity|exact Hkind]).
        destruct (no_create_no_failures _ Hkind') as [Hf1 Hf2].
        exists res, (trc ++ [ev] ++ tr).
        split; [now rewrite <- !app_assoc|].
        split; [split; [auto|intros _; destruct Hsome as (a & Ha & Hc);
                              exists a; split; [apply in_or_app; now left|exact Hc]]|].
        split; [intros _; now rewrite flat_map_app, Hfor, Hf2, app_nil_r|].
        split; [lia|]. split; [auto|]. intros _ _ Hp. discriminate Hp.
  - (* the pass does not fire *)
    assert (Hlt : now < nextRun).
    { destruct (Z.lt_ge_cases now nextRun) as [?|Hge]; [assumption|].
      apply Hcond in Hge. congruence. }
    destruct (retention_then_active_run (setStatus status schedule) status
                cronSchedule (vm0 :: vms0) (log1 ++ [ANow now]) eq_refl Hok)
      as (res & tr & Hrun & Hkind & Hlast & Hphase).
    exists res, tr. rewrite Hrun.
    split; [now rewrite <- app_assoc|].
    split; [split; [intros H; now apply Hnocreate in H|lia]|].
    split; [lia|]. split; [auto|]. split; intros; lia.
Qed.

End Firing.

(** The firing theorem on a schedule that last fired an hour before the pass:
    one create request for vmA, and the last-snapshot time moves to the
    instant of the pass. *)
Lemma fires_iff_next_run_reached_witness :
  exists res tr,
    Demo.reconcile (Demo.world Demo.s2 []) Demo.s2 =
      (Ret res, AVMGetByKey "default/vmA" :: ANow Demo.T0 :: tr) /\
    flat_map createdFor tr = ["vmA"] /\
    lastSnapshotTimeOf (resSchedule res) = Some Demo.T0.
Proof.
  destruct (fires_iff_next_run_reached
              _ Demo.LabelSelectorAsSelector Demo.Matches
              _ Demo.cronParse Demo.cronNext (@insertionSort _)
              Demo.GeneratePatchPayload Demo.snapshotSourceNameLabel
              Demo.kubevirtGroup Demo.snapshotGroupVersion
              (Demo.world Demo.s2 []) Demo.s2 tt [Demo.vmA] []
              [AVMGetByKey "default/vmA"])
    as (res & tr & Hrun & _ & Hfor & _ & Hlast & _).
  - reflexivity.
  - reflexivity.
  - reflexivity.
  - discriminate.
  - intros retention maxCount Hret. discriminate Hret.
  - assert (Hfire : Demo.cronNext tt (Demo.T0 - Demo.Hour) <= Demo.T0)
      by (vm_compute; discriminate).
    exists res, tr. split; [exact Hrun|]. split.
    + exact (Hfor Hfire).
    + apply (Hlast Hfire). right. reflexivity.
Defined.

(** C1 as stated fails in its last part: the schedule last fired an hour
    before the pass, so the pass fires; the create request is answered with
    an error and the failure policy is Pause.  The pass ends in phase Failed
    and the last-snapshot time is still the one of an hour before. *)
Lemma fired_pass_under_Pause_keeps_lastSnapshotTime :
  Demo.cronNext tt (Demo.T0 - Demo.Hour) <= Demo.T0 /\
  exists res tr,
    Demo.reconcile (Demo.worldCreateFails Demo.s5 Demo.internalError) Demo.s5 =
      (Ret res, AVMGetByKey "default/vmA" :: ANow Demo.T0 :: tr) /\
    flat_map createdFor tr = ["vmA"] /\
    phaseOf (resSchedule res) = "Failed" /\
    lastSnapshotTimeOf (resSchedule res) = Some (Demo.T0 - Demo.Hour) /\
    Demo.T0 - Demo.Hour <> Demo.T0.
Proof.
  split; [vm_compute; discriminate|].
  destruct (Demo.reconcile (Demo.worldCreateFails Demo.s5 Demo.internalError)
              Demo.s5) as [o l] eqn:E.
  vm_compute in E. injection E as <- <-.
  do 2 eexists. split; [reflexivity|].
  split; [reflexivity|]. split; [reflexivity|]. split; [reflexivity|].
  vm_compute. discriminate.
Qed.

(** * Runs of the trace monad *)

Section Behaviour.

Variable P : Action -> Prop.
Variable ok : Prop.

Lemma behaves_ret {A} (a : A) (Q : A -> Prop) log :
  Q a -> behaves (ret a) log P ok Q.
Proof.
  intros HQ. exists []. simpl. rewrite app_nil_r. auto.
Qed.

Lemma behaves_panic {A} (Q : A -> Prop) log :
  ~ ok -> behaves (@panic A) log P ok Q.
Proof.
  intros Hok. exists []. simpl. rewrite app_nil_r. auto.
Qed.

Lemma behaves_bind {A B} (m : M A) (k : A -> M B) (Q1 : A -> Prop)
    (Q2 : B -> Prop) log :
  behaves m log P ok Q1 ->
  (forall a log', Q1 a -> behaves (k a) log' P ok Q2) ->
  behaves (bind m k) log P ok Q2.
Proof.
  intros (tr1 & Htr1 & HP1 & Hv1) Hk. unfold behaves, bind.
  destruct (m log) as [[a|] log'] eqn:E; simpl in *; subst log'.
  - destruct (Hk a (log ++ tr1) Hv1) as (tr2 & Htr2 & HP2 & Hv2).
    exists (tr1 ++ tr2). rewrite app_assoc. repeat split; auto.
    apply Forall_app; auto.
  - exists tr1. auto.
Qed.

Lemma behaves_weaken {A} (m : M A) (Q Q' : A -> Prop) log :
  (forall a, Q a -> Q' a) -> behaves m log P ok Q -> behaves m log P ok Q'.
Proof.
  intros HQ (tr & Htr & HP & Hv). exists tr. repeat split; auto.
  destruct (fst (m log)); auto.
Qed.

Lemma behaves_emit a log :
  P a -> behaves (emit a) log P ok (fun _ => True).
Proof.
  intros HP. exists [a]. simpl. repeat split; auto.
Qed.

Variable w : World.

Lemma behaves_Now log :
  (forall t, P (ANow t)) -> behaves (Now w) log P ok (fun _ => True).
Proof.
  intros HP. exists [ANow (clock w (length log))]. simpl. repeat split; auto.
Qed.

Lemma behaves_Event type reason message log :
  P (AEvent type reason message) ->
  behaves (Event type reason message) log P ok (fun _ => True).
Proof. apply behaves_emit. Qed.

Lemma behaves_VMStore_GetByKey key log :
  P (AVMGetByKey key) ->
  behaves (VMStore_GetByKey w key) log P ok (fun r => r = vmStoreGetByKey w key).
Proof.
  intros HP. exists [AVMGetByKey key]. simpl. repeat split; auto.
Qed.

Lemma behaves_VMStore_List log :
  P AVMList ->
  behaves (VMStore_List w) log P ok (fun objs => objs = vmStoreList w).
Proof.
  intros HP. exists [AVMList]. simpl. repeat split; auto.
Qed.

Lemma behaves_SnapshotStore_List log :
  P ASnapshotList ->
  behaves (SnapshotStore_List w) log P ok (fun objs => objs = snapshotStoreList w).
Proof.
  intros HP. exists [ASnapshotList]. simpl. repeat split; auto.
Qed.

Lemma behaves_ScheduleStore_GetByKey key log :
  P (AScheduleGetByKey key) ->
  behaves (ScheduleStore_GetByKey w key) log P ok
    (fun r => r = scheduleStoreGetByKey w key).
Proof.
  intros HP. exists [AScheduleGetByKey key]. simpl. repeat split; auto.
Qed.

Lemma behaves_Client_Create ns s log :
  (forall resp, P (ACreate ns s resp)) ->
  behaves (Client_Create w ns s) log P ok (fun _ => True).
Proof.
  intros HP. eexists [_]. simpl. repeat split; auto.
Qed.

Lemma behaves_Client_Delete ns name log :
  (forall resp, P (ADelete ns name resp)) ->
  behaves (Client_Delete w ns name) log P ok (fun _ => True).
Proof.
  intros HP. eexists [_]. simpl. repeat split; auto.
Qed.

Lemma behaves_Client_Patch ns name patchType payload log :
  (forall resp, P (APatch ns name patchType payload resp)) ->
  behaves (Client_Patch w ns name patchType payload) log P ok (fun _ => True).
Proof.
  intros HP. eexists [_]. simpl. repeat split; auto.
Qed.

End Behaviour.

(** * The steps and the outcome of a pass *)

Lemma int64_wrap_range (z : Z) : minDuration <= int64_wrap z <= maxDuration.
Proof.
  unfold int64_wrap, minDuration, maxDuration.
  pose proof (Z.mod_pos_bound (z + 2 ^ 63) (2 ^ 64) ltac:(lia)). lia.
Qed.

Lemma appendNotFound_incl (toDelete : list VirtualMachineSnapshot) :
  forall acc, incl (appendNotFound toDelete acc) (acc ++ toDelete).
Proof.
  unfold appendNotFound.
  induction toDelete as [|s rest IH]; intros acc; simpl.
  - rewrite app_nil_r. apply incl_refl.
  - destruct (nameFound s acc).
    + intros x Hx. apply IH in Hx. apply in_app_iff in Hx as [Hx|Hx];
        apply in_app_iff; simpl; auto.
    + intros x Hx. apply IH in Hx. rewrite <- app_assoc in Hx. exact Hx.
Qed.

Lemma snapshotsToDelete_incl retention now snapshots toDelete :
  snapshotsToDelete retention now snapshots = Some toDelete ->
  incl toDelete snapshots.
Proof.
  unfold snapshotsToDelete.
  set (aged := match retExpires retention with
               | Some expireDuration => List.filter (expired now expireDuration) snapshots
               | None => []
               end).
  assert (Haged : incl aged snapshots).
  { subst aged. destruct (retExpires retention); [|intros x []].
    intros x Hx. apply filter_In in Hx. tauto. }
  destruct (retMaxCount retention) as [maxCount|]; [|now intros [= <-]].
  destruct (maxCount <? _); [|now intros [= <-]].
  destruct (maxCount <? 0); [discriminate|].
  intros [= <-] x Hx. apply appendNotFound_incl in Hx.
  apply in_app_iff in Hx as [Hx|Hx]; [auto|].
  match type of Hx with
  | In _ (firstn ?n ?l) =>
    assert (Hl : In x l)
      by (rewrite <- (firstn_skipn n l); apply in_or_app; left; exact Hx)
  end.
  apply filter_In in Hl. tauto.
Qed.

Lemma snapshotsToDelete_None retention now snapshots :
  snapshotsToDelete retention now snapshots = None ->
  exists maxCount, retMaxCount retention = Some maxCount /\ maxCount < 0.
Proof.
  unfold snapshotsToDelete.
  destruct (retMaxCount retention) as [maxCount|]; [|discriminate].
  destruct (maxCount <? _); [|discriminate].
  destruct (Z.ltb_spec maxCount 0); [|discriminate].
  eauto.
Qed.

Section PassBehaviour.

Variable Selector : Type.
Variable LabelSelectorAsSelector : LabelSelector -> Selector + error.
Variable Matches : Selector -> gmap string string -> bool.
Variable CronSchedule : Type.
Variable cronParse : string -> CronSchedule + error.
Variable cronNext : CronSchedule -> Z -> Z.
Variable sortSlice :
  (VirtualMachineSnapshot -> VirtualMachineSnapshot -> bool) ->
  list VirtualMachineSnapshot -> list VirtualMachineSnapshot.
Variable GeneratePatchPayload : list PatchOperation -> string + error.
Variable snapshotSourceNameLabel kubevirtGroup snapshotGroupVersion : string.
Variable w : World.

Variable P : Action -> Prop.
Variable ok : Prop.

Lemma updateScheduleStatus_behaves schedule log :
  admitsStatusSteps P schedule ->
  behaves (updateScheduleStatus GeneratePatchPayload w schedule) log P ok
    (fun _ => True).
Proof.
  intros (HNow & HEv & HList & HGet & HPatch).
  unfold updateScheduleStatus.
  eapply behaves_bind; [apply behaves_ScheduleStore_GetByKey; exact HGet|].
  intros r log' _.
  destruct r as [e| |[vm|s|current|n]]; try (apply behaves_ret; exact I).
  destruct (statusEqual _ _); [apply behaves_ret; exact I|].
  destruct (GeneratePatchPayload _); [|apply behaves_ret; exact I].
  apply behaves_Client_Patch. apply HPatch.
Qed.

Lemma updateScheduleStatusError_behaves schedule st err log :
  schedStatus schedule = Some st ->
  admitsStatusSteps P schedule ->
  behaves (updateScheduleStatusError GeneratePatchPayload w schedule err) log P ok
    (passOutcome schedule).
Proof.
  intros Hst Hadm. unfold updateScheduleStatusError. rewrite Hst.
  eapply behaves_bind; [apply behaves_Now; apply Hadm|].
  intros now log1 _.
  eapply behaves_bind; [apply updateScheduleStatus_behaves; exact Hadm|].
  assert (Hout : forall e,
    passOutcome schedule
      {| resSchedule :=
           setStatus (setError (Some {| errorTime := Some now;
                                        errorMessage := Some (errMsg err) |})
                        (setPhase SchedulePhaseFailed st)) schedule;
         resRequeueAfter := 0; resErr := Some e |}).
  { intros e. split; [repeat split|].
    eexists; split; [reflexivity|]. left. repeat split; simpl; eauto. }
  intros [e|] log2 _; [apply behaves_ret; apply Hout|].
  eapply behaves_bind; [apply behaves_Event; apply Hadm|].
  intros _ log3 _. apply behaves_ret; apply Hout.
Qed.

Lemma updateScheduleStatusPaused_behaves schedule st log :
  schedStatus schedule = Some st ->
  spDisabled (schedSpec schedule) = true ->
  admitsStatusSteps P schedule ->
  behaves (updateScheduleStatusPaused GeneratePatchPayload w schedule) log P ok
    (passOutcome schedule).
Proof.
  intros Hst Hdis Hadm. unfold updateScheduleStatusPaused. rewrite Hst.
  eapply behaves_bind; [apply updateScheduleStatus_behaves; exact Hadm|].
  intros [e|] log1 _; apply behaves_ret;
    (split; [repeat split|]; eexists; split; [reflexivity|];
     right; left; repeat split; simpl; auto).
Qed.

Lemma updateScheduleStatusActive_behaves schedule st cronSchedule log :
  schedStatus schedule = Some st ->
  spDisabled (schedSpec schedule) = false ->
  admitsStatusSteps P schedule ->
  behaves (updateScheduleStatusActive CronSchedule cronNext GeneratePatchPayload w
             schedule cronSchedule) log P ok
    (passOutcome schedule).
Proof.
  intros Hst Hdis Hadm. unfold updateScheduleStatusActive. rewrite Hst.
  eapply behaves_bind with (Q1 := fun _ => True).
  { destruct (stLastSnapshotTime _); [apply behaves_ret; exact I|].
    apply behaves_Now; apply Hadm. }
  intros fromTime log1 _.
  eapply behaves_bind with (Q1 := fun _ => True).
  { unfold countSnapshotsForSchedule.
    eapply behaves_bind; [apply behaves_SnapshotStore_List; apply Hadm|].
    intros objs log2 _. apply behaves_ret; exact I. }
  intros cnt log2 _.
  eapply behaves_bind; [apply updateScheduleStatus_behaves; exact Hadm|].
  intros [e|] log3 _.
  - apply behaves_ret.
    split; [repeat split|]; eexists; split; [reflexivity|].
    right; right; repeat split; simpl; auto; discriminate.
  - eapply behaves_bind; [apply behaves_Now; apply Hadm|].
    intros now log4 _. apply behaves_ret.
    split; [repeat split|]; eexists; split; [reflexivity|].
    right; right; repeat split; simpl; auto; try discriminate.
    + destruct (Z.ltb_spec (int64_wrap (time_Sub (cronNext cronSchedule fromTime) now
                                         + Second)) Second); lia.
    + pose proof (int64_wrap_range (time_Sub (cronNext cronSchedule fromTime) now
                                    + Second)) as Hr.
      destruct (_ <? Second); [unfold maxDuration, Second; lia | lia].
Qed.

Lemma getVMsToSnapshot_behaves schedule log :
  (forall source, spSource (schedSpec schedule) = Some source ->
     P (AVMGetByKey (schedNamespace schedule +:+ "/" +:+ refName source))) ->
  (spSource (schedSpec schedule) = None -> P AVMList) ->
  behaves (getVMsToSnapshot Selector LabelSelectorAsSelector Matches w schedule)
    log P ok (fun _ => True).
Proof.
  intros HGet HList. unfold getVMsToSnapshot.
  destruct (spSource (schedSpec schedule)) as [source|].
  - destruct (negb _); [apply behaves_ret; exact I|].
    eapply behaves_bind; [apply behaves_VMStore_GetByKey; auto|].
    intros r log1 _.
    destruct r as [e| |[vm|s|current|n]]; apply behaves_ret; exact I.
  - destruct (spVMSelector (schedSpec schedule)) as [vmSelector|];
      [|apply behaves_ret; exact I].
    destruct (LabelSelectorAsSelector vmSelector); [|apply behaves_ret; exact I].
    eapply behaves_bind; [apply behaves_VMStore_List; auto|].
    intros objs log1 _. apply behaves_ret; exact I.
Qed.

Lemma createSnapshotForVM_behaves schedule vm log :
  (forall t, P (ANow t)) ->
  (forall type reason message, P (AEvent type reason message)) ->
  (forall now resp,
     P (ACreate (schedNamespace schedule)
          (buildSnapshot snapshotSourceNameLabel kubevirtGroup snapshotGroupVersion
             schedule vm now) resp)) ->
  behaves (createSnapshotForVM snapshotSourceNameLabel kubevirtGroup
             snapshotGroupVersion w schedule vm) log P ok (fun _ => True).
Proof.
  intros HNow HEv HCreate. unfold createSnapshotForVM.
  eapply behaves_bind; [apply behaves_Now; exact HNow|].
  intros now log1 _.
  eapply behaves_bind; [apply behaves_Client_Create; apply HCreate|].
  intros [e|] log2 _.
  - destruct (IsAlreadyExists e); apply behaves_ret; exact I.
  - eapply behaves_bind; [apply behaves_Event; apply HEv|].
    intros _ log3 _. apply behaves_ret; exact I.
Qed.

Lemma createSnapshotsLoop_behaves schedule vms :
  (forall t, P (ANow t)) ->
  (forall type reason message, P (AEvent type reason message)) ->
  (forall vm now resp,
     In vm vms ->
     P (ACreate (schedNamespace schedule)
          (buildSnapshot snapshotSourceNameLabel kubevirtGroup snapshotGroupVersion
             schedule vm now) resp)) ->
  forall errs log,
  behaves (createSnapshotsLoop snapshotSourceNameLabel kubevirtGroup
             snapshotGroupVersion w schedule vms errs) log P ok (fun _ => True).
Proof.
  intros HNow HEv. induction vms as [|vm rest IH]; intros HCreate errs log; simpl.
  - apply behaves_ret; exact I.
  - eapply behaves_bind.
    { apply createSnapshotForVM_behaves; auto. intros; apply HCreate; simpl; auto. }
    intros [e|] log1 _; apply IH; intros; apply HCreate; simpl; auto.
Qed.

Lemma createScheduledSnapshots_behaves schedule vms log :
  (forall t, P (ANow t)) ->
  (forall type reason message, P (AEvent type reason message)) ->
  (forall vm now resp,
     In vm vms ->
     P (ACreate (schedNamespace schedule)
          (buildSnapshot snapshotSourceNameLabel kubevirtGroup snapshotGroupVersion
             schedule vm now) resp)) ->
  behaves (createScheduledSnapshots snapshotSourceNameLabel kubevirtGroup
             snapshotGroupVersion w schedule vms) log P ok (fun _ => True).
Proof.
  intros HNow HEv HCreate. unfold createScheduledSnapshots.
  eapply behaves_bind; [apply createSnapshotsLoop_behaves; auto|].
  intros errs log1 _. destruct (_ <? _)%nat; apply behaves_ret; exact I.
Qed.

Lemma deleteSnapshots_behaves toDelete :
  (forall type reason message, P (AEvent type reason message)) ->
  (forall s resp, In s toDelete -> P (ADelete (snapNamespace s) (snapName s) resp)) ->
  forall log, behaves (deleteSnapshots w toDelete) log P ok (fun _ => True).
Proof.
  intros HEv. induction toDelete as [|s rest IH]; intros HDel log; simpl.
  - apply behaves_ret; exact I.
  - eapply behaves_bind; [apply behaves_Client_Delete; intros; apply HDel; simpl; auto|].
    intros resp log1 _.
    eapply behaves_bind with (Q1 := fun _ => True).
    { destruct resp as [e|]; [destruct (negb _); [apply behaves_ret; exact I|]|];
        apply behaves_Event; apply HEv. }
    intros _ log2 _. apply IH. intros; apply HDel; simpl; auto.
Qed.

Lemma applyRetentionForVM_behaves schedule vm log :
  (forall t, P (ANow t)) ->
  (forall type reason message, P (AEvent type reason message)) ->
  P ASnapshotList ->
  (forall s resp,
     In s (sortSlice creationBefore
             (List.filter (belongsToVM snapshotSourceNameLabel schedule vm)
                (storedSnapshots (snapshotStoreList w)))) ->
     P (ADelete (snapNamespace s) (snapName s) resp)) ->
  spRetention (schedSpec schedule) <> None ->
  (ok -> maxCountNonNegative schedule) ->
  behaves (applyRetentionForVM sortSlice snapshotSourceNameLabel w schedule vm)
    log P ok (fun _ => True).
Proof.
  intros HNow HEv HList HDel Hret Hok. unfold applyRetentionForVM.
  eapply behaves_bind.
  { unfold getScheduledSnapshotsForVM.
    eapply behaves_bind; [apply behaves_SnapshotStore_List; exact HList|].
    intros objs log1 ->.
    apply behaves_ret with
      (Q := fun r => r = (List.filter (belongsToVM snapshotSourceNameLabel schedule vm)
                            (storedSnapshots (snapshotStoreList w)), None)).
    now rewrite scheduledSnapshotsForVM_filter. }
  intros r log1 ->. simpl.
  destruct (_ =? _)%nat; [apply behaves_ret; exact I|].
  eapply behaves_bind; [apply behaves_Now; exact HNow|].
  intros now log2 _.
  destruct (spRetention (schedSpec schedule)) as [retention|] eqn:Eret;
    [|congruence].
  destruct (snapshotsToDelete retention now _) as [toDelete|] eqn:Edel.
  - eapply behaves_bind.
    { apply deleteSnapshots_behaves; [exact HEv|].
      intros s resp Hs. apply HDel.
      eapply snapshotsToDelete_incl; eauto. }
    intros _ log3 _. apply behaves_ret; exact I.
  - apply behaves_panic. intros Hk.
    apply snapshotsToDelete_None in Edel as (maxCount & Hmax & Hneg).
    specialize (Hok Hk retention maxCount Eret Hmax). lia.
Qed.

Lemma applyRetentionPolicy_behaves schedule vms log :
  (forall t, P (ANow t)) ->
  (forall type reason message, P (AEvent type reason message)) ->
  P ASnapshotList ->
  (spRetention (schedSpec schedule) <> None ->
   forall vm s resp,
     In vm vms ->
     In s (sortSlice creationBefore
             (List.filter (belongsToVM snapshotSourceNameLabel schedule vm)
                (storedSnapshots (snapshotStoreList w)))) ->
     P (ADelete (snapNamespace s) (snapName s) resp)) ->
  (ok -> maxCountNonNegative schedule) ->
  behaves (applyRetentionPolicy sortSlice snapshotSourceNameLabel w schedule vms)
    log P ok (fun _ => True).
Proof.
  intros HNow HEv HList HDel Hok. unfold applyRetentionPolicy.
  destruct (spRetention (schedSpec schedule)) as [retention|] eqn:Eret;
    [|apply behaves_ret; exact I].
  eapply behaves_bind with (Q1 := fun _ => True);
    [|intros _ log1 _; apply behaves_ret; exact I].
  specialize (HDel ltac:(discriminate)).
  revert log. induction vms as [|vm rest IH]; intros log; simpl.
  - apply behaves_ret; exact I.
  - eapply behaves_bind.
    { apply applyRetentionForVM_behaves; auto.
      - intros s resp Hs; apply (HDel vm s resp); simpl; auto.
      - rewrite Eret; discriminate. }
    intros _ log1 _. apply IH.
    intros vm' s resp Hvm Hs; apply (HDel vm' s resp); simpl; auto.
Qed.

End PassBehaviour.

Lemma sameButStatus_setStatus st schedule :
  sameButStatus (setStatus st schedule) schedule.
Proof. repeat split. Qed.

Lemma passOutcome_sameButStatus schedule' schedule res :
  sameButStatus schedule' schedule ->
  passOutcome schedule' res -> passOutcome schedule res.
Proof.
  intros (Hn & Hns & Hu & Hsp) ((Hn' & Hns' & Hu' & Hsp') & st & Hst & Hend).
  split; [repeat split; congruence|].
  exists st. split; [exact Hst|].
  unfold endsPaused, endsActive in *. rewrite <- Hsp. exact Hend.
Qed.

Section Pass.

Variable Selector : Type.
Variable LabelSelectorAsSelector : LabelSelector -> Selector + error.
Variable Matches : Selector -> gmap string string -> bool.
Variable CronSchedule : Type.
Variable cronParse : string -> CronSchedule + error.
Variable cronNext : CronSchedule -> Z -> Z.
Variable sortSlice :
  (VirtualMachineSnapshot -> VirtualMachineSnapshot -> bool) ->
  list VirtualMachineSnapshot -> list VirtualMachineSnapshot.
Variable GeneratePatchPayload : list PatchOperation -> string + error.
Variable snapshotSourceNameLabel kubevirtGroup snapshotGroupVersion : string.
Variable w : World.

Local Abbreviation updateVMSnapshotSchedule' :=
  (updateVMSnapshotSchedule Selector LabelSelectorAsSelector Matches CronSchedule
     cronParse cronNext sortSlice GeneratePatchPayload snapshotSourceNameLabel
     kubevirtGroup snapshotGroupVersion w).
Local Abbreviation passStep' := (passStep sortSlice snapshotSourceNameLabel w).

Lemma admitsStatusSteps_passStep st schedule :
  admitsStatusSteps (passStep' schedule) (setStatus st schedule).
Proof. repeat split. Qed.

(** A pass over [schedule], whatever the collaborators answer: its steps
    are those of [passStep]; if it returns, its result is one of the three
    outcomes; and it returns when [maxCount] is not negative. *)
Lemma updateVMSnapshotSchedule_behaves schedule log :
  behaves (updateVMSnapshotSchedule' schedule) log (passStep' schedule)
    (maxCountNonNegative schedule) (passOutcome schedule).
Proof.
  unfold updateVMSnapshotSchedule. cbv zeta.
  set (status := default emptyStatus (schedStatus schedule)).
  assert (Herror : forall st err log',
    behaves (updateScheduleStatusError GeneratePatchPayload w
               (setStatus st schedule) err) log' (passStep' schedule)
      (maxCountNonNegative schedule) (passOutcome schedule)).
  { intros st err log'.
    apply behaves_weaken with (Q := passOutcome (setStatus st schedule));
      [intros res; apply passOutcome_sameButStatus, sameButStatus_setStatus|].
    eapply updateScheduleStatusError_behaves; [reflexivity|].
    apply admitsStatusSteps_passStep. }
  cbn [schedSpec setStatus].
  destruct (cronParse _) as [cronSchedule|parseErr]; [|apply Herror].
  destruct (spDisabled (schedSpec schedule)) eqn:Hdis.
  { apply behaves_weaken with (Q := passOutcome (setStatus status schedule));
      [intros res; apply passOutcome_sameButStatus, sameButStatus_setStatus|].
    eapply updateScheduleStatusPaused_behaves;
      [reflexivity | exact Hdis | apply admitsStatusSteps_passStep]. }
  assert (Hactive : forall st log',
    behaves (updateScheduleStatusActive CronSchedule cronNext GeneratePatchPayload w
               (setStatus st schedule) cronSchedule) log' (passStep' schedule)
      (maxCountNonNegative schedule) (passOutcome schedule)).
  { intros st log'.
    apply behaves_weaken with (Q := passOutcome (setStatus st schedule));
      [intros res; apply passOutcome_sameButStatus, sameButStatus_setStatus|].
    eapply updateScheduleStatusActive_behaves;
      [reflexivity | exact Hdis | apply admitsStatusSteps_passStep]. }
  assert (Hretention : forall st vms log',
    behaves (applyRetentionPolicy sortSlice snapshotSourceNameLabel w
               (setStatus st schedule) vms) log' (passStep' schedule)
      (maxCountNonNegative schedule) (fun _ => True)).
  { intros st vms log'.
    apply applyRetentionPolicy_behaves; try (intros; exact I);
      [|exact (fun H => H)].
    intros Hret vm s resp _ Hs. split; [exact Hret|].
    exists vm, s. repeat split. exact Hs. }
  eapply behaves_bind.
  { apply getVMsToSnapshot_behaves.
    - intros source Hsource. exists source. split; [exact Hsource|reflexivity].
    - intros Hsource. exact Hsource. }
  intros [vms|err] log1 _; [|apply Herror].
  destruct (length vms =? 0)%nat.
  { eapply behaves_bind; [apply behaves_Event; exact I|].
    intros _ log2 _. apply Hactive. }
  eapply behaves_bind; [apply behaves_Now; intros; exact I|].
  intros now log2 _.
  destruct (_ || _).
  - eapply behaves_bind.
    { apply createScheduledSnapshots_behaves; try (intros; exact I).
      intros vm t resp _. repeat split. eexists. repeat split. }
    intros [err|] log3 _.
    + destruct (isPausePolicy _); [apply Herror|].
      eapply behaves_bind; [apply behaves_Event; exact I|].
      intros _ log4 _.
      rewrite setStatus_setStatus.
      eapply behaves_bind; [apply Hretention|].
      intros _ log5 _. apply Hactive.
    + rewrite setStatus_setStatus.
      eapply behaves_bind; [apply Hretention|].
      intros _ log4 _. apply Hactive.
  - eapply behaves_bind; [apply Hretention|].
    intros _ log3 _. apply Hactive.
Qed.

Lemma In_storedSnapshots (s : VirtualMachineSnapshot) (objs : list Obj) :
  In s (storedSnapshots objs) <-> In (ObjSnapshot s) objs.
Proof.
  unfold storedSnapshots. rewrite in_flat_map. split.
  - intros ([vm|s'|sch|n] & Hin & Hs); simpl in Hs; try contradiction.
    destruct Hs as [->|[]]. exact Hin.
  - intros Hin. exists (ObjSnapshot s). simpl. auto.
Qed.

Lemma passStep_passAction schedule a :
  sortContract sortSlice -> passStep' schedule a -> passAction w schedule a.
Proof.
  intros [Hperm _]. destruct a; simpl; auto.
  intros (Hret & vm & s & Hs & -> & ->).
  apply (Permutation_in _ (Hperm _)) in Hs.
  apply filter_In in Hs as [Hstored Hsel].
  unfold belongsToVM in Hsel. apply andb_true_iff in Hsel as [Hsched _].
  pose proof Hsched as Hns. unfold belongsToSchedule in Hns.
  apply andb_true_iff in Hns as [Hns _]. apply String.eqb_eq in Hns.
  repeat split; auto.
  exists s. rewrite <- In_storedSnapshots. auto.
Qed.

(** X1.  Whatever the stores, the clock and the API server answer, every
    request of a pass concerns its schedule.  A create goes to the schedule's
    namespace, for a snapshot of that namespace whose only owner reference
    is the schedule, as controller.  A delete goes to the schedule's
    namespace, names a snapshot that the snapshot store holds in that
    namespace with the schedule's name in its schedule-name label, and is
    sent only when [spec.retention] is set.  A patch targets the schedule
    itself, as a JSON patch.  The VM store is read by the key
    namespace/source name when [spec.source] is set and listed only when it
    is not; the schedule store is read by the schedule's own key. *)
Theorem pass_requests_concern_the_schedule
    (schedule : VirtualMachineSnapshotSchedule) (log : list Action) :
  sortContract sortSlice ->
  exists tr,
    snd (updateVMSnapshotSchedule' schedule log) = log ++ tr /\
    Forall (passAction w schedule) tr.
Proof.
  intros Hsort.
  destruct (updateVMSnapshotSchedule_behaves schedule log) as (tr & Htr & HP & _).
  exists tr. split; [exact Htr|].
  eapply Forall_impl; [exact HP|].
  intros a. apply passStep_passAction, Hsort.
Qed.

(** X2.  With [retention.maxCount] not negative, a pass returns, and what
    it hands back is the schedule it was given with only the status
    changed, in one of three states.  Failed: [status.error] carries a time
    and a message, the returned error is not nil and the requeue delay is
    zero.  Paused: [spec.disabled] is set, [status.error] is nil and the
    delay is zero.  Active: [spec.disabled] is not set, [status.error] is
    nil, [status.nextSnapshotTime] is set, and the delay is at least one
    second when the returned error is nil and zero otherwise. *)
Theorem pass_ends_Failed_Paused_or_Active
    (schedule : VirtualMachineSnapshotSchedule) (log : list Action) :
  maxCountNonNegative schedule ->
  exists res tr,
    updateVMSnapshotSchedule' schedule log = (Ret res, log ++ tr) /\
    passOutcome schedule res.
Proof.
  intros Hok.
  destruct (updateVMSnapshotSchedule_behaves schedule log) as (tr & Htr & _ & Hv).
  destruct (updateVMSnapshotSchedule' schedule log) as [[res|] log'];
    simpl in *; [|contradiction].
  exists res, tr. subst log'. auto.
Qed.

End Pass.

Lemma pass_requests_concern_the_schedule_witness :
  let w := Demo.world Demo.s3 Demo.fiveSnapshots in
  exists tr,
    snd (Demo.reconcile w Demo.s3) = [] ++ tr /\
    Forall (passAction w Demo.s3) tr.
Proof.
  apply (pass_requests_concern_the_schedule
           _ Demo.LabelSelectorAsSelector Demo.Matches
           _ Demo.cronParse Demo.cronNext (@insertionSort _)
           Demo.GeneratePatchPayload Demo.snapshotSourceNameLabel
           Demo.kubevirtGroup Demo.snapshotGroupVersion
           (Demo.world Demo.s3 Demo.fiveSnapshots) Demo.s3 []).
  exact insertionSort_sortContract.
Defined.

Lemma pass_ends_Failed_Paused_or_Active_witness :
  exists res tr,
    Demo.reconcile (Demo.world Demo.s3 Demo.fiveSnapshots) Demo.s3 =
      (Ret res, [] ++ tr) /\
    passOutcome Demo.s3 res.
Proof.
  apply (pass_ends_Failed_Paused_or_Active
           _ Demo.LabelSelectorAsSelector Demo.Matches
           _ Demo.cronParse Demo.cronNext (@insertionSort _)
           Demo.GeneratePatchPayload Demo.snapshotSourceNameLabel
           Demo.kubevirtGroup Demo.snapshotGroupVersion
           (Demo.world Demo.s3 Demo.fiveSnapshots) Demo.s3 []).
  intros retention maxCount [= <-] [= <-]. lia.
Defined.

(** * Resolving the VMs, and the passes that create nothing *)

Lemma requeueDelay_spec (nextRun now : Z) :
  (let requeueAfter := int64_wrap (time_Sub nextRun now + Second) in
   if requeueAfter <? Second then Second else requeueAfter) =
  requeueDelay nextRun now.
Proof.
  unfold requeueDelay, time_Sub, int64_wrap, minDuration, maxDuration, Second.
  cbv zeta.
  change (2 ^ 63) with 9223372036854775808.
  change (2 ^ 64) with 18446744073709551616.
  destruct (Z.ltb_spec (nextRun - now) (Z.opp 9223372036854775808));
    [|destruct (Z.ltb_spec (9223372036854775808 - 1) (nextRun - now))];
    repeat match goal with
           | |- context [?a <? ?b] => destruct (Z.ltb_spec a b)
           | |- context [?a <=? ?b] => destruct (Z.leb_spec a b)
           end; cbn [andb]; try (Z.div_mod_to_equations; lia).
Qed.

Lemma countSnapshots_setStatus st schedule objs :
  forall c,
    countSnapshots (setStatus st schedule) objs c = countSnapshots schedule objs c.
Proof.
  induction objs as [|[vm|s|sch|n] rest IH]; intros c; simpl; auto.
  destruct (negb _); [apply IH|].
  destruct (snapLabels s) as [labels|]; [|apply IH].
  destruct (String.eqb _ _); apply IH.
Qed.

Section Resolution.

Variable Selector : Type.
Variable LabelSelectorAsSelector : LabelSelector -> Selector + error.
Variable Matches : Selector -> gmap string string -> bool.
Variable CronSchedule : Type.
Variable cronParse : string -> CronSchedule + error.
Variable cronNext : CronSchedule -> Z -> Z.
Variable sortSlice :
  (VirtualMachineSnapshot -> VirtualMachineSnapshot -> bool) ->
  list VirtualMachineSnapshot -> list VirtualMachineSnapshot.
Variable GeneratePatchPayload : list PatchOperation -> string + error.
Variable snapshotSourceNameLabel kubevirtGroup snapshotGroupVersion : string.
Variable w : World.

Local Abbreviation updateVMSnapshotSchedule' :=
  (updateVMSnapshotSchedule Selector LabelSelectorAsSelector Matches CronSchedule
     cronParse cronNext sortSlice GeneratePatchPayload snapshotSourceNameLabel
     kubevirtGroup snapshotGroupVersion w).
Local Abbreviation getVMsToSnapshot' :=
  (getVMsToSnapshot Selector LabelSelectorAsSelector Matches w).
Local Abbreviation updateScheduleStatusActive' :=
  (updateScheduleStatusActive CronSchedule cronNext GeneratePatchPayload w).
Local Abbreviation updateScheduleStatus' :=
  (updateScheduleStatus GeneratePatchPayload w).

Lemma matchingVMs_filter schedule selector objs :
  matchingVMs Selector Matches schedule selector objs =
  List.filter (fun vm => String.eqb (vmNamespace vm) (schedNamespace schedule) &&
                         Matches selector (labelsSet (vmLabels vm)))
              (storedVMs objs).
Proof.
  induction objs as [|[vm|s|sch|n] rest IH]; simpl; auto.
  rewrite IH.
  destruct (String.eqb (vmNamespace vm) (schedNamespace schedule)); simpl; auto.
Qed.

(** X3.  With [spec.source] unset and a [spec.vmSelector] that converts to a
    selector, resolving the VMs lists the VM store once and returns, in
    store order, exactly the stored VMs that are in the schedule's
    namespace and whose labels (the empty set for a VM without labels) the
    selector matches; objects of other types and VMs of other namespaces
    are skipped. *)
Theorem selector_resolves_matching_vms_of_the_namespace
    (schedule : VirtualMachineSnapshotSchedule) (vmSelector : LabelSelector)
    (selector : Selector) (log : list Action) :
  spSource (schedSpec schedule) = None ->
  spVMSelector (schedSpec schedule) = Some vmSelector ->
  LabelSelectorAsSelector vmSelector = inl selector ->
  getVMsToSnapshot' schedule log =
    (Ret (inl (List.filter
                 (fun vm => String.eqb (vmNamespace vm) (schedNamespace schedule) &&
                            Matches selector (labelsSet (vmLabels vm)))
                 (storedVMs (vmStoreList w)))),
     log ++ [AVMList]).
Proof.
  intros Hsource Hsel Hconv. unfold getVMsToSnapshot.
  rewrite Hsource, Hsel, Hconv.
  unfold bind, VMStore_List, bind, emit, ret. simpl.
  now rewrite matchingVMs_filter.
Qed.

(** X4.  When the cron expression parses, the schedule is not disabled and
    resolving the VMs returns an error, the pass reads the clock, sets phase
    Failed with that error's message and the time read, and runs the status
    writer on the failed schedule; it does nothing else but record an
    event, so it sends no create or delete request.  When the status writer
    returns nil (the write went through or was skipped), the pass records
    the event ScheduledSnapshotFailed and returns the resolution error;
    when the status writer returns an error, the pass returns that error
    and records no event.  The delay is zero in both cases. *)
Theorem unresolved_vms_fail_the_schedule
    (schedule : VirtualMachineSnapshotSchedule) (cronSchedule : CronSchedule)
    (err : error) (log log1 : list Action) :
  cronParse (spSchedule (schedSpec schedule)) = inl cronSchedule ->
  spDisabled (schedSpec schedule) = false ->
  getVMsToSnapshot' schedule log = (Ret (inr err), log1) ->
  let now := clock w (length log1) in
  let failed := failedSchedule schedule now (errMsg err) in
  exists werr tr,
    updateScheduleStatus' failed (log1 ++ [ANow now]) =
      (Ret werr, (log1 ++ [ANow now]) ++ tr) /\
    updateVMSnapshotSchedule' schedule log =
      (Ret {| resSchedule := failed; resRequeueAfter := 0;
              resErr := Some (default err werr) |},
       log1 ++ ANow now :: tr ++
       match werr with
       | Some _ => []
       | None => [AEvent EventTypeWarning scheduleFailedEvent
                    ("Schedule failed: " +:+ errMsg err)]
       end) /\
    phaseOf failed = SchedulePhaseFailed /\
    Forall (fun a => isStatusWrite a = true) tr.
Proof.
  intros Hparse Hdis Hget now failed.
  destruct (updateScheduleStatusError_run GeneratePatchPayload w
              (setStatus (default emptyStatus (schedStatus schedule)) schedule)
              (default emptyStatus (schedStatus schedule))
              err log1 eq_refl) as (werr & tr & Hrun & Htr & Herr).
  exists werr, tr. split; [exact Hrun|].
  split; [|split; [reflexivity|exact Htr]].
  unfold updateVMSnapshotSchedule. cbv zeta. cbn [schedSpec setStatus].
  rewrite Hparse, Hdis. unfold bind at 1.
  rewrite getVMsToSnapshot_setStatus, Hget. exact Herr.
Qed.


(** X6.  The Active transition of a schedule that has a status.  It reads
    the clock when there is no last-snapshot time, lists the snapshot store,
    and runs the status writer on the schedule with phase Active, no error,
    the next run set to the cron schedule's next instant after the
    last-snapshot time (after the clock reading when there is none), the
    snapshot count counted from the snapshot store, and the last-snapshot
    time kept.  When the status writer returns an error, the transition
    returns that error with a zero delay and does nothing more.  When the
    status writer returns nil, the transition reads the clock again and
    returns nil with the delay to the next run plus one second, and one
    second when the next run is already past or more than the largest
    duration minus one second away; the delay is at least one second. *)
Theorem active_transition_sets_next_run_and_requeue
    (schedule : VirtualMachineSnapshotSchedule)
    (st : VirtualMachineSnapshotScheduleStatus) (cronSchedule : CronSchedule)
    (log : list Action) :
  schedStatus schedule = Some st ->
  let fromTime := default (clock w (length log)) (stLastSnapshotTime st) in
  let nextRun := cronNext cronSchedule fromTime in
  let pre := match stLastSnapshotTime st with
             | Some _ => []
             | None => [ANow (clock w (length log))]
             end ++ [ASnapshotList] in
  let active :=
    setStatus
      (setCurrentSnapshotCount (countSnapshots schedule (snapshotStoreList w) 0)
         (setNextSnapshotTime (Some nextRun)
            (setError None (setPhase SchedulePhaseActive st)))) schedule in
  exists werr trw,
    updateScheduleStatus' active (log ++ pre) = (Ret werr, (log ++ pre) ++ trw) /\
    Forall (fun a => isStatusWrite a = true) trw /\
    let now := clock w (length (log ++ pre ++ trw)) in
    updateScheduleStatusActive' schedule cronSchedule log =
      (Ret {| resSchedule := active;
              resRequeueAfter := match werr with
                                 | Some _ => 0
                                 | None => requeueDelay nextRun now
                                 end;
              resErr := werr |},
       log ++ pre ++ trw ++
       match werr with
       | Some _ => []
       | None => [ANow now]
       end) /\
    Second <= requeueDelay nextRun now /\
    phaseOf active = SchedulePhaseActive /\
    lastSnapshotTimeOf active = stLastSnapshotTime st.
Proof.
  intros Hst fromTime nextRun pre active.
  assert (Hdelay : forall now, Second <= requeueDelay nextRun now).
  { intros now. unfold requeueDelay.
    destruct (Z.leb_spec 0 (nextRun - now)); simpl; [|lia].
    destruct (_ <=? _); lia. }
  destruct (updateScheduleStatus_run GeneratePatchPayload w active (log ++ pre))
    as (werr & trw & Hrun & Hkind).
  exists werr, trw. split; [exact Hrun|]. split; [exact Hkind|].
  cbv zeta. split; [|split; [apply Hdelay|split; reflexivity]].
  unfold updateScheduleStatusActive. rewrite Hst.
  unfold countSnapshotsForSchedule, SnapshotStore_List.
  subst active nextRun fromTime pre.
  cbn [stLastSnapshotTime setError setPhase] in *.
  destruct (stLastSnapshotTime st) as [last|] eqn:Hlast;
    unfold bind, emit, ret, Now; cbn [default from_option id fst snd app] in *;
    rewrite countSnapshots_setStatus, <- ?app_assoc; cbn [app];
    rewrite <- ?app_assoc in Hrun; cbn [app] in Hrun; rewrite Hrun;
    destruct werr as [e|]; rewrite <- ?app_assoc, ?app_nil_r; cbn [app];
    rewrite ?requeueDelay_spec; reflexivity.
Qed.

End Resolution.

Lemma selector_resolves_matching_vms_of_the_namespace_witness :
  Demo.getVMsToSnapshot
    (Cases.worldWithVMs Cases.bySelector Cases.mixedObjects) Cases.bySelector [] =
  (Ret (inl [Cases.gold "vm1" "default"]), [AVMList]).
Proof.
  etransitivity.
  - apply (selector_resolves_matching_vms_of_the_namespace
             _ Demo.LabelSelectorAsSelector Demo.Matches
             (Cases.worldWithVMs Cases.bySelector Cases.mixedObjects)
             Cases.bySelector Cases.tierGold {[ "tier" := "gold" ]} []);
      reflexivity.
  - vm_compute. reflexivity.
Defined.

Lemma unresolved_vms_fail_the_schedule_witness :
  let w := Demo.world Cases.missingSource [] in
  let failed := failedSchedule Cases.missingSource Demo.T0
                  "VirtualMachine default/vmB not found" in
  exists werr tr,
    updateScheduleStatus Demo.GeneratePatchPayload w failed
      ([AVMGetByKey "default/vmB"] ++ [ANow Demo.T0]) =
      (Ret werr, ([AVMGetByKey "default/vmB"] ++ [ANow Demo.T0]) ++ tr) /\
    Demo.reconcile w Cases.missingSource =
      (Ret {| resSchedule := failed;
              resRequeueAfter := 0;
              resErr := Some (default (Errorf "VirtualMachine default/vmB not found")
                                      werr) |},
       [AVMGetByKey "default/vmB"] ++ ANow Demo.T0 :: tr ++
       match werr with
       | Some _ => []
       | None => [AEvent "Warning" "ScheduledSnapshotFailed"
                    "Schedule failed: VirtualMachine default/vmB not found"]
       end) /\
    phaseOf failed = "Failed" /\
    Forall (fun a => isStatusWrite a = true) tr.
Proof.
  apply (unresolved_vms_fail_the_schedule
           _ Demo.LabelSelectorAsSelector Demo.Matches
           _ Demo.cronParse Demo.cronNext (@insertionSort _)
           Demo.GeneratePatchPayload Demo.snapshotSourceNameLabel
           Demo.kubevirtGroup Demo.snapshotGroupVersion
           (Demo.world Cases.missingSource []) Cases.missingSource tt
           (Errorf "VirtualMachine default/vmB not found") []
           [AVMGetByKey "default/vmB"]); reflexivity.
Defined.


Lemma active_transition_sets_next_run_and_requeue_witness :
  let schedule := Demo.withStatus Demo.activeStatus Demo.s1 in
  let w := Demo.world schedule [] in
  let nextRun := Demo.T0 + 30 * Second in
  let active :=
    setStatus
      (setCurrentSnapshotCount 0
         (setNextSnapshotTime (Some nextRun)
            (setError None (setPhase SchedulePhaseActive Demo.activeStatus))))
      schedule in
  exists werr trw,
    updateScheduleStatus Demo.GeneratePatchPayload w active ([] ++ [ASnapshotList]) =
      (Ret werr, ([] ++ [ASnapshotList]) ++ trw) /\
    Forall (fun a => isStatusWrite a = true) trw /\
    updateScheduleStatusActive _ Demo.cronNext Demo.GeneratePatchPayload w
      schedule tt [] =
      (Ret {| resSchedule := active;
              resRequeueAfter :=
                match werr with
                | Some _ => 0
                | None => requeueDelay nextRun
                            (clock w (length ([] ++ [ASnapshotList] ++ trw)))
                end;
              resErr := werr |},
       [] ++ [ASnapshotList] ++ trw ++
       match werr with
       | Some _ => []
       | None => [ANow (clock w (length ([] ++ [ASnapshotList] ++ trw)))]
       end) /\
    Second <= requeueDelay nextRun (clock w (length ([] ++ [ASnapshotList] ++ trw))) /\
    phaseOf active = "Active" /\
    lastSnapshotTimeOf active = Some Demo.T0.
Proof.
  intros schedule w nextRun active.
  apply (active_transition_sets_next_run_and_requeue
           _ Demo.cronNext Demo.GeneratePatchPayload
           w schedule Demo.activeStatus tt []).
  reflexivity.
Defined.

(** * Events of the create and delete loops *)

Lemma answeredBy_nil w log : answeredBy w log [].
Proof. intros i a Hi. destruct i; discriminate Hi. Qed.

Lemma answeredBy_app w log tr1 tr2 :
  answeredBy w log tr1 -> answeredBy w (log ++ tr1) tr2 ->
  answeredBy w log (tr1 ++ tr2).
Proof.
  intros H1 H2 i a Hi.
  apply lookup_app_Some in Hi as [Hi|[Hle Hi]]; [exact (H1 i a Hi)|].
  specialize (H2 _ _ Hi). rewrite length_app in H2.
  replace (length log + i)%nat
    with (length log + length tr1 + (i - length tr1))%nat by lia.
  exact H2.
Qed.

Section LoopEvents.

Variable snapshotSourceNameLabel kubevirtGroup snapshotGroupVersion : string.
Variable w : World.

Local Abbreviation buildSnapshot' :=
  (buildSnapshot snapshotSourceNameLabel kubevirtGroup snapshotGroupVersion).

(** X7.  The delete loop of retention sends one delete request per
    snapshot marked for deletion, in order, whatever the answers: an error
    does not stop the loop.  The event ScheduledSnapshotDeleted is recorded
    right after a request exactly when the request was answered without
    error or with NotFound; the trace holds nothing else. *)
Theorem delete_loop_records_an_event_per_deleted_snapshot
    (toDelete : list VirtualMachineSnapshot) (log : list Action) :
  exists tr,
    deleteSnapshots w toDelete log = (Ret tt, log ++ tr) /\
    deleteRequests tr = map requestFor toDelete /\
    tr = flat_map (fun a => a :: deletedEvent a) (List.filter isDelete tr).
Proof.
  revert log. induction toDelete as [|s rest IH]; intros log.
  - exists []. simpl. unfold ret. now rewrite app_nil_r.
  - simpl. unfold bind at 1, Client_Delete.
    set (resp := deleteResponse w (length log) (snapNamespace s) (snapName s)).
    set (request := ADelete (snapNamespace s) (snapName s) resp).
    assert (Hstep : exists log1,
      log1 = (log ++ [request]) ++ deletedEvent request /\
      bind match resp with
           | Some err =>
             if negb (IsNotFound err) then ret tt
             else Event EventTypeNormal scheduleDeleteSnapshotEvent
                    ("Deleted snapshot " +:+ snapName s +:+
                     " due to retention policy")
           | None =>
             Event EventTypeNormal scheduleDeleteSnapshotEvent
               ("Deleted snapshot " +:+ snapName s +:+ " due to retention policy")
           end (fun _ => deleteSnapshots w rest) (log ++ [request]) =
      deleteSnapshots w rest log1).
    { eexists. split; [reflexivity|].
      subst request. simpl.
      destruct resp as [err|]; [destruct (IsNotFound err)|]; simpl;
        unfold bind, Event, emit, ret; simpl; now rewrite ?app_nil_r. }
    destruct Hstep as (log1 & Hlog1 & ->).
    destruct (IH log1) as (tr & Hrun & Hreq & Hshape).
    exists (request :: deletedEvent request ++ tr).
    rewrite Hrun, Hlog1, <- !app_assoc. split; [reflexivity|].
    assert (Hev : forall l, deleteRequests (deletedEvent request ++ l) =
                            deleteRequests l /\
                            List.filter isDelete (deletedEvent request ++ l) =
                            List.filter isDelete l).
    { intros l. subst request. simpl.
      destruct resp as [err|]; [destruct (IsNotFound err)|]; auto. }
    split.
    + change (deleteRequests (request :: deletedEvent request ++ tr))
        with (requestFor s :: deleteRequests (deletedEvent request ++ tr)).
      rewrite (proj1 (Hev tr)), Hreq. reflexivity.
    + change (List.filter isDelete (request :: deletedEvent request ++ tr))
        with (request :: List.filter isDelete (deletedEvent request ++ tr)).
      rewrite (proj2 (Hev tr)). simpl. rewrite <- Hshape. reflexivity.
Qed.

(** X8.  For each VM in turn, and for nothing else, the create loop reads
    the clock and sends one create request to the schedule's namespace for
    the snapshot built from that reading; the readings and the answers in
    the trace are those of the clock and of the server.  The event
    ScheduledSnapshotCreated is recorded right after a request exactly when
    the request was answered without error: an AlreadyExists answer, though
    not reported as a failure, records no event.  The trace holds nothing
    else, and the loop returns the joined failures. *)
Theorem create_loop_records_an_event_per_created_snapshot
    (schedule : VirtualMachineSnapshotSchedule) (vms : list VirtualMachine)
    (log : list Action) :
  exists tr steps,
    createScheduledSnapshots snapshotSourceNameLabel kubevirtGroup
      snapshotGroupVersion w schedule vms log =
      (Ret match createFailures tr with
           | [] => None
           | errs => Some (Errorf ("failed to create snapshots: " +:+
                                   String.concat "; " errs))
           end, log ++ tr) /\
    Forall2 (fun vm step =>
               exists now resp,
                 step = [ANow now;
                         ACreate (schedNamespace schedule)
                           (buildSnapshot' schedule vm now) resp]) vms steps /\
    List.filter (fun a => negb (isEvent a)) tr = concat steps /\
    tr = flat_map (fun a => a :: createdEvent a)
           (List.filter (fun a => negb (isEvent a)) tr) /\
    answeredBy w log tr /\
    flat_map createdFor tr = map vmName vms.
Proof.
  assert (Hloop : forall errs log, exists tr steps,
    createSnapshotsLoop snapshotSourceNameLabel kubevirtGroup
      snapshotGroupVersion w schedule vms errs log =
      (Ret (errs ++ createFailures tr), log ++ tr) /\
    Forall2 (fun vm step =>
               exists now resp,
                 step = [ANow now;
                         ACreate (schedNamespace schedule)
                           (buildSnapshot' schedule vm now) resp]) vms steps /\
    List.filter (fun a => negb (isEvent a)) tr = concat steps /\
    tr = flat_map (fun a => a :: createdEvent a)
           (List.filter (fun a => negb (isEvent a)) tr) /\
    answeredBy w log tr /\
    flat_map createdFor tr = map vmName vms).
  { induction vms as [|vm rest IH]; intros errs log'.
    - exists [], []. simpl. unfold ret. rewrite !app_nil_r.
      repeat split; auto using answeredBy_nil.
    - simpl. unfold bind at 1.
      rewrite createSnapshotForVM_run.
      set (now := clock w (length log')).
      set (snapshot := buildSnapshot _ _ _ schedule vm now).
      set (resp := createResponse w _ _ snapshot).
      set (request := ACreate (schedNamespace schedule) snapshot resp).
      assert (Hev : match resp with
                    | Some _ => []
                    | None => [AEvent EventTypeNormal scheduleCreateSnapshotEvent
                                 ("Created snapshot " +:+ snapName snapshot +:+
                                  " for VM " +:+ vmName vm)]
                    end = createdEvent request).
      { subst request. simpl. destruct resp; reflexivity. }
      rewrite Hev.
      assert (Hnone : forall l,
                flat_map createdFor (createdEvent request ++ l) =
                flat_map createdFor l /\
                List.filter (fun a => negb (isEvent a)) (createdEvent request ++ l) =
                List.filter (fun a => negb (isEvent a)) l /\
                createFailures (createdEvent request ++ l) = createFailures l).
      { intros l. subst request. simpl. destruct resp; auto. }
      assert (Hstep : answeredBy w log' ([ANow now; request] ++ createdEvent request)).
      { intros i a Hi. subst request now.
        destruct i as [|[|i]]; simpl in Hi.
        - injection Hi as <-. now rewrite Nat.add_0_r.
        - injection Hi as <-. subst resp. now rewrite Nat.add_1_r.
        - destruct resp; simpl in Hi; [destruct i; discriminate Hi|].
          destruct i; [injection Hi as <-; exact I|destruct i; discriminate Hi]. }
      match goal with
      | |- context [log' ++ ?t] => set (log1 := log' ++ t)
      end.
      assert (Hlog1 : log1 = log' ++ [ANow now; request] ++ createdEvent request)
        by reflexivity.
      assert (Hgoal : forall e, e = errs ++ createFailure request ->
        exists tr steps,
          createSnapshotsLoop snapshotSourceNameLabel kubevirtGroup
            snapshotGroupVersion w schedule rest e log1 =
            (Ret (errs ++ createFailures tr), log' ++ tr) /\
          Forall2 (fun vm step =>
                     exists now resp,
                       step = [ANow now;
                               ACreate (schedNamespace schedule)
                                 (buildSnapshot' schedule vm now) resp])
                  (vm :: rest) steps /\
          List.filter (fun a => negb (isEvent a)) tr = concat steps /\
          tr = flat_map (fun a => a :: createdEvent a)
                 (List.filter (fun a => negb (isEvent a)) tr) /\
          answeredBy w log' tr /\
          flat_map createdFor tr = vmName vm :: map vmName rest).
      { intros e ->.
        destruct (IH (errs ++ createFailure request) log1)
          as (tr & steps & Hrun & Hsteps & Hfilter & Hshape & Hans & Hfor).
        exists ([ANow now; request] ++ createdEvent request ++ tr),
               ([ANow now; request] :: steps).
        assert (Hf : List.filter (fun a => negb (isEvent a))
                       ([ANow now; request] ++ createdEvent request ++ tr) =
                     ANow now :: request ::
                     List.filter (fun a => negb (isEvent a)) tr).
        { change (List.filter (fun a => negb (isEvent a))
                    ([ANow now; request] ++ createdEvent request ++ tr))
            with (ANow now :: request ::
                  List.filter (fun a => negb (isEvent a))
                    (createdEvent request ++ tr)).
          now rewrite (proj1 (proj2 (Hnone tr))). }
        split; [|split; [|split; [|split; [|split]]]].
        - rewrite Hrun, Hlog1, <- !app_assoc. f_equal. f_equal.
          change (createFailures ([ANow now; request] ++ createdEvent request ++ tr))
            with (createFailure request ++
                  createFailures (createdEvent request ++ tr)).
          now rewrite (proj2 (proj2 (Hnone tr))).
        - constructor; [|exact Hsteps]. exists now, resp. reflexivity.
        - rewrite Hf, Hfilter. reflexivity.
        - rewrite Hf. simpl. rewrite <- Hshape. reflexivity.
        - rewrite app_assoc. apply answeredBy_app; [exact Hstep|].
          exact Hans.
        - change (flat_map createdFor ([ANow now; request] ++
                                       createdEvent request ++ tr))
            with (vmName vm :: flat_map createdFor (createdEvent request ++ tr)).
          now rewrite (proj1 (Hnone tr)), Hfor. }
      destruct resp as [err|]; [destruct (IsAlreadyExists err) eqn:Hae|];
        apply Hgoal; subst request; simpl; rewrite ?Hae, ?app_nil_r; reflexivity. }
  unfold createScheduledSnapshots, bind.
  destruct (Hloop [] log) as (tr & steps & Hrun & Hrest).
  exists tr, steps. split; [|exact Hrest].
  rewrite Hrun. simpl.
  destruct (createFailures tr); reflexivity.
Qed.

End LoopEvents.

(** * Retention keeps the newest, and a Failed status that is not rewritten *)

(** X9.  For snapshots with distinct names and a [maxCount] of N, not
    negative, with or without [expires]: no snapshot is marked for deletion
    twice, and the snapshots that are not marked are the last min(N, r) of
    the r snapshots that are not age-expired, in the order given (the
    newest, once sorted by creation time). *)
Theorem retention_keeps_the_last_maxCount_unexpired
    (retention : VirtualMachineSnapshotScheduleRetention) (now : Z)
    (snapshots : list VirtualMachineSnapshot) (N : Z) :
  NoDup (map snapName snapshots) ->
  retMaxCount retention = Some N ->
  0 <= N ->
  let remaining := remainingAfterAge retention now snapshots in
  let kept := skipn (length remaining - Z.to_nat N) remaining in
  exists toDelete,
    snapshotsToDelete retention now snapshots = Some toDelete /\
    NoDup (map snapName toDelete) /\
    Permutation (toDelete ++ kept) snapshots /\
    Z.of_nat (length kept) = Z.min N (Z.of_nat (length remaining)).
Proof.
  intros Hnames HN Hpos remaining kept.
  exists (ageExpired retention now snapshots ++ overCount retention remaining).
  split; [|split; [|split]].
  - apply snapshotsToDelete_rules; [exact Hnames|].
    intros maxCount Hmax. rewrite HN in Hmax. injection Hmax as <-. exact Hpos.
  - unfold overCount. rewrite HN.
    apply names_unique_ageExpired_firstn, Hnames.
  - unfold overCount. rewrite HN. subst kept.
    rewrite <- app_assoc, firstn_skipn.
    apply ageExpired_remaining_Permutation.
  - subst kept. rewrite length_skipn. lia.
Qed.

Lemma retention_keeps_the_last_maxCount_unexpired_witness :
  let snapshots := insertionSort creationBefore
                     (storedSnapshots Demo.fiveSnapshots) in
  let remaining := remainingAfterAge Cases.keepTwoOfThreeHours Demo.T0 snapshots in
  let kept := skipn (length remaining - Z.to_nat 2) remaining in
  map snapName kept = ["t4"; "t5"] /\
  exists toDelete,
    snapshotsToDelete Cases.keepTwoOfThreeHours Demo.T0 snapshots = Some toDelete /\
    NoDup (map snapName toDelete) /\
    Permutation (toDelete ++ kept) snapshots /\
    Z.of_nat (length kept) = Z.min 2 (Z.of_nat (length remaining)).
Proof.
  intros snapshots remaining kept. split; [vm_compute; reflexivity|].
  apply (retention_keeps_the_last_maxCount_unexpired
           Cases.keepTwoOfThreeHours Demo.T0 snapshots 2).
  - apply (bool_decide_unpack _). vm_compute. exact I.
  - reflexivity.
  - lia.
Defined.

Section StaleError.

Variable GeneratePatchPayload : list PatchOperation -> string + error.
Variable w : World.

(** X10.  Failing a schedule that the store already holds with phase
    Failed and with the same snapshot count, last successful snapshot name,
    last-snapshot time and next-snapshot time sends no patch: the message
    and the time of the new error are set on the object the pass hands back
    but are not written to the stored status.  The warning event is still
    recorded and the new error is returned. *)
Theorem failing_a_failed_schedule_writes_nothing
    (schedule current : VirtualMachineSnapshotSchedule)
    (st : VirtualMachineSnapshotScheduleStatus) (err : error)
    (log : list Action) :
  let key := schedNamespace schedule +:+ "/" +:+ schedName schedule in
  let now := clock w (length log) in
  schedStatus schedule = Some st ->
  scheduleStoreGetByKey w key = GetItem (ObjSchedule current) ->
  comparedFieldsAgree (schedStatus current)
                      (Some (setPhase SchedulePhaseFailed st)) ->
  updateScheduleStatusError GeneratePatchPayload w schedule err log =
    (Ret {| resSchedule := failedSchedule schedule now (errMsg err);
            resRequeueAfter := 0; resErr := Some err |},
     log ++ [ANow now; AScheduleGetByKey key;
             AEvent EventTypeWarning scheduleFailedEvent
               ("Schedule failed: " +:+ errMsg err)]).
Proof.
  intros key now Hst Hget Hagree.
  unfold updateScheduleStatusError. rewrite Hst.
  unfold bind at 1, Now. fold now.
  unfold bind at 1, updateScheduleStatus, ScheduleStore_GetByKey.
  unfold bind at 1 2, emit, ret.
  cbn [schedNamespace schedName schedStatus setStatus]. fold key.
  rewrite Hget.
  assert (Heq : statusEqual (schedStatus current)
                  (Some (setError
                           (Some {| errorTime := Some now;
                                    errorMessage := Some (errMsg err) |})
                           (setPhase SchedulePhaseFailed st))) = true).
  { apply statusEqual_compared. exact Hagree. }
  rewrite Heq. unfold bind, Event, emit, ret, failedSchedule.
  rewrite Hst, <- !app_assoc. reflexivity.
Qed.

End StaleError.

Lemma failing_a_failed_schedule_writes_nothing_witness :
  updateScheduleStatusError Demo.GeneratePatchPayload
    (Demo.world Cases.storedFailed []) Cases.storedFailed
    (Errorf "invalid cron expression: expected exactly 5 fields, found: not a cron")
    [] =
  (Ret {| resSchedule :=
            failedSchedule Cases.storedFailed Demo.T0
              "invalid cron expression: expected exactly 5 fields, found: not a cron";
          resRequeueAfter := 0;
          resErr := Some (Errorf "invalid cron expression: expected exactly 5 fields, found: not a cron") |},
   [ANow Demo.T0; AScheduleGetByKey "default/s1";
    AEvent "Warning" "ScheduledSnapshotFailed"
      "Schedule failed: invalid cron expression: expected exactly 5 fields, found: not a cron"]).
Proof.
  apply (failing_a_failed_schedule_writes_nothing
           Demo.GeneratePatchPayload (Demo.world Cases.storedFailed [])
           Cases.storedFailed Cases.storedFailed Cases.failedStatus
           (Errorf "invalid cron expression: expected exactly 5 fields, found: not a cron")
           []).
  - reflexivity.
  - reflexivity.
  - simpl. repeat split; reflexivity.
Defined.

(** * The handlers and the work item *)

Section Handlers.

Variable MetaNamespaceKeyFunc : VirtualMachineSnapshotSchedule -> string + error.
Variable snapshotSourceNameLabel kubevirtGroup snapshotGroupVersion : string.

(** X11.  The event of a snapshot that a pass created sends the pass back
    to a schedule of the same namespace: the handler enqueues the key made
    of the schedule's namespace and of the value of the snapshot's
    schedule-name label.  That value is the schedule's name unless the
    snapshot template carries the schedule-name label, and then it is the
    template's value.  A tombstone that wraps the snapshot is handled like
    the snapshot itself. *)
Theorem created_snapshot_enqueues_the_schedule_of_its_label
    (schedule : VirtualMachineSnapshotSchedule) (vm : VirtualMachine)
    (now : Z) (tombstoneKey : string) :
  snapshotSourceNameLabel <> scheduleNameLabel ->
  let snapshot := buildSnapshot snapshotSourceNameLabel kubevirtGroup
                    snapshotGroupVersion schedule vm now in
  let name := default (schedName schedule)
                      (templateLabels schedule !! scheduleNameLabel) in
  handleVMSnapshotForSchedule (Direct (ObjSnapshot snapshot)) =
    [schedNamespace schedule +:+ "/" +:+ name] /\
  handleVMSnapshotForSchedule
    (DeletedFinalStateUnknown tombstoneKey (Some (ObjSnapshot snapshot))) =
    [schedNamespace schedule +:+ "/" +:+ name].
Proof.
  intros Hsrc snapshot name.
  destruct (buildSnapshot_labels snapshotSourceNameLabel kubevirtGroup
              snapshotGroupVersion schedule vm now) as (labels & Hlabels & Hlookup).
  assert (Hname : labels !! scheduleNameLabel = Some name).
  { rewrite Hlookup. subst name.
    destruct (templateLabels schedule !! scheduleNameLabel); [reflexivity|].
    rewrite lookup_insert_ne by exact Hsrc.
    rewrite lookup_insert_ne by discriminate.
    rewrite lookup_insert_ne by discriminate.
    apply lookup_insert_eq. }
  unfold handleVMSnapshotForSchedule, unwrapTombstone.
  fold snapshot in Hlabels. rewrite Hlabels, Hname. auto.
Qed.

(** X12.  [EnqueueAll] enqueues, in store order, exactly the keys that the
    schedule handler enqueues for the stored objects one by one: one key
    per schedule whose key can be computed, nothing for an object of
    another type.  The handler treats a tombstone that wraps an object like
    the object, and enqueues nothing for a tombstone without object. *)
Theorem EnqueueAll_enqueues_what_the_handler_does (objs : list Obj) :
  EnqueueAll MetaNamespaceKeyFunc objs =
    flat_map (fun o => handleVMSnapshotSchedule MetaNamespaceKeyFunc (Direct o))
             objs /\
  (forall key o,
     handleVMSnapshotSchedule MetaNamespaceKeyFunc
       (DeletedFinalStateUnknown key (Some o)) =
     handleVMSnapshotSchedule MetaNamespaceKeyFunc (Direct o)) /\
  (forall key,
     handleVMSnapshotSchedule MetaNamespaceKeyFunc
       (DeletedFinalStateUnknown key None) = []).
Proof.
  split; [|split; reflexivity].
  induction objs as [|[vm|s|schedule|n] rest IH]; simpl; auto.
  unfold handleVMSnapshotSchedule at 1. simpl.
  destruct (MetaNamespaceKeyFunc schedule); simpl; now rewrite IH.
Qed.

End Handlers.

Lemma created_snapshot_enqueues_the_schedule_of_its_label_witness :
  handleVMSnapshotForSchedule
    (Direct (ObjSnapshot (Demo.buildSnapshot Demo.s8 Demo.vmA Demo.T0))) =
    ["default/other"] /\
  handleVMSnapshotForSchedule
    (DeletedFinalStateUnknown "default/s1-vmA-20240101-000030"
       (Some (ObjSnapshot (Demo.buildSnapshot Demo.s8 Demo.vmA Demo.T0)))) =
    ["default/other"].
Proof.
  apply (created_snapshot_enqueues_the_schedule_of_its_label
           Demo.snapshotSourceNameLabel Demo.kubevirtGroup
           Demo.snapshotGroupVersion Demo.s8 Demo.vmA Demo.T0
           "default/s1-vmA-20240101-000030").
  discriminate.
Defined.

Section WorkItemResult.

Variable Selector : Type.
Variable LabelSelectorAsSelector : LabelSelector -> Selector + error.
Variable Matches : Selector -> gmap string string -> bool.
Variable CronSchedule : Type.
Variable cronParse : string -> CronSchedule + error.
Variable cronNext : CronSchedule -> Z -> Z.
Variable sortSlice :
  (VirtualMachineSnapshot -> VirtualMachineSnapshot -> bool) ->
  list VirtualMachineSnapshot -> list VirtualMachineSnapshot.
Variable GeneratePatchPayload : list PatchOperation -> string + error.
Variable snapshotSourceNameLabel kubevirtGroup snapshotGroupVersion : string.
Variable formatObj : Obj -> string.
Variable w : World.

Local Abbreviation processScheduleKey' :=
  (processScheduleKey Selector LabelSelectorAsSelector Matches CronSchedule
     cronParse cronNext sortSlice GeneratePatchPayload snapshotSourceNameLabel
     kubevirtGroup snapshotGroupVersion formatObj w).
Local Abbreviation updateVMSnapshotSchedule' :=
  (updateVMSnapshotSchedule Selector LabelSelectorAsSelector Matches CronSchedule
     cronParse cronNext sortSlice GeneratePatchPayload snapshotSourceNameLabel
     kubevirtGroup snapshotGroupVersion w).

(** X13.  Processing a key of the queue reads the schedule store once.  A
    key the store does not hold is dropped: no error, no delay and nothing
    else done.  A store error is returned as it is, and an object that is
    not a schedule gives an error, both without delay and with nothing else
    done.  For a stored schedule (with [maxCount] not negative) the result
    is that of the pass over it.  In every case the delay is not negative,
    and it is zero whenever an error is returned. *)
Theorem work_item_returns_no_delay_with_an_error
    (key : string) (log : list Action) :
  (forall schedule,
     scheduleStoreGetByKey w key = GetItem (ObjSchedule schedule) ->
     maxCountNonNegative schedule) ->
  exists delay err tr,
    processScheduleKey' key log =
      (Ret (delay, err), log ++ AScheduleGetByKey key :: tr) /\
    0 <= delay /\
    (err <> None -> delay = 0) /\
    match scheduleStoreGetByKey w key with
    | GetError e => delay = 0 /\ err = Some e /\ tr = []
    | GetAbsent => delay = 0 /\ err = None /\ tr = []
    | GetItem (ObjSchedule schedule) =>
      exists res,
        updateVMSnapshotSchedule' schedule (log ++ [AScheduleGetByKey key]) =
          (Ret res, (log ++ [AScheduleGetByKey key]) ++ tr) /\
        delay = resRequeueAfter res /\ err = resErr res
    | GetItem o =>
      delay = 0 /\
      err = Some (Errorf ("unexpected resource " +:+ formatObj o)) /\
      tr = []
    end.
Proof.
  intros Hok. unfold processScheduleKey.
  unfold bind at 1, ScheduleStore_GetByKey, bind, emit, ret.
  destruct (scheduleStoreGetByKey w key) as [e| |[vm|s|schedule|n]] eqn:Hget;
    try (eexists 0, _, []; repeat split; [lia|reflexivity..]).
  destruct (updateVMSnapshotSchedule_behaves Selector LabelSelectorAsSelector
              Matches CronSchedule cronParse cronNext sortSlice
              GeneratePatchPayload snapshotSourceNameLabel kubevirtGroup
              snapshotGroupVersion w schedule (log ++ [AScheduleGetByKey key]))
    as (tr & Htr & _ & Hv).
  destruct (updateVMSnapshotSchedule' schedule (log ++ [AScheduleGetByKey key]))
    as [[res|] log1] eqn:Hrun; simpl in Htr, Hv; [|destruct (Hv (Hok _ eq_refl))].
  subst log1.
  exists (resRequeueAfter res), (resErr res), tr.
  rewrite <- app_assoc. split; [reflexivity|].
  assert (Hdelay : 0 <= resRequeueAfter res /\
                   (resErr res <> None -> resRequeueAfter res = 0)).
  { destruct Hv as (_ & st & _ & [Hend|[Hend|Hend]]).
    - destruct Hend as (_ & _ & _ & Hd). rewrite Hd. split; [lia|auto].
    - destruct Hend as (_ & _ & _ & Hd). rewrite Hd. split; [lia|auto].
    - destruct Hend as (_ & _ & _ & _ & Hd).
      destruct (resErr res); [rewrite Hd; split; [lia|auto]|].
      split; [unfold Second in Hd; lia | congruence]. }
  destruct Hdelay as [Hpos Hzero].
  split; [exact Hpos|]. split; [exact Hzero|].
  exists res. auto.
Qed.

End WorkItemResult.

Lemma work_item_returns_no_delay_with_an_error_witness :
  exists delay err tr,
    processScheduleKey _ Demo.LabelSelectorAsSelector Demo.Matches
      _ Demo.cronParse Demo.cronNext (@insertionSort _)
      Demo.GeneratePatchPayload Demo.snapshotSourceNameLabel
      Demo.kubevirtGroup Demo.snapshotGroupVersion Cases.formatObj
      (Demo.world Demo.s1 []) "default/gone" [] =
      (Ret (delay, err), [] ++ AScheduleGetByKey "default/gone" :: tr) /\
    0 <= delay /\
    (err <> None -> delay = 0) /\
    delay = 0 /\ err = None /\ tr = [].
Proof.
  apply (work_item_returns_no_delay_with_an_error
           _ Demo.LabelSelectorAsSelector Demo.Matches
           _ Demo.cronParse Demo.cronNext (@insertionSort _)
           Demo.GeneratePatchPayload Demo.snapshotSourceNameLabel
           Demo.kubevirtGroup Demo.snapshotGroupVersion Cases.formatObj
           (Demo.world Demo.s1 []) "default/gone" []).
  intros schedule Hget. discriminate Hget.
Defined.

(** * Snapshot names, a negative count, and the launcher configuration *)

Lemma isLeapYear_spec (y : Z) :
  if isLeapYear y
  then y mod 4 = 0 /\ (y mod 100 <> 0 \/ y mod 400 = 0)
  else y mod 4 <> 0 \/ (y mod 100 = 0 /\ y mod 400 <> 0).
Proof.
  unfold isLeapYear.
  destruct (Z.eqb_spec (y mod 4) 0), (Z.eqb_spec (y mod 100) 0),
    (Z.eqb_spec (y mod 400) 0); simpl; tauto.
Qed.

(** Years 1 to 9999: the civil date computed from a day count is the date
    of the calendar that lies that many days after 1970-01-01. *)
Lemma civil_from_days_calendar (days : Z) :
  -719162 <= days <= 2932896 ->
  let '(y, m, d) := civil_from_days days in
  1 <= y <= 9999 /\ 1 <= m <= 12 /\ 1 <= d <= daysInMonth (isLeapYear y) m /\
  unixDay y m d = days.
Proof.
  intros Hr. unfold civil_from_days. cbv zeta.
  set (z := days + 719468).
  set (era := z / 146097).
  set (doe := z - era * 146097).
  set (yoe := (doe - doe / 1460 + doe / 36524 - doe / 146096) / 365).
  set (doy := doe - (365 * yoe + yoe / 4 - yoe / 100)).
  set (mp := (5 * doy + 2) / 153).
  assert (Hdoe : 0 <= doe < 146097) by (subst doe era; Z.div_mod_to_equations; lia).
  assert (Hera : 0 <= era <= 24) by (subst era z; Z.div_mod_to_equations; lia).
  assert (Hyoe : 0 <= yoe <= 399) by (subst yoe; Z.div_mod_to_equations; lia).
  assert (Hdoy : 0 <= doy <= 365) by (subst doy yoe; Z.div_mod_to_equations; lia).
  assert (Hmp : 0 <= mp <= 11) by (subst mp; Z.div_mod_to_equations; lia).
  assert (Hcase : mp = 0 \/ mp = 1 \/ mp = 2 \/ mp = 3 \/ mp = 4 \/ mp = 5 \/
                  mp = 6 \/ mp = 7 \/ mp = 8 \/ mp = 9 \/ mp = 10 \/ mp = 11) by lia.
  assert (Hmpdef : 153 * mp <= 5 * doy + 2 < 153 * mp + 153)
    by (subst mp; Z.div_mod_to_equations; lia).
  assert (Hyoedef : 365 * yoe <= doe - doe / 1460 + doe / 36524 - doe / 146096
                    < 365 * yoe + 365)
    by (subst yoe; Z.div_mod_to_equations; lia).
  assert (Hdays : days = era * 146097 + doe - 719468) by (subst doe z; lia).
  assert (Hdoydef : doe = doy + 365 * yoe + yoe / 4 - yoe / 100) by (subst doy; lia).
  clearbody mp yoe doy doe era. clear z.
  destruct Hcase as [->|[->|[->|[->|[->|[->|[->|[->|[->|[->|[->| ->]]]]]]]]]]];
    do 2 match goal with
         | |- context [if ?b then _ else _] =>
           let v := eval vm_compute in b in change b with v; cbv iota
         end;
    match goal with
    | |- context [(153 * ?k + 2) / 5] =>
      let v := eval vm_compute in ((153 * k + 2) / 5) in
      change ((153 * k + 2) / 5) with v
    end;
    match goal with
    | |- context [isLeapYear ?y] =>
      set (year := y) in *;
      pose proof (isLeapYear_spec year) as Hleap;
      unfold unixDay, daysBeforeYear;
      destruct (isLeapYear year);
      match goal with
      | |- context [daysBeforeMonth ?l ?k] =>
        let v := eval vm_compute in (daysBeforeMonth l k) in
        change (daysBeforeMonth l k) with v
      end;
      match goal with
      | |- context [daysInMonth ?l ?k] =>
        let v := eval vm_compute in (daysInMonth l k) in
        change (daysInMonth l k) with v
      end
    end;
    subst year; Z.div_mod_to_equations; lia.
Qed.

(** For an instant of the years 1 to 9999 the formatted timestamp is
    YYYYMMDD-HHMMSS, with the digits of the UTC date and time of the
    instant's second. *)
Lemma formatTimestamp_calendar (t : Z) :
  zeroTime <= t < endOfYear9999 ->
  exists y m d hh mm ss,
    1 <= y <= 9999 /\ 1 <= m <= 12 /\ 1 <= d <= daysInMonth (isLeapYear y) m /\
    0 <= hh <= 23 /\ 0 <= mm <= 59 /\ 0 <= ss <= 59 /\
    unixSecond y m d hh mm ss = t / Second /\
    formatTimestamp t =
      digits4 y +:+ digits2 m +:+ digits2 d +:+ "-" +:+
      digits2 hh +:+ digits2 mm +:+ digits2 ss.
Proof.
  unfold zeroTime, endOfYear9999, Second. intros Ht.
  unfold formatTimestamp, unixSecond, Second.
  set (sec := t / 1000000000).
  assert (Hsec : -62135596800 <= sec <= 253402300799)
    by (subst sec; Z.div_mod_to_equations; lia).
  set (rem := sec mod 86400).
  assert (Hrem : 0 <= rem <= 86399) by (subst rem; Z.div_mod_to_equations; lia).
  assert (Hdays : -719162 <= sec / 86400 <= 2932896)
    by (Z.div_mod_to_equations; lia).
  pose proof (civil_from_days_calendar (sec / 86400) Hdays) as Hciv.
  destruct (civil_from_days (sec / 86400)) as [[y m] d].
  destruct Hciv as (Hy & Hm & Hd & Hday).
  exists y, m, d, (rem / 3600), (rem mod 3600 / 60), (rem mod 60).
  assert (Hhh : 0 <= rem / 3600 <= 23) by (Z.div_mod_to_equations; lia).
  assert (Hmm : 0 <= rem mod 3600 / 60 <= 59) by (Z.div_mod_to_equations; lia).
  assert (Hss : 0 <= rem mod 60 <= 59) by (Z.div_mod_to_equations; lia).
  assert (Hd31 : 1 <= d <= 31).
  { split; [lia|]. destruct Hd as [_ Hd]. unfold daysInMonth in Hd.
    destruct (m =? 2); [destruct (isLeapYear y); lia|].
    destruct (_ || _); lia. }
  repeat (split; [assumption|]).
  split.
  - rewrite Hday. subst rem. clear. Z.div_mod_to_equations. lia.
  - rewrite appendInt_digits4 by lia.
    rewrite !appendInt_digits2 by lia.
    reflexivity.
Qed.

Section Names.

Variable sortSlice :
  (VirtualMachineSnapshot -> VirtualMachineSnapshot -> bool) ->
  list VirtualMachineSnapshot -> list VirtualMachineSnapshot.
Variable snapshotSourceNameLabel kubevirtGroup snapshotGroupVersion : string.
Variable w : World.

Local Abbreviation buildSnapshot' :=
  (buildSnapshot snapshotSourceNameLabel kubevirtGroup snapshotGroupVersion).

(** X14.  For a clock reading in the years 1 to 9999, the name of the
    snapshot built for a VM is the schedule's name, the VM's name and
    YYYYMMDD-HHMMSS, joined by dashes, where the digits are those of the
    UTC date and time of the reading's second: a date of the calendar, a
    time of day, and together the whole seconds of the reading counted
    from 1970-01-01T00:00:00Z.  Two readings in the same second give the
    same name. *)
Theorem snapshot_name_is_schedule_vm_and_second
    (schedule : VirtualMachineSnapshotSchedule) (vm : VirtualMachine) (now : Z) :
  zeroTime <= now < endOfYear9999 ->
  (exists y m d hh mm ss,
     1 <= y <= 9999 /\ 1 <= m <= 12 /\ 1 <= d <= daysInMonth (isLeapYear y) m /\
     0 <= hh <= 23 /\ 0 <= mm <= 59 /\ 0 <= ss <= 59 /\
     unixSecond y m d hh mm ss = now / Second /\
     snapName (buildSnapshot' schedule vm now) =
       schedName schedule +:+ "-" +:+ vmName vm +:+ "-" +:+
       digits4 y +:+ digits2 m +:+ digits2 d +:+ "-" +:+
       digits2 hh +:+ digits2 mm +:+ digits2 ss) /\
  (forall now',
     now' / Second = now / Second ->
     snapName (buildSnapshot' schedule vm now') =
     snapName (buildSnapshot' schedule vm now)).
Proof.
  intros Hrange. split.
  - destruct (formatTimestamp_calendar now Hrange)
      as (y & m & d & hh & mm & ss & Hy & Hm & Hd & Hhh & Hmm & Hss & Hsec & Hfmt).
    exists y, m, d, hh, mm, ss. repeat (split; [assumption|]).
    simpl. now rewrite Hfmt.
  - intros now' Hsame. simpl. unfold formatTimestamp. now rewrite Hsame.
Qed.

(** X15.  With a negative [retention.maxCount], retention for a VM that has
    at least one selected snapshot reads the snapshot store and the clock
    and then panics: no delete request is sent. *)
Theorem negative_maxCount_panics_before_any_delete
    (schedule : VirtualMachineSnapshotSchedule) (vm : VirtualMachine)
    (retention : VirtualMachineSnapshotScheduleRetention) (N : Z)
    (log : list Action) :
  spRetention (schedSpec schedule) = Some retention ->
  retMaxCount retention = Some N ->
  N < 0 ->
  scheduledSnapshotsForVM snapshotSourceNameLabel schedule vm
    (snapshotStoreList w) <> [] ->
  applyRetentionForVM sortSlice snapshotSourceNameLabel w schedule vm log =
    (Panic, log ++ [ASnapshotList; ANow (clock w (S (length log)))]).
Proof.
  intros Hret HN Hneg Hsel. unfold applyRetentionForVM.
  unfold bind at 1, getScheduledSnapshotsForVM, SnapshotStore_List.
  unfold bind at 1 2, emit, ret. cbn [fst snd].
  destruct (scheduledSnapshotsForVM _ _ _ _) as [|s rest]; [congruence|].
  cbn [length Nat.eqb]. unfold bind at 1, Now.
  rewrite Hret, (snapshotsToDelete_negative_maxCount _ _ _ N HN Hneg).
  unfold panic. rewrite length_app, Nat.add_comm, <- app_assoc. reflexivity.
Qed.

End Names.

Lemma snapshot_name_is_schedule_vm_and_second_witness :
  (exists y m d hh mm ss,
     1 <= y <= 9999 /\ 1 <= m <= 12 /\ 1 <= d <= daysInMonth (isLeapYear y) m /\
     0 <= hh <= 23 /\ 0 <= mm <= 59 /\ 0 <= ss <= 59 /\
     unixSecond y m d hh mm ss = Demo.T0 / Second /\
     snapName (Demo.buildSnapshot Demo.s1 Demo.vmA Demo.T0) =
       "s1" +:+ "-" +:+ "vmA" +:+ "-" +:+
       digits4 y +:+ digits2 m +:+ digits2 d +:+ "-" +:+
       digits2 hh +:+ digits2 mm +:+ digits2 ss) /\
  (forall now',
     now' / Second = Demo.T0 / Second ->
     snapName (Demo.buildSnapshot Demo.s1 Demo.vmA now') =
     snapName (Demo.buildSnapshot Demo.s1 Demo.vmA Demo.T0)).
Proof.
  apply (snapshot_name_is_schedule_vm_and_second
           Demo.snapshotSourceNameLabel Demo.kubevirtGroup
           Demo.snapshotGroupVersion Demo.s1 Demo.vmA Demo.T0).
  unfold zeroTime, endOfYear9999, Demo.T0, Second. lia.
Defined.

Lemma negative_maxCount_panics_before_any_delete_witness :
  Demo.applyRetentionForVM (Demo.world Cases.negativeCount Demo.fiveSnapshots)
    Cases.negativeCount Demo.vmA [] =
  (Panic, [ASnapshotList; ANow Demo.T0]).
Proof.
  apply (negative_maxCount_panics_before_any_delete
           (@insertionSort _) Demo.snapshotSourceNameLabel
           (Demo.world Cases.negativeCount Demo.fiveSnapshots)
           Cases.negativeCount Demo.vmA Cases.keepMinusOne (-1) []).
  - reflexivity.
  - reflexivity.
  - lia.
  - vm_compute. discriminate.
Defined.

(** X16.  The launcher configuration read from an environment.  A debug
    flag is set exactly when its variable is present with the value 1.  A
    string field whose variable is set to the empty string reads like one
    whose variable is unset.  No variable besides the seven looked up
    matters. *)
Theorem launcher_config_reads_its_seven_variables (env : gmap string string) :
  (LibvirtDebugLogs (ReadVirtLauncherConfig env) = true <->
   env !! "LIBVIRT_DEBUG_LOGS" = Some "1") /\
  (VirtiofsdDebugLogs (ReadVirtLauncherConfig env) = true <->
   env !! "VIRTIOFSD_DEBUG_LOGS" = Some "1") /\
  (forall name,
     In name launcherStringVariables ->
     ReadVirtLauncherConfig (<[name := EmptyString]> env) =
     ReadVirtLauncherConfig (delete name env)) /\
  (forall env' : gmap string string,
     (forall name, In name launcherVariables -> env' !! name = env !! name) ->
     ReadVirtLauncherConfig env' = ReadVirtLauncherConfig env).
Proof.
  assert (Hflag : forall name,
            envFlag env name = true <-> env !! name = Some "1").
  { intros name. unfold envFlag, LookupEnv.
    destruct (env !! name) as [v|]; [|split; discriminate].
    rewrite String.eqb_eq. split; congruence. }
  split; [apply Hflag|]. split; [apply Hflag|]. split.
  - intros name Hin. unfold ReadVirtLauncherConfig, envString, envFlag, LookupEnv.
    simpl in Hin.
    repeat (destruct Hin as [<-|Hin]); try contradiction;
      rewrite !lookup_insert, !lookup_delete;
      repeat (case_decide; try discriminate); reflexivity.
  - intros env' Hagree.
    unfold ReadVirtLauncherConfig, envString, envFlag, LookupEnv.
    rewrite !Hagree by (simpl; tauto). reflexivity.
Qed.

Lemma launcher_config_reads_its_seven_variables_witness :
  ReadVirtLauncherConfig Cases.launcherEnv =
    {| LogVerbosity := EmptyString;
       LibvirtDebugLogs := true;
       VirtiofsdDebugLogs := false;
       SharedFilesystemPaths := EmptyString;
       StandaloneVMI := EmptyString;
       TargetPodExitSignal := EmptyString;
       PodName := "virt-launcher-vmA" |} /\
  ReadVirtLauncherConfig (<["STANDALONE_VMI" := EmptyString]> Cases.launcherEnv) =
  ReadVirtLauncherConfig (delete "STANDALONE_VMI" Cases.launcherEnv).
Proof.
  split; [vm_compute; reflexivity|].
  apply (proj1 (proj2 (proj2 (launcher_config_reads_its_seven_variables
                                Cases.launcherEnv)))).
  simpl. tauto.
Defined.

(** * What a created snapshot takes from the template *)

Lemma copyInto_empty (src : gmap string string) : copyInto src ∅ = src.
Proof.
  apply map_eq. intros k. rewrite lookup_copyInto, lookup_empty.
  destruct (src !! k); reflexivity.
Qed.

Section TemplateCopy.

Variable snapshotSourceNameLabel kubevirtGroup snapshotGroupVersion : string.
Variable w : World.

(** X17.  Every snapshot a pass asks the server to create has the VM as
    its source, by name and with kind VirtualMachine, and carries the
    annotations and the deletion policy of the schedule's snapshot template
    unchanged: the same annotation map, none when the template has none or
    there is no template, and likewise for the deletion policy. *)
Theorem created_snapshot_copies_the_template
    (schedule : VirtualMachineSnapshotSchedule) (vms : list VirtualMachine)
    (log : list Action) :
  exists tr,
    snd (createScheduledSnapshots snapshotSourceNameLabel kubevirtGroup
           snapshotGroupVersion w schedule vms log) = log ++ tr /\
    map (fun s => specSource (snapSpec s)) (flat_map createdSnapshot tr) =
      map (fun vm => {| refAPIGroup := Some kubevirtGroup;
                        refKind := "VirtualMachine";
                        refName := vmName vm |}) vms /\
    Forall (fun s => snapAnnotations s = templateAnnotations schedule /\
                     specDeletionPolicy (snapSpec s) =
                       templateDeletionPolicy schedule)
           (flat_map createdSnapshot tr).
Proof.
  destruct (createScheduledSnapshots_run snapshotSourceNameLabel kubevirtGroup
              snapshotGroupVersion w schedule vms log)
    as (tr & Hrun & Hfor & Hbuilt & _).
  exists tr. split; [now rewrite Hrun|]. split.
  - assert (Hsrc : forall l,
              Forall (fun s => exists vm now,
                        In vm vms /\
                        s = buildSnapshot snapshotSourceNameLabel kubevirtGroup
                              snapshotGroupVersion schedule vm now) l ->
              map (fun s => specSource (snapSpec s)) l =
              map (fun name => {| refAPIGroup := Some kubevirtGroup;
                                  refKind := "VirtualMachine";
                                  refName := name |})
                  (map (fun s => refName (specSource (snapSpec s))) l)).
    { induction 1 as [|s l (vm & now & _ & ->) _ IH]; [reflexivity|].
      simpl. now rewrite IH. }
    assert (Hnames : map (fun s => refName (specSource (snapSpec s)))
                         (flat_map createdSnapshot tr) =
                     flat_map createdFor tr).
    { clear. induction tr as [|a rest IH]; [reflexivity|].
      destruct a; simpl; rewrite ?IH; reflexivity. }
    rewrite (Hsrc _ Hbuilt), Hnames, Hfor, map_map. reflexivity.
  - eapply Forall_impl; [exact Hbuilt|].
    intros s (vm & now & _ & ->).
    unfold templateAnnotations, templateDeletionPolicy. simpl.
    destruct (spSnapshotTemplate (schedSpec schedule)) as [template|];
      [|split; reflexivity].
    split.
    + destruct (tmplAnnotations template); [|reflexivity].
      now rewrite copyInto_empty.
    + destruct (tmplDeletionPolicy template); reflexivity.
Qed.

End TemplateCopy.
